(** * Worker-thread engine of the CPU miner: [minethd.cpp]

    A shallow embedding of the telemetry ring buffer, the hash-context
    provisioner, the start-up self test, the job hand-off protocol and
    the two worker loops, together with the properties the specification
    states about them.

    Conventions.  Unsigned machine integers are [Z] with the wrap-around
    written out ([wrap64], [wrap32]); byte buffers are [list Z]; C arrays
    are lists read with [!!!] and written with [<[ i := x ]>].  Functions
    of other translation units (the hash backend, the context allocator,
    the nonce-start helpers and the constants of [minethd.h]) are section
    variables. *)

From Stdlib Require Import ZArith List Lia Bool String.
From stdpp Require Import base numbers list.
Import ListNotations.

Local Open Scope Z_scope.

(** ** Machine integers *)

Definition wrap64 (z : Z) : Z := z mod 2 ^ 64.
Definition wrap32 (z : Z) : Z := z mod 2 ^ 32.

Definition is_u64 (z : Z) : Prop := 0 <= z < 2 ^ 64.
Definition is_u32 (z : Z) : Prop := 0 <= z < 2 ^ 32.

Lemma wrap64_range z : is_u64 (wrap64 z).
Proof. unfold is_u64, wrap64. apply Z.mod_pos_bound. lia. Qed.

Lemma wrap32_range z : is_u32 (wrap32 z).
Proof. unfold is_u32, wrap32. apply Z.mod_pos_bound. lia. Qed.

Lemma wrap64_small z : is_u64 z -> wrap64 z = z.
Proof. unfold is_u64, wrap64. intros. apply Z.mod_small. lia. Qed.

Lemma wrap32_small z : is_u32 z -> wrap32 z = z.
Proof. unfold is_u32, wrap32. intros. apply Z.mod_small. lia. Qed.

Lemma wrap64_sub_zero a b : is_u64 a -> is_u64 b -> wrap64 (a - b) = 0 <-> a = b.
Proof.
  unfold is_u64, wrap64. intros Ha Hb. split.
  - intros H. apply Z.mod_divide in H; [|lia].
    destruct H as [k Hk]. nia.
  - intros ->. rewrite Z.sub_diag. reflexivity.
Qed.

(** ** Byte buffers *)

(** [memcpy]-style write of [bs] into [buf] at offset [off]. *)
Definition store_bytes (buf : list Z) (off : nat) (bs : list Z) : list Z :=
  take off buf ++ bs ++ drop (off + length bs) buf.

Lemma store_bytes_length buf off bs :
  (off + length bs <= length buf)%nat ->
  length (store_bytes buf off bs) = length buf.
Proof.
  intros H. unfold store_bytes.
  rewrite !length_app, length_take, length_drop. lia.
Qed.

Lemma store_bytes_take_below buf off bs n :
  (n <= off)%nat -> (off <= length buf)%nat ->
  take n (store_bytes buf off bs) = take n buf.
Proof.
  intros Hn Ho. unfold store_bytes.
  rewrite take_app_le by (rewrite length_take; lia).
  rewrite take_take. f_equal. lia.
Qed.

Lemma store_bytes_take_upto buf off bs :
  (off <= length buf)%nat ->
  take (off + length bs) (store_bytes buf off bs) = take off buf ++ bs.
Proof.
  intros Ho. unfold store_bytes.
  rewrite app_assoc.
  rewrite take_app_le by (rewrite length_app, length_take; lia).
  rewrite take_ge by (rewrite length_app, length_take; lia).
  reflexivity.
Qed.

Lemma store_bytes_take_front buf bs :
  take (length bs) (store_bytes buf 0 bs) = bs.
Proof.
  change (length bs) with (0 + length bs)%nat.
  rewrite store_bytes_take_upto by lia. reflexivity.
Qed.

(** ** Telemetry ring buffer *)

Module Telemetry.

(** Result of [calc_telemetry_data].  The C++ function returns a [double]:
    [NaN] is [nan("")], and [Ratio h t] stands for the quotient
    [fHashes / fTime] computed from [fHashes = h] and [fTime = t / 1000.0];
    the two operands are exact unsigned 64-bit integers before their
    conversion to [double]. *)
Inductive hashrate : Type :=
  | NaN
  | Ratio (fHashes fTime_ms : Z).

Record telemetry : Type := {
  ppHashCounts : list (list Z);
  ppTimestamps : list (list Z);
  iBucketTop : list Z
}.

(** Locals of [calc_telemetry_data]. *)
Record anchors : Type := {
  iEarliestHashCnt : Z;
  iEarliestStamp : Z;
  iLastestStamp : Z;
  iLastestHashCnt : Z;
  bHaveFullSet : bool
}.

Definition anchors0 : anchors :=
  {| iEarliestHashCnt := 0; iEarliestStamp := 0; iLastestStamp := 0;
     iLastestHashCnt := 0; bHaveFullSet := false |}.

Section Buckets.

(** [iBucketSize] and [iBucketMask] are constants of [minethd.h]: the
    capacity is a power of two and the mask is the capacity minus one. *)
Variable bucket_bits : nat.

Definition iBucketSize : Z := 2 ^ Z.of_nat bucket_bits.
Definition iBucketMask : Z := iBucketSize - 1.

Section Fresh.

(** Contents of the memory handed out by [new]: [new_u64 k] is what the
    [k]-th [new uint64_t[iBucketSize]] holds before anything is written to
    it, [new_u32] what [new uint32_t[iThd]] holds. *)
Variable new_u64 : nat -> list Z.
Variable new_u32 : list Z.

Definition zeroed : list Z := replicate (Z.to_nat iBucketSize) 0.

(** One iteration of the constructor's loop (lines 73-80). *)
Definition ctor_body (t : telemetry) (i : nat) : telemetry :=
  let hc := <[ i := new_u64 (2 * i) ]> (ppHashCounts t) in
  let ts := <[ i := new_u64 (2 * i + 1) ]> (ppTimestamps t) in
  let top := <[ i := 0 ]> (iBucketTop t) in
  (* memset(ppHashCounts[0], ...); memset(ppTimestamps[0], ...) *)
  {| ppHashCounts := <[ 0%nat := zeroed ]> hc;
     ppTimestamps := <[ 0%nat := zeroed ]> ts;
     iBucketTop := top |}.

(** [telemetry::telemetry(size_t iThd)].  The pointer arrays start with
    [iThd] unassigned entries (modelled as empty arrays). *)
Definition telemetry_new (iThd : nat) : telemetry :=
  fold_left ctor_body (seq 0 iThd)
    {| ppHashCounts := replicate iThd [];
       ppTimestamps := replicate iThd [];
       iBucketTop := new_u32 |}.

End Fresh.

Definition stamp_at (t : telemetry) (iThread : nat) (idx : Z) : Z :=
  (ppTimestamps t !!! iThread) !!! Z.to_nat idx.

Definition count_at (t : telemetry) (iThread : nat) (idx : Z) : Z :=
  (ppHashCounts t !!! iThread) !!! Z.to_nat idx.

(** [idx = (iBucketTop[iThread] - i) & iBucketMask], on [size_t]. *)
Definition slot_back (t : telemetry) (iThread : nat) (i : Z) : Z :=
  Z.land (wrap64 (iBucketTop t !!! iThread - i)) iBucketMask.

(** The [for] loop of [calc_telemetry_data] (lines 95-116) over the
    remaining values of [i]; a [break] returns the locals as they are. *)
Fixpoint calc_walk (t : telemetry) (iThread : nat) (iTimeNow iLastMilisec : Z)
    (idxs : list Z) (a : anchors) : anchors :=
  match idxs with
  | [] => a
  | i :: rest =>
      let idx := slot_back t iThread i in
      let stamp := stamp_at t iThread idx in
      if stamp =? 0 then a
      else
        let a1 :=
          if iLastestStamp a =? 0
          then {| iEarliestHashCnt := iEarliestHashCnt a;
                  iEarliestStamp := iEarliestStamp a;
                  iLastestStamp := stamp;
                  iLastestHashCnt := count_at t iThread idx;
                  bHaveFullSet := bHaveFullSet a |}
          else a in
        if wrap64 (iTimeNow - stamp) >? iLastMilisec
        then {| iEarliestHashCnt := iEarliestHashCnt a1;
                iEarliestStamp := iEarliestStamp a1;
                iLastestStamp := iLastestStamp a1;
                iLastestHashCnt := iLastestHashCnt a1;
                bHaveFullSet := true |}
        else
          calc_walk t iThread iTimeNow iLastMilisec rest
            {| iEarliestHashCnt := count_at t iThread idx;
               iEarliestStamp := stamp;
               iLastestStamp := iLastestStamp a1;
               iLastestHashCnt := iLastestHashCnt a1;
               bHaveFullSet := bHaveFullSet a1 |}
  end.

(** Values of the loop variable: [1 .. iBucketSize - 1]. *)
Definition walk_indices : list Z :=
  map Z.of_nat (seq 1 (Z.to_nat iBucketSize - 1)).

(** [telemetry::calc_telemetry_data]; [iTimeNow] is the clock reading of
    line 86. *)
Definition calc_telemetry_data (t : telemetry) (iTimeNow : Z)
    (iLastMilisec : Z) (iThread : nat) : hashrate :=
  let a := calc_walk t iThread iTimeNow iLastMilisec walk_indices anchors0 in
  if negb (bHaveFullSet a) || (iEarliestStamp a =? 0) || (iLastestStamp a =? 0)
  then NaN
  else if wrap64 (iLastestStamp a - iEarliestStamp a) =? 0 then NaN
  else Ratio (wrap64 (iLastestHashCnt a - iEarliestHashCnt a))
             (wrap64 (iLastestStamp a - iEarliestStamp a)).

(** [telemetry::push_perf_value]. *)
Definition push_perf_value (t : telemetry) (iThd : nat)
    (iHashCount iTimestamp : Z) : telemetry :=
  let iTop := iBucketTop t !!! iThd in
  {| ppHashCounts :=
       alter (fun a => <[ Z.to_nat iTop := iHashCount ]> a) iThd (ppHashCounts t);
     ppTimestamps :=
       alter (fun a => <[ Z.to_nat iTop := iTimestamp ]> a) iThd (ppTimestamps t);
     iBucketTop := <[ iThd := Z.land (iTop + 1) iBucketMask ]> (iBucketTop t) |}.

(** *** The walk, read as a list of samples

    [history] lists the samples the loop visits, most recent first, as
    pairs (timestamp, hash count). *)
Definition sample : Type := (Z * Z)%type.

Definition sample_back (t : telemetry) (iThread : nat) (i : Z) : sample :=
  let idx := slot_back t iThread i in
  (stamp_at t iThread idx, count_at t iThread idx).

Definition history (t : telemetry) (iThread : nat) : list sample :=
  map (sample_back t iThread) walk_indices.

Definition written (s : sample) : bool := negb (fst s =? 0).

Definition in_window (iTimeNow iLastMilisec : Z) (s : sample) : bool :=
  negb (wrap64 (iTimeNow - fst s) >? iLastMilisec).

(** The leading run of written samples inside the window, and the sample
    that ends it ([None] when the run covers the whole list). *)
Fixpoint window_run (iTimeNow iLastMilisec : Z) (h : list sample)
    : list sample * option sample :=
  match h with
  | [] => ([], None)
  | s :: h' =>
      if written s && in_window iTimeNow iLastMilisec s
      then let '(run, stop) := window_run iTimeNow iLastMilisec h' in
           (s :: run, stop)
      else ([], Some s)
  end.

(** The rate read off the list of samples: "no data" in the four cases
    marked below, the quotient of the anchors' differences otherwise. *)
Definition rate_of_history (iTimeNow iLastMilisec : Z) (h : list sample)
    : hashrate :=
  match window_run iTimeNow iLastMilisec h with
  | (_, None) => NaN                         (* capacity exhausted *)
  | (run, Some stop) =>
      if negb (written stop) then NaN        (* unwritten slot reached *)
      else
        match run with
        | [] => NaN                          (* nothing inside the window *)
        | latest :: _ =>
            let earliest := List.last run latest in
            if fst latest =? fst earliest then NaN
            else Ratio (wrap64 (snd latest - snd earliest))
                       (wrap64 (fst latest - fst earliest))
        end
  end.

(** "The walk exhausts the buffer's capacity before finding a sample older
    than the requested window": every visited slot is written and inside
    the window. *)
Definition exhausted (iTimeNow iLastMilisec : Z) (h : list sample) : bool :=
  forallb (fun s => written s && in_window iTimeNow iLastMilisec s) h.

(** The rate as the specification words it: "no data" when the walk is
    exhausted or the two anchor timestamps are equal, the quotient
    otherwise. *)
Definition rate_as_stated (t : telemetry) (iTimeNow iLastMilisec : Z)
    (iThread : nat) : hashrate :=
  let a := calc_walk t iThread iTimeNow iLastMilisec walk_indices anchors0 in
  if exhausted iTimeNow iLastMilisec (history t iThread)
     || (iEarliestStamp a =? iLastestStamp a)
  then NaN
  else Ratio (wrap64 (iLastestHashCnt a - iEarliestHashCnt a))
             (wrap64 (iLastestStamp a - iEarliestStamp a)).

(** Well-formed telemetry for worker [iThread]: its timestamps are
    unsigned 64-bit values. *)
Definition stamps_u64 (t : telemetry) (iThread : nat) : Prop :=
  forall idx, is_u64 (stamp_at t iThread idx).

(** The locals after the loop has moved the earliest anchor to [e] and
    set [bHaveFullSet] to [full]. *)
Definition settle (a : anchors) (e : sample) (full : bool) : anchors :=
  {| iEarliestHashCnt := snd e; iEarliestStamp := fst e;
     iLastestStamp := iLastestStamp a; iLastestHashCnt := iLastestHashCnt a;
     bHaveFullSet := full |}.

(** *** Properties of the walk *)

Lemma window_run_Forall (P : sample -> Prop) now win h run stop :
  window_run now win h = (run, stop) -> Forall P h -> Forall P run.
Proof.
  revert run stop. induction h as [|s h IH]; simpl; intros run stop E HP.
  - inversion E. constructor.
  - inversion HP; subst.
    destruct (written s && in_window now win s).
    + destruct (window_run now win h) as [run' stop'] eqn:E'.
      inversion E; subst. constructor; [assumption|].
      eapply IH; [reflexivity|assumption].
    + inversion E. constructor.
Qed.

Lemma window_run_written now win h run stop :
  window_run now win h = (run, stop) ->
  Forall (fun s => written s = true) run.
Proof.
  revert run stop. induction h as [|s h IH]; simpl; intros run stop E.
  - inversion E. constructor.
  - destruct (written s && in_window now win s) eqn:Hs.
    + destruct (window_run now win h) as [run' stop'] eqn:E'.
      inversion E; subst. constructor.
      * apply andb_true_iff in Hs. tauto.
      * eapply IH. reflexivity.
    + inversion E. constructor.
Qed.

Lemma last_Forall (P : sample -> Prop) (run : list sample) (d : sample) :
  P d -> Forall P run -> P (List.last run d).
Proof.
  intros Hd H. induction H as [|x l Hx Hl IH]; simpl; [assumption|].
  destruct l; [assumption|]. exact IH.
Qed.

Lemma last_shift (x d : sample) (l : list sample) :
  List.last (x :: l) d = List.last l x.
Proof.
  revert x d. induction l as [|y l IH]; intros x d; [reflexivity|].
  change (List.last (x :: y :: l) d) with (List.last (y :: l) d).
  rewrite !IH. reflexivity.
Qed.

Lemma written_sample_back t iThread i :
  written (sample_back t iThread i)
  = negb (stamp_at t iThread (slot_back t iThread i) =? 0).
Proof. reflexivity. Qed.

Lemma in_window_sample_back t iThread now win i :
  in_window now win (sample_back t iThread i)
  = negb (wrap64 (now - stamp_at t iThread (slot_back t iThread i)) >? win).
Proof. reflexivity. Qed.

(** Once the latest anchor is set, the rest of the loop only moves the
    earliest anchor down the run of in-window samples and raises
    [bHaveFullSet] when a written sample outside the window ends it. *)
Lemma calc_walk_tail t iThread now win idxs a :
  iLastestStamp a <> 0 ->
  bHaveFullSet a = false ->
  calc_walk t iThread now win idxs a
  = let '(run, stop) := window_run now win (map (sample_back t iThread) idxs) in
    settle a (List.last run (iEarliestStamp a, iEarliestHashCnt a))
      (match stop with Some s => written s | None => false end).
Proof.
  revert a. induction idxs as [|i rest IH]; intros a Hl Hf.
  - destruct a; simpl in *. subst. reflexivity.
  - cbn [calc_walk map window_run].
    rewrite written_sample_back, in_window_sample_back.
    destruct (stamp_at t iThread (slot_back t iThread i) =? 0) eqn:Hz;
      cbn [negb andb].
    { rewrite written_sample_back, Hz.
      destruct a; simpl in *. subst. reflexivity. }
    apply Z.eqb_neq in Hl as Hl'. rewrite Hl'.
    destruct (wrap64 (now - stamp_at t iThread (slot_back t iThread i)) >? win)
      eqn:Hw; cbn [negb].
    { rewrite written_sample_back, Hz. destruct a; reflexivity. }
    rewrite IH by assumption. cbn [iEarliestStamp iEarliestHashCnt].
    destruct (window_run now win (map (sample_back t iThread) rest))
      as [run stop].
    unfold settle. cbn [iLastestStamp iLastestHashCnt].
    rewrite last_shift. reflexivity.
Qed.

Lemma history_u64 t iThread :
  stamps_u64 t iThread ->
  Forall (fun s : sample => is_u64 (fst s)) (history t iThread).
Proof.
  intros Hu. unfold history. apply Forall_map, Forall_forall.
  intros i _. apply Hu.
Qed.

(** The function computes [rate_of_history] of the samples it visits. *)
Lemma calc_telemetry_data_history t now win iThread :
  stamps_u64 t iThread ->
  calc_telemetry_data t now win iThread
  = rate_of_history now win (history t iThread).
Proof.
  intros Hu. apply history_u64 in Hu. revert Hu.
  unfold calc_telemetry_data, rate_of_history, history.
  destruct walk_indices as [|i rest]; [reflexivity|]. intros Hu.
  cbn [calc_walk map window_run anchors0 iLastestStamp].
  rewrite written_sample_back, in_window_sample_back.
  cbn [map] in Hu.
  pose proof (Forall_inv Hu) as Hu0. pose proof (Forall_inv_tail Hu) as Hu1.
  clear Hu.
  cbn [sample_back fst] in Hu0.
  set (st := stamp_at t iThread (slot_back t iThread i)) in Hu0 |- *.
  set (ct := count_at t iThread (slot_back t iThread i)).
  destruct (st =? 0) eqn:Hz; cbn [negb andb].
  { rewrite written_sample_back. fold st. rewrite Hz. reflexivity. }
  change (0 =? 0) with true. cbv iota.
  destruct (wrap64 (now - st) >? win) eqn:Hw; cbn [negb].
  { rewrite written_sample_back. fold st. rewrite Hz. reflexivity. }
  apply Z.eqb_neq in Hz as Hz'.
  rewrite calc_walk_tail by (cbn; auto).
  cbn [iEarliestStamp iEarliestHashCnt iLastestStamp iLastestHashCnt
       bHaveFullSet].
  destruct (window_run now win (map (sample_back t iThread) rest))
    as [run stop] eqn:E.
  unfold settle.
  cbn [iEarliestStamp iEarliestHashCnt iLastestStamp iLastestHashCnt
       bHaveFullSet].
  destruct stop as [s|]; [|reflexivity].
  destruct (written s); cbn [negb orb]; [|reflexivity].
  assert (Hlast : List.last (sample_back t iThread i :: run) (sample_back t iThread i)
                  = List.last run (st, ct)).
  { apply last_shift. }
  assert (Hw' : written (List.last run ((st, ct) : sample)) = true).
  { apply (last_Forall (fun s => written s = true)).
    - unfold written. cbn [fst]. rewrite Hz. reflexivity.
    - eapply window_run_written. exact E. }
  assert (Hr : is_u64 (fst (List.last run ((st, ct) : sample)))).
  { apply (last_Forall (fun s => is_u64 (fst s))); [exact Hu0|].
    eapply window_run_Forall; [exact E | exact Hu1]. }
  rewrite Hlast.
  destruct (List.last run ((st, ct) : sample)) as [es ec] eqn:El.
  cbn [fst snd] in Hr |- *.
  unfold written in Hw'. cbn [fst] in Hw'. apply negb_true_iff in Hw'.
  rewrite Hw', Hz. cbn [orb].
  assert (Heq : (wrap64 (st - es) =? 0) = (st =? es)).
  { apply eq_true_iff_eq. rewrite !Z.eqb_eq.
    apply wrap64_sub_zero; assumption. }
  rewrite Heq. reflexivity.
Qed.

(** C3 (as amended).  [calc_telemetry_data] walks backward from the most
    recent sample.  It reports "no data" when the walk reaches an
    unwritten (zero-timestamp) slot or exhausts the capacity before a
    written sample older than the window is found, when the most recent
    sample is itself older than the window (no earliest anchor), or when
    the earliest and latest anchor timestamps are equal; otherwise it
    returns (latest count - earliest count) over the elapsed time between
    the anchors. *)
Theorem calc_telemetry_data_rate t iTimeNow iLastMilisec iThread :
  stamps_u64 t iThread ->
  calc_telemetry_data t iTimeNow iLastMilisec iThread
  = match window_run iTimeNow iLastMilisec (history t iThread) with
    | (_, None) => NaN
    | (run, Some stop) =>
        if negb (written stop) then NaN
        else
          match run with
          | [] => NaN
          | latest :: _ =>
              let earliest := List.last run latest in
              if fst latest =? fst earliest then NaN
              else Ratio (wrap64 (snd latest - snd earliest))
                         (wrap64 (fst latest - fst earliest))
          end
    end.
Proof. intros Hu. rewrite calc_telemetry_data_history by assumption. reflexivity. Qed.

(** *** The write cursor and the ring *)

(** The buffer of worker [iThd] is in order: the worker exists, its
    cursor is inside the ring and its two arrays have the ring's
    capacity. *)
Definition ring_ok (t : telemetry) (iThd : nat) : Prop :=
  (iThd < length (iBucketTop t))%nat
  /\ 0 <= iBucketTop t !!! iThd < iBucketSize
  /\ (exists a, ppTimestamps t !! iThd = Some a
                /\ length a = Z.to_nat iBucketSize)
  /\ (exists a, ppHashCounts t !! iThd = Some a
                /\ length a = Z.to_nat iBucketSize).

Lemma iBucketSize_pos : 0 < iBucketSize.
Proof. unfold iBucketSize. apply Z.pow_pos_nonneg; lia. Qed.

Lemma land_mask x : Z.land x iBucketMask = x mod iBucketSize.
Proof.
  unfold iBucketMask, iBucketSize.
  replace (2 ^ Z.of_nat bucket_bits - 1) with (Z.ones (Z.of_nat bucket_bits))
    by (rewrite Z.ones_equiv; lia).
  apply Z.land_ones. lia.
Qed.

Lemma slot_mod x :
  (bucket_bits <= 64)%nat ->
  Z.land (wrap64 x) iBucketMask = x mod iBucketSize.
Proof.
  intros Hb. rewrite land_mask. unfold wrap64, iBucketSize.
  apply Z.mod_mod_divide.
  exists (2 ^ (64 - Z.of_nat bucket_bits)).
  rewrite <- Z.pow_add_r by lia. f_equal. lia.
Qed.

Lemma push_top t iThd c ts :
  (iThd < length (iBucketTop t))%nat ->
  iBucketTop (push_perf_value t iThd c ts) !!! iThd
  = (iBucketTop t !!! iThd + 1) mod iBucketSize.
Proof.
  intros H. unfold push_perf_value. cbn [iBucketTop].
  rewrite list_lookup_total_insert_eq by exact H. apply land_mask.
Qed.

Lemma stamp_at_push t iThd c ts idx :
  ring_ok t iThd -> 0 <= idx ->
  stamp_at (push_perf_value t iThd c ts) iThd idx
  = if idx =? iBucketTop t !!! iThd then ts else stamp_at t iThd idx.
Proof.
  intros (Hthd & Htop & (a & Ha & La) & _) Hidx.
  unfold stamp_at, push_perf_value. cbn [ppTimestamps].
  assert (Hlen : (iThd < length (ppTimestamps t))%nat).
  { apply lookup_lt_is_Some. eauto. }
  rewrite list_lookup_total_alter_eq by exact Hlen.
  rewrite (list_lookup_total_correct _ _ _ Ha).
  destruct (idx =? iBucketTop t !!! iThd) eqn:E.
  - apply Z.eqb_eq in E. subst idx.
    apply list_lookup_total_insert_eq. lia.
  - apply Z.eqb_neq in E. apply list_lookup_total_insert_ne. lia.
Qed.

Lemma count_at_push t iThd c ts idx :
  ring_ok t iThd -> 0 <= idx ->
  count_at (push_perf_value t iThd c ts) iThd idx
  = if idx =? iBucketTop t !!! iThd then c else count_at t iThd idx.
Proof.
  intros (Hthd & Htop & _ & (a & Ha & La)) Hidx.
  unfold count_at, push_perf_value. cbn [ppHashCounts].
  assert (Hlen : (iThd < length (ppHashCounts t))%nat).
  { apply lookup_lt_is_Some. eauto. }
  rewrite list_lookup_total_alter_eq by exact Hlen.
  rewrite (list_lookup_total_correct _ _ _ Ha).
  destruct (idx =? iBucketTop t !!! iThd) eqn:E.
  - apply Z.eqb_eq in E. subst idx.
    apply list_lookup_total_insert_eq. lia.
  - apply Z.eqb_neq in E. apply list_lookup_total_insert_ne. lia.
Qed.

(** X1.  [push_perf_value] on a buffer that is in order leaves it in
    order, moves the cursor of that worker one slot forward modulo the
    capacity, and touches nothing of any other worker. *)
Theorem push_perf_value_keeps_ring (t : telemetry) (iThd : nat) (c ts : Z) :
  ring_ok t iThd ->
  let t' := push_perf_value t iThd c ts in
  ring_ok t' iThd
  /\ iBucketTop t' !!! iThd = (iBucketTop t !!! iThd + 1) mod iBucketSize
  /\ (forall j, j <> iThd ->
        iBucketTop t' !! j = iBucketTop t !! j
        /\ ppTimestamps t' !! j = ppTimestamps t !! j
        /\ ppHashCounts t' !! j = ppHashCounts t !! j).
Proof.
  intros R. pose proof R as (Hthd & Htop & (a & Ha & La) & (b & Hb & Lb)).
  intros t'. pose proof iBucketSize_pos as Hs.
  assert (Ht : iBucketTop t' !!! iThd = (iBucketTop t !!! iThd + 1) mod iBucketSize).
  { apply push_top. exact Hthd. }
  split; [|split; [exact Ht|]].
  - unfold ring_ok. rewrite Ht. unfold t', push_perf_value.
    cbn [iBucketTop ppTimestamps ppHashCounts].
    rewrite length_insert, !list_lookup_alter_eq, Ha, Hb. cbn.
    split; [exact Hthd|]. split; [apply Z.mod_pos_bound; lia|].
    split; eexists; (split; [reflexivity|]); rewrite length_insert; assumption.
  - intros j Hj. unfold t', push_perf_value.
    cbn [iBucketTop ppTimestamps ppHashCounts].
    rewrite list_lookup_insert_ne by congruence.
    rewrite !list_lookup_alter_ne by congruence. auto.
Qed.

Lemma slot_back_mod t iThd i :
  (bucket_bits <= 64)%nat ->
  slot_back t iThd i = (iBucketTop t !!! iThd - i) mod iBucketSize.
Proof. intros Hb. unfold slot_back. apply slot_mod. exact Hb. Qed.

Lemma slot_back_push t iThd c ts i :
  (bucket_bits <= 64)%nat ->
  (iThd < length (iBucketTop t))%nat ->
  slot_back (push_perf_value t iThd c ts) iThd (i + 1) = slot_back t iThd i.
Proof.
  intros Hb Hthd. rewrite !slot_back_mod by exact Hb.
  rewrite push_top by exact Hthd.
  rewrite Zminus_mod_idemp_l. f_equal. lia.
Qed.

Lemma slot_back_range t iThd i :
  0 <= slot_back t iThd i < iBucketSize.
Proof.
  unfold slot_back. rewrite land_mask.
  apply Z.mod_pos_bound. apply iBucketSize_pos.
Qed.

Lemma slot_back_not_top t iThd i :
  (bucket_bits <= 64)%nat ->
  0 <= iBucketTop t !!! iThd < iBucketSize ->
  0 < i < iBucketSize ->
  slot_back t iThd i <> iBucketTop t !!! iThd.
Proof.
  intros Hb Htop Hi. rewrite slot_back_mod by exact Hb.
  set (top := iBucketTop t !!! iThd) in *.
  intros E.
  assert (D : (iBucketSize | i)).
  { apply Z.mod_divide; [lia|].
    replace i with (top - (top - i)) by lia.
    rewrite Zminus_mod, E, (Z.mod_small top) by lia.
    rewrite Z.sub_diag. reflexivity. }
  destruct D as [k Hk].
  assert (Hk1 : k <= 0 \/ 1 <= k) by lia.
  destruct Hk1; nia.
Qed.

(** X2.  For a ring of at least two slots: after [push_perf_value] the
    walk of [calc_telemetry_data] visits the new sample first, then the
    samples it visited before, without the oldest one. *)
Theorem history_after_push (t : telemetry) (iThd : nat) (c ts : Z) :
  (1 <= bucket_bits <= 64)%nat ->
  ring_ok t iThd ->
  history (push_perf_value t iThd c ts) iThd
  = (ts, c) :: removelast (history t iThd).
Proof.
  intros [Hb1 Hb] R. pose proof R as (Hthd & Htop & _).
  unfold history, walk_indices.
  assert (Hs : 2 <= iBucketSize).
  { unfold iBucketSize. change 2 with (2 ^ 1).
    apply Z.pow_le_mono_r; lia. }
  destruct (Z.to_nat iBucketSize - 1)%nat as [|m] eqn:Em; [lia|].
  replace (seq 1 (S m)) with (seq 1 m ++ [S m]) at 2
    by (rewrite seq_S; reflexivity).
  rewrite !map_app. cbn [map]. rewrite removelast_last.
  cbn [seq map]. rewrite <- seq_shift, !map_map.
  f_equal.
  - unfold sample_back.
    replace (Z.of_nat 1) with (0 + 1) by reflexivity.
    rewrite slot_back_push by assumption.
    assert (E0 : slot_back t iThd 0 = iBucketTop t !!! iThd).
    { rewrite slot_back_mod by exact Hb. rewrite Z.sub_0_r.
      apply Z.mod_small. exact Htop. }
    rewrite E0, stamp_at_push, count_at_push by (assumption || lia).
    rewrite Z.eqb_refl. reflexivity.
  - apply map_ext_in. intros j Hj. apply in_seq in Hj.
    unfold sample_back.
    replace (Z.of_nat (S j)) with (Z.of_nat j + 1) by lia.
    rewrite slot_back_push by assumption.
    pose proof (slot_back_range t iThd (Z.of_nat j)) as Hr.
    rewrite stamp_at_push, count_at_push by (assumption || lia).
    assert (Hne : slot_back t iThd (Z.of_nat j) <> iBucketTop t !!! iThd).
    { apply slot_back_not_top; try assumption. lia. }
    apply Z.eqb_neq in Hne. rewrite Hne. reflexivity.
Qed.

(** X3.  A rate, when one is returned, is a quotient by a positive time
    difference: both operands are unsigned 64-bit values and the
    divisor is not zero. *)
Theorem calc_telemetry_data_divisor (t : telemetry)
    (iTimeNow iLastMilisec : Z) (iThread : nat) (h tm : Z) :
  calc_telemetry_data t iTimeNow iLastMilisec iThread = Ratio h tm ->
  0 < tm < 2 ^ 64 /\ 0 <= h < 2 ^ 64.
Proof.
  unfold calc_telemetry_data.
  destruct (negb _ || _ || _); [discriminate|].
  destruct (wrap64 _ =? 0) eqn:E; [discriminate|].
  intros H. inversion H; subst. apply Z.eqb_neq in E.
  match goal with
  | |- 0 < wrap64 ?a < _ /\ 0 <= wrap64 ?b < _ =>
      pose proof (wrap64_range a); pose proof (wrap64_range b)
  end.
  unfold is_u64 in *. lia.
Qed.

(** *** The constructor *)

Section FreshFacts.

Variable new_u64 : nat -> list Z.
Variable new_u32 : list Z.


Definition ctor_loop (n k : nat) : telemetry :=
  fold_left (ctor_body new_u64) (seq 0 k)
    {| ppHashCounts := replicate n [];
       ppTimestamps := replicate n [];
       iBucketTop := new_u32 |}.

Lemma ctor_loop_S n k : ctor_loop n (S k) = ctor_body new_u64 (ctor_loop n k) k.
Proof. unfold ctor_loop. rewrite seq_S, fold_left_app. reflexivity. Qed.

Lemma ctor_loop_length n k :
  length (ppHashCounts (ctor_loop n k)) = n /\
  length (ppTimestamps (ctor_loop n k)) = n.
Proof.
  induction k as [|k IH].
  - unfold ctor_loop. simpl. rewrite !length_replicate. auto.
  - rewrite ctor_loop_S. unfold ctor_body. simpl.
    rewrite !length_insert. exact IH.
Qed.

(** Only slot 0 is ever cleared: the arrays of every other worker still
    hold what [new] handed out. *)
Lemma ctor_loop_other n k i :
  (0 < i < k)%nat -> (k <= n)%nat ->
  ppHashCounts (ctor_loop n k) !! i = Some (new_u64 (2 * i)) /\
  ppTimestamps (ctor_loop n k) !! i = Some (new_u64 (2 * i + 1)).
Proof.
  induction k as [|k IH]; intros Hi Hk; [lia|].
  rewrite ctor_loop_S. unfold ctor_body. cbn [ppHashCounts ppTimestamps].
  destruct (ctor_loop_length n k) as [L1 L2].
  rewrite !(list_lookup_insert_ne _ 0%nat i) by lia.
  destruct (Nat.eq_dec i k) as [->|Hne].
  - rewrite !list_lookup_insert_eq by lia. auto.
  - rewrite !list_lookup_insert_ne by lia. apply IH; lia.
Qed.

Lemma telemetry_new_other iThd i :
  (0 < i < iThd)%nat ->
  ppHashCounts (telemetry_new new_u64 new_u32 iThd) !! i = Some (new_u64 (2 * i)) /\
  ppTimestamps (telemetry_new new_u64 new_u32 iThd) !! i = Some (new_u64 (2 * i + 1)).
Proof. intros H. apply (ctor_loop_other iThd iThd i); lia. Qed.

Lemma telemetry_new_first iThd :
  (0 < iThd)%nat ->
  ppHashCounts (telemetry_new new_u64 new_u32 iThd) !! 0%nat = Some zeroed /\
  ppTimestamps (telemetry_new new_u64 new_u32 iThd) !! 0%nat = Some zeroed.
Proof.
  intros H. change (telemetry_new new_u64 new_u32 iThd) with (ctor_loop iThd iThd).
  destruct iThd as [|k]; [lia|].
  rewrite ctor_loop_S. unfold ctor_body. cbn [ppHashCounts ppTimestamps].
  destruct (ctor_loop_length (S k) k) as [L1 L2].
  rewrite !list_lookup_insert_eq by (rewrite length_insert; lia). auto.
Qed.

Lemma ctor_loop_top n k :
  length (iBucketTop (ctor_loop n k)) = length new_u32
  /\ forall i, (i < k)%nat -> (k <= length new_u32)%nat ->
       iBucketTop (ctor_loop n k) !! i = Some 0.
Proof.
  induction k as [|k [IH1 IH2]].
  - split; [reflexivity|]. intros i Hi. lia.
  - rewrite ctor_loop_S. unfold ctor_body. cbn [iBucketTop].
    rewrite length_insert. split; [exact IH1|].
    intros i Hi Hk. destruct (Nat.eq_dec i k) as [->|Hne].
    + apply list_lookup_insert_eq. lia.
    + rewrite list_lookup_insert_ne by lia. apply IH2; lia.
Qed.

Lemma zeroed_lookup (k : nat) :
  (k < Z.to_nat (iBucketSize))%nat ->
  zeroed !!! k = 0.
Proof. intros H. unfold zeroed. apply lookup_total_replicate_2. exact H. Qed.

(** X4.  When [new] hands out arrays of the requested sizes, the
    constructor leaves the buffer of every worker in order, with its
    write cursor at slot 0. *)
Theorem telemetry_new_ring (iThd i : nat) :
  length new_u32 = iThd ->
  (forall k, length (new_u64 k) = Z.to_nat (iBucketSize)) ->
  (i < iThd)%nat ->
  ring_ok (telemetry_new new_u64 new_u32 iThd) i
  /\ iBucketTop (telemetry_new new_u64 new_u32 iThd) !!! i = 0.
Proof.
  intros Hn Hlen Hi.
  change (telemetry_new new_u64 new_u32 iThd)
    with (ctor_loop iThd iThd).
  destruct (ctor_loop_top iThd iThd) as [T1 T2].
  assert (Ht : iBucketTop (ctor_loop iThd iThd) !!! i = 0).
  { apply list_lookup_total_correct. apply T2; lia. }
  split; [|exact Ht].
  unfold ring_ok. rewrite Ht, T1, Hn.
  pose proof iBucketSize_pos.
  split; [exact Hi|]. split; [lia|].
  destruct i as [|i].
  - destruct (telemetry_new_first iThd Hi) as [H1 H2].
    change (telemetry_new new_u64 new_u32 iThd)
      with (ctor_loop iThd iThd) in H1, H2.
    split; eexists; (split; [eassumption|]);
      unfold zeroed; apply length_replicate.
  - destruct (ctor_loop_other iThd iThd (S i)) as [H1 H2]; [lia|lia|].
    split; eexists; (split; [eassumption|]); apply Hlen.
Qed.

(** X5.  Worker 0 has no rate right after construction, and still none
    after its first sample, whatever the clock and the window: a rate
    needs two recorded samples. *)
Theorem no_rate_before_second_sample (iThd : nat) (c ts now win : Z) :
  (bucket_bits <= 64)%nat ->
  length new_u32 = iThd ->
  (0 < iThd)%nat ->
  let t := telemetry_new new_u64 new_u32 iThd in
  calc_telemetry_data t now win 0 = NaN
  /\ calc_telemetry_data
       (push_perf_value t 0 c ts) now win 0 = NaN.
Proof.
  intros Hb Hn Hi t.
  pose proof iBucketSize_pos as Hs.
  destruct (telemetry_new_first iThd Hi) as [Hc0 Ht0]. fold t in Hc0, Ht0.
  assert (Hstamp : forall idx, 0 <= idx < iBucketSize ->
                     stamp_at t 0 idx = 0).
  { intros idx Hidx. unfold stamp_at.
    rewrite (list_lookup_total_correct _ _ _ Ht0).
    apply zeroed_lookup. lia. }
  assert (Htop : iBucketTop t !!! 0%nat = 0).
  { destruct (ctor_loop_top iThd iThd) as [_ T2].
    apply list_lookup_total_correct. apply (T2 0%nat); lia. }
  assert (R : ring_ok t 0).
  { unfold ring_ok. rewrite Htop.
    destruct (ctor_loop_top iThd iThd) as [T1 _].
    change (ctor_loop iThd iThd) with t in T1. rewrite T1, Hn.
    split; [exact Hi|]. split; [lia|].
    split; eexists; (split; [eassumption|]);
      unfold zeroed; apply length_replicate. }
  split.
  - unfold calc_telemetry_data.
    destruct (walk_indices) as [|i rest]; [reflexivity|].
    cbn [calc_walk]. rewrite Hstamp by apply slot_back_range. reflexivity.
  - unfold calc_telemetry_data, walk_indices.
    destruct (Z.to_nat (iBucketSize) - 1)%nat as [|m] eqn:Em;
      [reflexivity|].
    cbn [seq map calc_walk].
    assert (Hs1 : slot_back (push_perf_value t 0 c ts)
                    0 (Z.of_nat 1) = 0).
    { replace (Z.of_nat 1) with (0 + 1) by reflexivity.
      rewrite slot_back_push by (assumption || apply R).
      rewrite slot_back_mod, Htop by exact Hb.
      apply Z.mod_small. lia. }
    rewrite Hs1, stamp_at_push, count_at_push, Htop by (assumption || lia).
    cbn [Z.eqb].
    destruct (ts =? 0) eqn:Ez; [reflexivity|].
    cbn [anchors0 iLastestStamp Z.eqb].
    destruct (wrap64 (now - ts) >? win); [reflexivity|].
    destruct m as [|m]; [reflexivity|].
    cbn [seq map calc_walk].
    assert (Hs2 : stamp_at (push_perf_value t 0 c ts) 0
              (slot_back (push_perf_value t 0 c ts)
                 0 (Z.of_nat 2)) = 0).
    { replace (Z.of_nat 2) with (1 + 1) by reflexivity.
      rewrite slot_back_push by (assumption || apply R).
      pose proof (slot_back_range t 0 1) as Hr.
      rewrite stamp_at_push by (assumption || lia).
      assert (Hne : slot_back t 0 1 <> iBucketTop t !!! 0%nat).
      { apply slot_back_not_top; [assumption|lia|lia]. }
      apply Z.eqb_neq in Hne. rewrite Hne. apply Hstamp. exact Hr. }
    rewrite Hs2. reflexivity.
Qed.

End FreshFacts.

End Buckets.

(** *** Concrete runs (capacity 4) *)

(** A worker whose only sample is older than the requested window. *)
Definition stale_worker : telemetry :=
  push_perf_value 2 (telemetry_new 2 (fun _ => [0; 0; 0; 0]) [0] 1) 0 8 1000.

(** C3, counterexample.  The walk stops at the first slot (it does not
    exhaust the capacity) and the anchor timestamps differ (0 and 1000),
    so the specification's wording gives the quotient 8 / 1 s; the function
    returns NaN. *)
Lemma rate_as_stated_differs :
  exhausted 5000 1000 (history 2 stale_worker 0) = false /\
  rate_as_stated 2 stale_worker 5000 1000 0 = Ratio 8 1000 /\
  calc_telemetry_data 2 stale_worker 5000 1000 0 = NaN.
Proof. vm_compute. auto. Qed.

(** A worker with three samples, the oldest outside a 2.5 s window. *)
Definition busy_worker : telemetry :=
  let t0 := telemetry_new 2 (fun _ => [0; 0; 0; 0]) [0] 1 in
  let t1 := push_perf_value 2 t0 0 16 2000 in
  let t2 := push_perf_value 2 t1 0 24 3000 in
  push_perf_value 2 t2 0 40 4000.

Lemma busy_worker_u64 : stamps_u64 busy_worker 0.
Proof.
  intros idx. unfold stamp_at.
  destruct (Z.to_nat idx) as [|[|[|[|n]]]]; vm_compute; split; congruence.
Qed.

Lemma calc_telemetry_data_rate_witness :
  stamps_u64 busy_worker 0 /\
  calc_telemetry_data 2 busy_worker 5000 2500 0 = Ratio 16 1000.
Proof.
  split; [exact busy_worker_u64|].
  rewrite (calc_telemetry_data_rate 2 busy_worker 5000 2500 0 busy_worker_u64).
  vm_compute. reflexivity.
Defined.

(** What [new] returns for the arrays of a two-worker pool in the run
    below: allocation [k] holds the values [100 * k + 10 * (slot + 1)]. *)
Definition stale_heap (k : nat) : list Z :=
  map (fun j => 100 * Z.of_nat k + 10 * Z.of_nat j) (seq 1 4).

(** C4, at the failing input [iThd = 2].  After the constructor the arrays
    of worker 0 are zero, but those of worker 1 still hold what [new]
    returned, and [calc_telemetry_data] computes a rate from slots that
    were never written. *)
Theorem telemetry_new_second_worker_not_zeroed :
  let t := telemetry_new 2 stale_heap [0; 0] 2 in
  ppTimestamps t !! 0%nat = Some [0; 0; 0; 0] /\
  ppHashCounts t !! 0%nat = Some [0; 0; 0; 0] /\
  ppTimestamps t !! 1%nat = Some [310; 320; 330; 340] /\
  ppHashCounts t !! 1%nat = Some [210; 220; 230; 240] /\
  calc_telemetry_data 2 t 400 75 1 = Ratio 10 10.
Proof. vm_compute. repeat split. Qed.

(** *** Concrete runs of the ring *)

Lemma busy_worker_ring : ring_ok 2 busy_worker 0.
Proof.
  unfold ring_ok. split; [vm_compute; lia|].
  split; [vm_compute; split; congruence|].
  split; eexists; (split; [vm_compute; reflexivity|reflexivity]).
Qed.

(** The fourth sample of [busy_worker] brings the cursor back to slot 0. *)
Lemma push_perf_value_keeps_ring_witness :
  ring_ok 2 busy_worker 0
  /\ ring_ok 2 (push_perf_value 2 busy_worker 0 48 5000) 0
  /\ iBucketTop (push_perf_value 2 busy_worker 0 48 5000) !!! 0%nat = 0.
Proof.
  split; [exact busy_worker_ring|].
  destruct (push_perf_value_keeps_ring 2 busy_worker 0 48 5000 busy_worker_ring)
    as (H1 & H2 & _).
  split; [exact H1|]. rewrite H2. vm_compute. reflexivity.
Defined.

(** With capacity 4 the walk sees three samples: the new one replaces the
    oldest. *)
Lemma history_after_push_witness :
  history 2 busy_worker 0 = [(4000, 40); (3000, 24); (2000, 16)]
  /\ history 2 (push_perf_value 2 busy_worker 0 48 5000) 0
     = [(5000, 48); (4000, 40); (3000, 24)].
Proof.
  split; [vm_compute; reflexivity|].
  rewrite (history_after_push 2 busy_worker 0 48 5000
             ltac:(lia)
             busy_worker_ring).
  vm_compute. reflexivity.
Defined.

Lemma calc_telemetry_data_divisor_witness :
  calc_telemetry_data 2 busy_worker 5000 2500 0 = Ratio 16 1000
  /\ 0 < 1000 < 2 ^ 64 /\ 0 <= 16 < 2 ^ 64.
Proof.
  assert (E : calc_telemetry_data 2 busy_worker 5000 2500 0 = Ratio 16 1000)
    by (vm_compute; reflexivity).
  split; [exact E|].
  exact (calc_telemetry_data_divisor 2 busy_worker 5000 2500 0 16 1000 E).
Defined.

(** The second worker of a two-worker buffer built on [stale_heap]: its
    arrays are not zeroed, but they have the capacity of the ring and the
    cursor is at slot 0. *)
Lemma telemetry_new_ring_witness :
  (forall k, length (stale_heap k) = Z.to_nat (iBucketSize 2))
  /\ ring_ok 2 (telemetry_new 2 stale_heap [7; 9] 2) 1
  /\ iBucketTop (telemetry_new 2 stale_heap [7; 9] 2) !!! 1%nat = 0.
Proof.
  split; [intros k; reflexivity|].
  exact (telemetry_new_ring 2 stale_heap [7; 9] 2 1 eq_refl
           (fun k => eq_refl) ltac:(lia)).
Defined.

Lemma no_rate_before_second_sample_witness :
  calc_telemetry_data 2 (telemetry_new 2 stale_heap [7; 9] 2) 5000 1000 0 = NaN
  /\ calc_telemetry_data 2
       (push_perf_value 2 (telemetry_new 2 stale_heap [7; 9] 2) 0 8 4500)
       5000 1000 0 = NaN.
Proof.
  exact (no_rate_before_second_sample 2 stale_heap [7; 9] 2 8 4500 5000 1000
           ltac:(lia) eq_refl ltac:(lia)).
Defined.

End Telemetry.

(** ** Hash-context provisioner and start-up self test *)

Module Provisioner.

(** [jconf::slow_mem_cfg]. *)
Inductive slow_mem_cfg : Type :=
  | never_use
  | no_mlck
  | print_warning
  | always_use
  | unknown_value.

(** [jconf::thd_cfg]. *)
Record thd_cfg : Type := {
  bDoubleMode : bool;
  bNoPrefetch : bool;
  iCpuAff : Z
}.

(** What [jconf::inst()] answers. *)
Record jconf : Type := {
  GetSlowMemSetting : slow_mem_cfg;
  HaveHardwareAes : bool;
  thread_configs : list thd_cfg
}.

Definition GetThreadCount (c : jconf) : nat := length (thread_configs c).

(** The part of [cryptonight_ctx] this file reads. *)
Record cryptonight_ctx : Type := {
  ctx_info : list Z
}.

(** Outcome of one [cryptonight_alloc_ctx] call: the returned pointer
    ([None] is [NULL]) and what the callee stored in [msg->warning]. *)
Record alloc_reply : Type := {
  reply_ctx : option cryptonight_ctx;
  reply_warning : option string
}.

(** Outcome of [cryptonight_init]: its result and [msg->warning]. *)
Record init_reply : Type := {
  init_res : Z;
  init_warning : option string
}.

(** Calls that leave this translation unit, in program order. *)
Inductive event : Type :=
  | EvAllocCtx (use_fast_mem use_mlock : Z)
  | EvInit (use_fast_mem use_mlock : Z)
  | EvFreeCtx (ctx : cryptonight_ctx)
  | EvPrint (fmt : string) (arg : option string).

(** Bytes of a C string literal, without the terminating NUL. *)
Definition bytes_of_string (s : string) : list Z :=
  map (fun a => Z.of_nat (Ascii.nat_of_ascii a)) (list_ascii_of_string s).

(** [memcmp(a, b, n) == 0]. *)
Definition memcmp_eq (a b : list Z) (n : nat) : bool :=
  bool_decide (take n a = take n b).

(** The digest the software path is checked against (line 310). *)
Definition expected_digest : list Z :=
  [0xa0; 0x84; 0xf0; 0x1d; 0x14; 0x37; 0xa0; 0x9c;
   0x69; 0x85; 0x40; 0x1b; 0x60; 0xd4; 0x35; 0x54;
   0xae; 0x10; 0x58; 0x02; 0xc5; 0xf5; 0xd8; 0xa9;
   0xb3; 0x25; 0x36; 0x49; 0xc0; 0xbe; 0x66; 0x05].

Section Backend.

(** State of the operating system's memory manager. *)
Variable OS : Type.

(** The backend of [crypto/cryptonight.h]. *)
Variable cryptonight_alloc_ctx : Z -> Z -> OS -> alloc_reply * OS.
Variable cryptonight_init : Z -> Z -> OS -> init_reply * OS.
Variable cryptonight_free_ctx : cryptonight_ctx -> OS -> OS.
Variable cryptonight_hash_ctx_np : list Z -> Z -> cryptonight_ctx -> list Z.
Variable cryptonight_hash_ctx_soft : list Z -> Z -> cryptonight_ctx -> list Z.
Variable cryptonight_double_hash_ctx :
  list Z -> Z -> list cryptonight_ctx -> list Z.

Variable conf : jconf.

(** Indeterminate contents of the stack buffers [out] and [results]. *)
Variable stack_out : list Z.
Variable stack_results : list Z.

Record world : Type := {
  os : OS;
  trace : list event
}.

(** State monad over [world]. *)
Definition M (A : Type) : Type := world -> A * world.

Definition ret {A : Type} (a : A) : M A := fun w => (a, w).

Definition bind {A B : Type} (m : M A) (k : A -> M B) : M B :=
  fun w => let '(a, w') := m w in k a w'.

Notation "'let*' x ':=' c 'in' k" := (bind c (fun x => k))
  (at level 10, x name, c at level 100, k at level 200).
Notation "c '>>' k" := (bind c (fun _ => k))
  (at level 100, k at level 200, right associativity).

Definition emit (e : event) : M unit :=
  fun w => (tt, {| os := os w; trace := trace w ++ [e] |}).

Definition alloc_ctx (use_fast_mem use_mlock : Z) : M alloc_reply :=
  fun w =>
    let '(r, o) := cryptonight_alloc_ctx use_fast_mem use_mlock (os w) in
    (r, {| os := o; trace := trace w ++ [EvAllocCtx use_fast_mem use_mlock] |}).

Definition init (use_fast_mem use_mlock : Z) : M init_reply :=
  fun w =>
    let '(r, o) := cryptonight_init use_fast_mem use_mlock (os w) in
    (r, {| os := o; trace := trace w ++ [EvInit use_fast_mem use_mlock] |}).

Definition free_ctx (ctx : cryptonight_ctx) : M unit :=
  fun w =>
    (tt, {| os := cryptonight_free_ctx ctx (os w);
            trace := trace w ++ [EvFreeCtx ctx] |}).

Definition print_msg (fmt : string) (arg : option string) : M unit :=
  emit (EvPrint fmt arg).

Definition when (b : bool) (m : M unit) : M unit :=
  if b then m else ret tt.

Definition is_null {A : Type} (p : option A) : bool :=
  match p with None => true | Some _ => false end.

(** [minethd_alloc_ctx] (lines 163-198). *)
Definition minethd_alloc_ctx : M (option cryptonight_ctx) :=
  match GetSlowMemSetting conf with
  | never_use =>
      let* r := alloc_ctx 1 1 in
      when (is_null (reply_ctx r))
        (print_msg "MEMORY ALLOC FAILED: %s" (reply_warning r)) >>
      ret (reply_ctx r)
  | no_mlck =>
      let* r := alloc_ctx 1 0 in
      when (is_null (reply_ctx r))
        (print_msg "MEMORY ALLOC FAILED: %s" (reply_warning r)) >>
      ret (reply_ctx r)
  | print_warning =>
      let* r := alloc_ctx 1 1 in
      when (negb (is_null (reply_warning r)))
        (print_msg "MEMORY ALLOC FAILED: %s" (reply_warning r)) >>
      match reply_ctx r with
      | None => let* r2 := alloc_ctx 0 0 in ret (reply_ctx r2)
      | Some ctx => ret (Some ctx)
      end
  | always_use =>
      let* r := alloc_ctx 0 0 in ret (reply_ctx r)
  | unknown_value => ret None
  end.

(** The five contexts of the self test. *)
Record test_ctxs : Type := {
  ctx0 : cryptonight_ctx;
  ctx1 : cryptonight_ctx;
  ctx2 : cryptonight_ctx;
  ctx3 : cryptonight_ctx;
  ctx4 : cryptonight_ctx
}.

Definition free_all (c : test_ctxs) : M unit :=
  free_ctx (ctx0 c) >> free_ctx (ctx1 c) >> free_ctx (ctx2 c) >>
  free_ctx (ctx3 c) >> free_ctx (ctx4 c).

(** The [switch] of lines 206-229: the arguments of [cryptonight_init]
    and the value of [fatal]; [None] is the [return false] of the last
    case. *)
Definition init_plan (m : slow_mem_cfg) : option (Z * Z * bool) :=
  match m with
  | never_use => Some (1, 1, true)
  | no_mlck => Some (1, 0, true)
  | print_warning => Some (1, 1, false)
  | always_use => Some (0, 0, false)
  | unknown_value => None
  end.

(** The loop of lines 271-285: [true] when some thread asks for
    [no_prefetch] without large pages. *)
Fixpoint wrong_config (bHasLp : bool) (cfgs : list thd_cfg) : bool :=
  match cfgs with
  | [] => false
  | cfg :: rest =>
      if negb bHasLp && bNoPrefetch cfg then true
      else wrong_config bHasLp rest
  end.

(** Lines 200-285 of [self_test]: memory initialisation, the five
    contexts and the configuration check.  [None] stands for an early
    [return false]. *)
Definition self_test_setup : M (option test_ctxs) :=
  match init_plan (GetSlowMemSetting conf) with
  | None => ret None
  | Some (a, b, fatal) =>
      let* r := init a b in
      when (negb (is_null (init_warning r)))
        (print_msg "MEMORY INIT ERROR: %s" (init_warning r)) >>
      if (init_res r =? 0) && fatal then ret None
      else
        let* p0 := minethd_alloc_ctx in
        match p0 with
        | None => ret None
        | Some c0 =>
        let* p1 := minethd_alloc_ctx in
        match p1 with
        | None => free_ctx c0 >> ret None
        | Some c1 =>
        let* p2 := minethd_alloc_ctx in
        match p2 with
        | None => free_ctx c0 >> free_ctx c1 >> ret None
        | Some c2 =>
        let* p3 := minethd_alloc_ctx in
        match p3 with
        | None => free_ctx c0 >> free_ctx c1 >> free_ctx c2 >> ret None
        | Some c3 =>
        let* p4 := minethd_alloc_ctx in
        match p4 with
        | None =>
            free_ctx c0 >> free_ctx c1 >> free_ctx c2 >> free_ctx c3 >>
            ret None
        | Some c4 =>
            let c := {| ctx0 := c0; ctx1 := c1; ctx2 := c2;
                        ctx3 := c3; ctx4 := c4 |} in
            let bHasLp := (ctx_info c0 !!! 0%nat =? 1)
                          && (ctx_info c1 !!! 0%nat =? 1) in
            if wrong_config bHasLp (thread_configs conf)
            then
              print_msg
                "Wrong config. You are running in slow memory mode with no_prefetch."
                None >>
              free_all c >> ret None
            else ret (Some c)
        end end end end end
  end.

(** The buffer [results] after lines 299-301. *)
Definition reference_results (c : test_ctxs) : list Z :=
  let r0 := store_bytes stack_results 0
              (cryptonight_hash_ctx_np (bytes_of_string "nada") 4 (ctx0 c)) in
  fold_left
    (fun r z =>
       store_bytes r (32 * z)
         (cryptonight_hash_ctx_np (bytes_of_string "nado") 4 (ctx0 c)))
    (seq 1 6) r0.

(** [bResult] as lines 290-311 compute it. *)
Definition digests_match (c : test_ctxs) : bool :=
  if HaveHardwareAes conf then
    let results := reference_results c in
    let ctx := [ctx0 c; ctx1 c; ctx2 c; ctx3 c; ctx4 c; ctx4 c; ctx4 c; ctx4 c] in
    let out := store_bytes stack_out 0
                 (cryptonight_double_hash_ctx
                    (bytes_of_string "nadanadonadonadonadonadonadonado") 4 ctx) in
    memcmp_eq out results (32 * 2)
  else
    let out := store_bytes stack_out 0
                 (cryptonight_hash_ctx_soft
                    (bytes_of_string "This is a test") 14 (ctx0 c)) in
    memcmp_eq out expected_digest 32.

(** Lines 287-324 of [self_test]. *)
Definition self_test_digests (c : test_ctxs) : M bool :=
  let bResult := digests_match c in
  free_all c >>
  when (negb bResult)
    (print_msg
       "Cryptonight hash self-test failed. This might be caused by bad compiler optimizations."
       None) >>
  ret bResult.

(** [minethd::self_test]. *)
Definition self_test : M bool :=
  let* s := self_test_setup in
  match s with
  | None => ret false
  | Some c => self_test_digests c
  end.

(** *** Properties of the provisioner *)

Lemma trace_snoc2 (l : list event) a b : (l ++ [a]) ++ [b] = l ++ [a; b].
Proof. rewrite <- app_assoc. reflexivity. Qed.

Lemma trace_snoc3 (l : list event) a b c :
  ((l ++ [a]) ++ [b]) ++ [c] = l ++ [a; b; c].
Proof. rewrite <- !app_assoc. reflexivity. Qed.

(** A failed allocation under a policy without fallback: one call, the
    failure message, [NULL]. *)
Lemma alloc_no_fallback (w : world) (mlock : Z) (r : alloc_reply) (o1 : OS) :
  cryptonight_alloc_ctx 1 mlock (os w) = (r, o1) ->
  reply_ctx r = None ->
  (let* r := alloc_ctx 1 mlock in
   when (is_null (reply_ctx r))
     (print_msg "MEMORY ALLOC FAILED: %s" (reply_warning r)) >>
   ret (reply_ctx r)) w
  = (None,
     {| os := o1;
        trace := trace w ++ [EvAllocCtx 1 mlock;
                             EvPrint "MEMORY ALLOC FAILED: %s" (reply_warning r)] |}).
Proof.
  intros E Hn. unfold bind, alloc_ctx. rewrite E, Hn. cbn.
  rewrite trace_snoc2. reflexivity.
Qed.

(** C7 (as amended).  Under [print_warning] a failed first allocation
    (fast memory, locked) is followed by a second allocation with [(0, 0)],
    whose result is returned; between the two the allocator's warning is
    printed when it left one in [msg.warning], and nothing is printed
    when it left none.  Under [never_use] and [no_mlck] a failed
    allocation makes the function return [NULL] after that single
    allocation call: there is no second attempt. *)
Theorem minethd_alloc_ctx_policy (w : world) :
  (GetSlowMemSetting conf = print_warning ->
   forall (r : alloc_reply) (o1 : OS),
     cryptonight_alloc_ctx 1 1 (os w) = (r, o1) ->
     reply_ctx r = None ->
     minethd_alloc_ctx w
     = (reply_ctx (fst (cryptonight_alloc_ctx 0 0 o1)),
        {| os := snd (cryptonight_alloc_ctx 0 0 o1);
           trace := trace w
                    ++ [EvAllocCtx 1 1]
                    ++ match reply_warning r with
                       | Some _ => [EvPrint "MEMORY ALLOC FAILED: %s"
                                      (reply_warning r)]
                       | None => []
                       end
                    ++ [EvAllocCtx 0 0] |}))
  /\
  (GetSlowMemSetting conf = never_use ->
   forall (r : alloc_reply) (o1 : OS),
     cryptonight_alloc_ctx 1 1 (os w) = (r, o1) ->
     reply_ctx r = None ->
     minethd_alloc_ctx w
     = (None,
        {| os := o1;
           trace := trace w ++ [EvAllocCtx 1 1;
                                EvPrint "MEMORY ALLOC FAILED: %s" (reply_warning r)] |}))
  /\
  (GetSlowMemSetting conf = no_mlck ->
   forall (r : alloc_reply) (o1 : OS),
     cryptonight_alloc_ctx 1 0 (os w) = (r, o1) ->
     reply_ctx r = None ->
     minethd_alloc_ctx w
     = (None,
        {| os := o1;
           trace := trace w ++ [EvAllocCtx 1 0;
                                EvPrint "MEMORY ALLOC FAILED: %s" (reply_warning r)] |})).
Proof.
  unfold minethd_alloc_ctx. repeat split.
  - intros -> r o1 E Hn. unfold bind, alloc_ctx. rewrite E. cbn.
    rewrite Hn.
    destruct (reply_warning r) as [warn|]; cbn;
      destruct (cryptonight_alloc_ctx 0 0 o1) as [r2 o2]; cbn;
      rewrite <- ?app_assoc; reflexivity.
  - intros -> r o1 E Hn. apply alloc_no_fallback; assumption.
  - intros -> r o1 E Hn. apply alloc_no_fallback; assumption.
Qed.

(** *** Properties of the self test *)

Section Digests.

Hypothesis np_length :
  forall i l c, length (cryptonight_hash_ctx_np i l c) = 32%nat.
Hypothesis results_length : length stack_results = 256%nat.

(** The first two lanes of [results] are the single-hash digests of
    "nada" and "nado". *)
Lemma reference_results_front (c : test_ctxs) :
  take 64 (reference_results c)
  = cryptonight_hash_ctx_np (bytes_of_string "nada") 4 (ctx0 c)
    ++ cryptonight_hash_ctx_np (bytes_of_string "nado") 4 (ctx0 c).
Proof.
  unfold reference_results. cbn [seq fold_left Nat.mul Nat.add].
  set (nada := cryptonight_hash_ctx_np (bytes_of_string "nada") 4 (ctx0 c)).
  set (nado := cryptonight_hash_ctx_np (bytes_of_string "nado") 4 (ctx0 c)).
  assert (Ha : length nada = 32%nat) by apply np_length.
  assert (Ho : length nado = 32%nat) by apply np_length.
  set (r0 := store_bytes stack_results 0 nada).
  assert (L0 : length r0 = 256%nat).
  { unfold r0. rewrite store_bytes_length; lia. }
  set (r1 := store_bytes r0 32 nado).
  assert (L1 : length r1 = 256%nat).
  { unfold r1. rewrite store_bytes_length; lia. }
  set (r2 := store_bytes r1 64 nado).
  assert (L2 : length r2 = 256%nat).
  { unfold r2. rewrite store_bytes_length; lia. }
  set (r3 := store_bytes r2 96 nado).
  assert (L3 : length r3 = 256%nat).
  { unfold r3. rewrite store_bytes_length; lia. }
  set (r4 := store_bytes r3 128 nado).
  assert (L4 : length r4 = 256%nat).
  { unfold r4. rewrite store_bytes_length; lia. }
  set (r5 := store_bytes r4 160 nado).
  assert (L5 : length r5 = 256%nat).
  { unfold r5. rewrite store_bytes_length; lia. }
  rewrite store_bytes_take_below by lia.
  unfold r5. rewrite store_bytes_take_below by lia.
  unfold r4. rewrite store_bytes_take_below by lia.
  unfold r3. rewrite store_bytes_take_below by lia.
  unfold r2. rewrite store_bytes_take_below by lia.
  unfold r1.
  replace 64%nat with (32 + length nado)%nat by lia.
  rewrite store_bytes_take_upto by lia.
  f_equal. unfold r0.
  replace 32%nat with (length nada) by lia.
  apply store_bytes_take_front.
Qed.

End Digests.

Lemma self_test_digests_result (c : test_ctxs) (w : world) :
  fst (self_test_digests c w) = digests_match c.
Proof.
  unfold self_test_digests, free_all, bind, free_ctx, when, print_msg, emit, ret.
  destruct (digests_match c); reflexivity.
Qed.

(** [fst (m w)] is the value [m] returns from world [w]. *)
Lemma self_test_result (w : world) :
  fst (self_test w) = true <->
  exists c w1, self_test_setup w = (Some c, w1) /\ digests_match c = true.
Proof.
  unfold self_test, bind.
  destruct (self_test_setup w) as [[c|] w1].
  - rewrite self_test_digests_result. split.
    + intros H. exists c, w1. auto.
    + intros (c' & w' & E & H). inversion E; subst. exact H.
  - cbn. split; [discriminate|].
    intros (c' & w' & E & _). discriminate.
Qed.

(** C2.  Digests are 32 bytes per lane.  [self_test] passes exactly when
    its set-up phase succeeds and the digest computed for the machine's
    capability equals its reference, byte for byte: with hardware AES the
    two lanes of the batched hash of "nada" and "nado" against the
    single-hash (no-prefetch) digests of the same inputs; without it the
    software hash of the 14 bytes "This is a test" against the fixed
    digest a0 84 f0 1d ... c0 be 66 05.  Any mismatch makes it return
    false. *)
Theorem self_test_verdict (w : world) :
  (forall i l c, length (cryptonight_hash_ctx_np i l c) = 32%nat) ->
  (forall i l c, length (cryptonight_hash_ctx_soft i l c) = 32%nat) ->
  (forall i l c, length (cryptonight_double_hash_ctx i l c) = 64%nat) ->
  length stack_results = 256%nat ->
  fst (self_test w) = true <->
  exists c w1,
    self_test_setup w = (Some c, w1) /\
    if HaveHardwareAes conf then
      cryptonight_double_hash_ctx
        (bytes_of_string "nadanadonadonadonadonadonadonado") 4
        [ctx0 c; ctx1 c; ctx2 c; ctx3 c; ctx4 c; ctx4 c; ctx4 c; ctx4 c]
      = cryptonight_hash_ctx_np (bytes_of_string "nada") 4 (ctx0 c)
        ++ cryptonight_hash_ctx_np (bytes_of_string "nado") 4 (ctx0 c)
    else
      cryptonight_hash_ctx_soft (bytes_of_string "This is a test") 14 (ctx0 c)
      = expected_digest.
Proof.
  intros Hnp Hsoft Hdbl Hres.
  rewrite self_test_result.
  assert (D : forall c, digests_match c = true <->
    if HaveHardwareAes conf then
      cryptonight_double_hash_ctx
        (bytes_of_string "nadanadonadonadonadonadonadonado") 4
        [ctx0 c; ctx1 c; ctx2 c; ctx3 c; ctx4 c; ctx4 c; ctx4 c; ctx4 c]
      = cryptonight_hash_ctx_np (bytes_of_string "nada") 4 (ctx0 c)
        ++ cryptonight_hash_ctx_np (bytes_of_string "nado") 4 (ctx0 c)
    else
      cryptonight_hash_ctx_soft (bytes_of_string "This is a test") 14 (ctx0 c)
      = expected_digest).
  { intros c. unfold digests_match, memcmp_eq.
    destruct (HaveHardwareAes conf).
    - rewrite bool_decide_eq_true.
      change (32 * 2)%nat with 64%nat.
      rewrite reference_results_front by assumption.
      rewrite <- (Hdbl (bytes_of_string "nadanadonadonadonadonadonadonado") 4
        [ctx0 c; ctx1 c; ctx2 c; ctx3 c; ctx4 c; ctx4 c; ctx4 c; ctx4 c]) at 1.
      rewrite store_bytes_take_front. reflexivity.
    - rewrite bool_decide_eq_true.
      rewrite <- (Hsoft (bytes_of_string "This is a test") 14 (ctx0 c)) at 1.
      rewrite store_bytes_take_front. reflexivity. }
  split; intros (c & w1 & E & H); exists c, w1; (split; [exact E|]);
    apply D; exact H.
Qed.

(** *** Further properties of the provisioner *)

Definition is_alloc (e : event) : bool :=
  match e with EvAllocCtx _ _ => true | _ => false end.

Definition alloc_or_print (e : event) : Prop :=
  match e with
  | EvAllocCtx _ _ => True
  | EvPrint _ _ => True
  | _ => False
  end.

(** The contexts a trace frees, in order. *)
Definition freed (tr : list event) : list cryptonight_ctx :=
  flat_map (fun e => match e with EvFreeCtx c => [c] | _ => [] end) tr.

(** X6.  Whatever the policy and the allocator's answers,
    [minethd_alloc_ctx] only allocates and prints: it calls the allocator
    at most twice, twice only under [print_warning], and not at all
    under [unknown_value], where it returns [NULL]. *)
Theorem minethd_alloc_ctx_calls (w : world) :
  exists evs,
    trace (snd (minethd_alloc_ctx w)) = trace w ++ evs
    /\ Forall alloc_or_print evs
    /\ (length (List.filter is_alloc evs) <= 2)%nat
    /\ (length (List.filter is_alloc evs) = 2%nat ->
        GetSlowMemSetting conf = print_warning)
    /\ (GetSlowMemSetting conf = unknown_value ->
        evs = [] /\ fst (minethd_alloc_ctx w) = None).
Proof.
  unfold minethd_alloc_ctx, bind, alloc_ctx, when, print_msg, emit, ret.
  destruct (GetSlowMemSetting conf) eqn:Hp.
  - destruct (cryptonight_alloc_ctx 1 1 (os w)) as [r o1].
    destruct (is_null (reply_ctx r)); cbn [snd trace fst].
    + eexists. rewrite trace_snoc2. split; [reflexivity|].
      repeat split; try (repeat constructor); cbn; try lia; discriminate.
    + eexists. split; [reflexivity|].
      repeat split; try (repeat constructor); cbn; try lia; discriminate.
  - destruct (cryptonight_alloc_ctx 1 0 (os w)) as [r o1].
    destruct (is_null (reply_ctx r)); cbn [snd trace fst].
    + eexists. rewrite trace_snoc2. split; [reflexivity|].
      repeat split; try (repeat constructor); cbn; try lia; discriminate.
    + eexists. split; [reflexivity|].
      repeat split; try (repeat constructor); cbn; try lia; discriminate.
  - destruct (cryptonight_alloc_ctx 1 1 (os w)) as [r o1].
    destruct (negb (is_null (reply_warning r))); destruct (reply_ctx r); cbn;
      try (destruct (cryptonight_alloc_ctx 0 0 o1) as [r2 o2]);
      cbn [snd trace fst];
      rewrite ?trace_snoc3, ?trace_snoc2;
      eexists; (split; [reflexivity|]);
      repeat split; try (repeat constructor); cbn; try lia; discriminate.
  - destruct (cryptonight_alloc_ctx 0 0 (os w)) as [r o1]. cbn [snd trace fst].
    eexists. split; [reflexivity|].
    repeat split; try (repeat constructor); cbn; try lia; discriminate.
  - cbn [snd trace fst]. exists []. rewrite app_nil_r.
    repeat split; try constructor; cbn; try lia; discriminate.
Qed.

(** X7.  An allocation that succeeds is returned as it is, after that one
    call.  Under [never_use], [no_mlck] and [always_use] nothing is
    printed; under [print_warning] the allocator's warning, if it raised
    one (a context that could not be locked, say), is printed and there
    is no second attempt. *)
Theorem minethd_alloc_ctx_success (w : world) (ctx : cryptonight_ctx)
    (warn : option string) (o1 : OS) :
  let r := {| reply_ctx := Some ctx; reply_warning := warn |} in
  (GetSlowMemSetting conf = never_use ->
   cryptonight_alloc_ctx 1 1 (os w) = (r, o1) ->
   minethd_alloc_ctx w
   = (Some ctx, {| os := o1; trace := trace w ++ [EvAllocCtx 1 1] |}))
  /\
  (GetSlowMemSetting conf = no_mlck ->
   cryptonight_alloc_ctx 1 0 (os w) = (r, o1) ->
   minethd_alloc_ctx w
   = (Some ctx, {| os := o1; trace := trace w ++ [EvAllocCtx 1 0] |}))
  /\
  (GetSlowMemSetting conf = always_use ->
   cryptonight_alloc_ctx 0 0 (os w) = (r, o1) ->
   minethd_alloc_ctx w
   = (Some ctx, {| os := o1; trace := trace w ++ [EvAllocCtx 0 0] |}))
  /\
  (GetSlowMemSetting conf = print_warning ->
   cryptonight_alloc_ctx 1 1 (os w) = (r, o1) ->
   minethd_alloc_ctx w
   = (Some ctx,
      {| os := o1;
         trace := trace w ++ EvAllocCtx 1 1
                  :: match warn with
                     | Some _ => [EvPrint "MEMORY ALLOC FAILED: %s" warn]
                     | None => []
                     end |})).
Proof.
  intros r. unfold minethd_alloc_ctx, bind, alloc_ctx, when, print_msg, emit, ret.
  repeat split; intros -> E; rewrite E; cbn; try reflexivity.
  destruct warn; cbn; rewrite ?trace_snoc2; reflexivity.
Qed.

(** *** Further properties of the self test *)

(** X8.  [self_test] fails at once, before any context is requested,
    under [unknown_value] (nothing is called at all) and, under the two
    policies that make [cryptonight_init] fatal ([never_use] and
    [no_mlck]), when [cryptonight_init] returns 0. *)
Theorem self_test_fails_before_allocating (w : world) :
  (GetSlowMemSetting conf = unknown_value -> self_test w = (false, w))
  /\
  (forall a b (r : init_reply) (o1 : OS),
     init_plan (GetSlowMemSetting conf) = Some (a, b, true) ->
     cryptonight_init a b (os w) = (r, o1) ->
     init_res r = 0 ->
     self_test w
     = (false,
        {| os := o1;
           trace := trace w ++ EvInit a b
                    :: match init_warning r with
                       | Some _ => [EvPrint "MEMORY INIT ERROR: %s"
                                      (init_warning r)]
                       | None => []
                       end |})).
Proof.
  unfold self_test, self_test_setup, bind. split.
  - intros ->. reflexivity.
  - intros a b r o1 Hplan Hinit Hres. rewrite Hplan.
    unfold init, when, print_msg, emit, ret. rewrite Hinit, Hres.
    destruct (init_warning r); cbn; rewrite ?trace_snoc2; reflexivity.
Qed.

Lemma wrong_config_false bHasLp cfgs :
  wrong_config bHasLp cfgs = false ->
  bHasLp = true \/ Forall (fun cfg => bNoPrefetch cfg = false) cfgs.
Proof.
  destruct bHasLp; [auto|]. intros H. right.
  induction cfgs as [|cfg rest IH]; [constructor|].
  cbn in H. destruct (bNoPrefetch cfg) eqn:E; [discriminate|].
  constructor; auto.
Qed.

Lemma self_test_setup_config (w w1 : world) (c : test_ctxs) :
  self_test_setup w = (Some c, w1) ->
  wrong_config ((ctx_info (ctx0 c) !!! 0%nat =? 1)
                && (ctx_info (ctx1 c) !!! 0%nat =? 1))
    (thread_configs conf) = false.
Proof.
  unfold self_test_setup, bind.
  destruct (init_plan (GetSlowMemSetting conf)) as [[[a b] fatal]|];
    [|discriminate].
  destruct (init a b w) as [r wi].
  destruct (when _ _ wi) as [[] wp].
  destruct ((init_res r =? 0) && fatal); [discriminate|].
  destruct (minethd_alloc_ctx wp) as [[c0|] w2]; [|discriminate].
  destruct (minethd_alloc_ctx w2) as [[c1|] w3]; [|discriminate].
  destruct (minethd_alloc_ctx w3) as [[c2|] w4]; [|discriminate].
  destruct (minethd_alloc_ctx w4) as [[c3|] w5]; [|discriminate].
  destruct (minethd_alloc_ctx w5) as [[c4|] w6]; [|discriminate].
  cbv zeta.
  destruct (wrong_config _ _) eqn:E; [discriminate|].
  intros H. inversion H; subst. exact E.
Qed.

(** X9.  [self_test] does not pass when a thread is configured with
    [no_prefetch] unless the first two contexts it obtained are both on
    large pages ([ctx_info[0] == 1]). *)
Theorem self_test_pass_needs_large_pages (w : world) :
  fst (self_test w) = true ->
  (exists cfg, In cfg (thread_configs conf) /\ bNoPrefetch cfg = true) ->
  exists c w1,
    self_test_setup w = (Some c, w1)
    /\ ctx_info (ctx0 c) !!! 0%nat = 1
    /\ ctx_info (ctx1 c) !!! 0%nat = 1.
Proof.
  intros Hpass (cfg & Hin & Hnp).
  apply self_test_result in Hpass. destruct Hpass as (c & w1 & E & _).
  exists c, w1. split; [exact E|].
  apply self_test_setup_config in E.
  apply wrong_config_false in E. destruct E as [E|E].
  - apply andb_true_iff in E. rewrite !Z.eqb_eq in E. exact E.
  - rewrite Forall_forall in E.
    specialize (E cfg (proj2 (list_elem_of_In _ _) Hin)). congruence.
Qed.

(** The world in which [self_test] starts to request contexts (after
    lines 206-235); [None] when it has returned before. *)
Definition after_init (w : world) : option world :=
  match init_plan (GetSlowMemSetting conf) with
  | None => None
  | Some (a, b, fatal) =>
      let '(r, w1) := init a b w in
      let '(_, w2) :=
        when (negb (is_null (init_warning r)))
          (print_msg "MEMORY INIT ERROR: %s" (init_warning r)) w1 in
      if (init_res r =? 0) && fatal then None else Some w2
  end.

(** Up to [n] calls of [minethd_alloc_ctx], stopping at the first
    [NULL]: the contexts obtained, in order. *)
Fixpoint alloc_many (n : nat) : M (list cryptonight_ctx) :=
  match n with
  | O => ret []
  | S n' =>
      let* p := minethd_alloc_ctx in
      match p with
      | None => ret []
      | Some c => let* cs := alloc_many n' in ret (c :: cs)
      end
  end.

Lemma alloc_many_fst (n : nat) (w : world) :
  fst (alloc_many (S n) w)
  = match minethd_alloc_ctx w with
    | (None, _) => []
    | (Some c, w') => c :: fst (alloc_many n w')
    end.
Proof.
  cbn [alloc_many]. unfold bind at 1.
  destruct (minethd_alloc_ctx w) as [[c|] w']; [|reflexivity].
  unfold bind, ret. destruct (alloc_many n w') as [cs w'']. reflexivity.
Qed.

Lemma freed_app (a b : list event) : freed (a ++ b) = freed a ++ freed b.
Proof. unfold freed. apply flat_map_app. Qed.

Lemma minethd_alloc_ctx_freed (w : world) :
  freed (trace (snd (minethd_alloc_ctx w))) = freed (trace w).
Proof.
  unfold minethd_alloc_ctx, bind, alloc_ctx, when, print_msg, emit, ret.
  destruct (GetSlowMemSetting conf).
  - destruct (cryptonight_alloc_ctx 1 1 (os w)) as [r o1].
    destruct (is_null (reply_ctx r)); cbn; rewrite ?freed_app; cbn;
      rewrite ?app_nil_r; reflexivity.
  - destruct (cryptonight_alloc_ctx 1 0 (os w)) as [r o1].
    destruct (is_null (reply_ctx r)); cbn; rewrite ?freed_app; cbn;
      rewrite ?app_nil_r; reflexivity.
  - destruct (cryptonight_alloc_ctx 1 1 (os w)) as [r o1].
    destruct (negb (is_null (reply_warning r))); destruct (reply_ctx r); cbn;
      try (destruct (cryptonight_alloc_ctx 0 0 o1) as [r2 o2]);
      cbn; rewrite ?freed_app; cbn; rewrite ?app_nil_r; reflexivity.
  - destruct (cryptonight_alloc_ctx 0 0 (os w)) as [r o1]. cbn.
    rewrite freed_app. cbn. apply app_nil_r.
  - reflexivity.
Qed.

Lemma minethd_alloc_ctx_freed_eq (w w' : world) p :
  minethd_alloc_ctx w = (p, w') -> freed (trace w') = freed (trace w).
Proof. intros E. rewrite <- (minethd_alloc_ctx_freed w), E. reflexivity. Qed.

Lemma after_init_freed (w w1 : world) :
  after_init w = Some w1 -> freed (trace w1) = freed (trace w).
Proof.
  unfold after_init, init, when, print_msg, emit, ret.
  destruct (init_plan (GetSlowMemSetting conf)) as [[[a b] fatal]|];
    [|discriminate].
  destruct (cryptonight_init a b (os w)) as [r o1].
  destruct (negb (is_null (init_warning r)));
    destruct ((init_res r =? 0) && fatal); try discriminate;
    intros H; inversion H; subst; cbn; rewrite ?freed_app; cbn;
    rewrite ?app_nil_r; reflexivity.
Qed.

Lemma self_test_after_init_none (w : world) :
  after_init w = None ->
  freed (trace (snd (self_test w))) = freed (trace w).
Proof.
  unfold after_init, self_test, self_test_setup, bind.
  destruct (init_plan (GetSlowMemSetting conf)) as [[[a b] fatal]|];
    [|reflexivity].
  unfold init, when, print_msg, emit, ret.
  destruct (cryptonight_init a b (os w)) as [r o1].
  destruct (negb (is_null (init_warning r)));
    destruct ((init_res r =? 0) && fatal); try discriminate;
    intros _; cbn; rewrite ?freed_app; cbn; rewrite ?app_nil_r; reflexivity.
Qed.

Ltac settle_frees :=
  unfold self_test_digests, free_all, free_ctx, bind, when, print_msg, emit, ret;
  repeat match goal with
         | |- context [if ?b then _ else _] => destruct b
         end;
  cbn [fst snd trace os];
  rewrite ?freed_app; cbn [freed flat_map app];
  rewrite ?app_nil_r, <- ?app_assoc; cbn [app].

(** X10.  [self_test] frees every context it obtained, once and in the
    order it obtained them, on every path: when one of the five requests
    fails, when the configuration is rejected, and after the digests
    were compared, whatever the verdict.  It frees nothing else. *)
Theorem self_test_frees_what_it_obtained (w : world) :
  freed (trace (snd (self_test w)))
  = freed (trace w)
    ++ match after_init w with
       | None => []
       | Some w1 => fst (alloc_many 5 w1)
       end.
Proof.
  destruct (after_init w) as [w1|] eqn:A.
  2:{ rewrite app_nil_r. apply self_test_after_init_none. exact A. }
  pose proof (after_init_freed _ _ A) as F1.
  assert (S : self_test w =
    (let* p0 := minethd_alloc_ctx in
     match p0 with
     | None => ret false
     | Some c0 =>
     let* p1 := minethd_alloc_ctx in
     match p1 with
     | None => free_ctx c0 >> ret false
     | Some c1 =>
     let* p2 := minethd_alloc_ctx in
     match p2 with
     | None => free_ctx c0 >> free_ctx c1 >> ret false
     | Some c2 =>
     let* p3 := minethd_alloc_ctx in
     match p3 with
     | None => free_ctx c0 >> free_ctx c1 >> free_ctx c2 >> ret false
     | Some c3 =>
     let* p4 := minethd_alloc_ctx in
     match p4 with
     | None =>
         free_ctx c0 >> free_ctx c1 >> free_ctx c2 >> free_ctx c3 >>
         ret false
     | Some c4 =>
         let c := {| ctx0 := c0; ctx1 := c1; ctx2 := c2;
                     ctx3 := c3; ctx4 := c4 |} in
         if wrong_config ((ctx_info c0 !!! 0%nat =? 1)
                          && (ctx_info c1 !!! 0%nat =? 1))
              (thread_configs conf)
         then
           print_msg
             "Wrong config. You are running in slow memory mode with no_prefetch."
             None >>
           free_all c >> ret false
         else self_test_digests c
     end end end end end) w1).
  { unfold after_init in A. unfold self_test, self_test_setup, bind.
    destruct (init_plan (GetSlowMemSetting conf)) as [[[a b] fatal]|];
      [|discriminate].
    destruct (init a b w) as [r wi].
    destruct (when _ _ wi) as [u wp].
    destruct ((init_res r =? 0) && fatal); [discriminate|].
    inversion A; subst wp.
    destruct (minethd_alloc_ctx w1) as [[c0|] w2]; [|reflexivity].
    destruct (minethd_alloc_ctx w2) as [[c1|] w3]; [|reflexivity].
    destruct (minethd_alloc_ctx w3) as [[c2|] w4]; [|reflexivity].
    destruct (minethd_alloc_ctx w4) as [[c3|] w5]; [|reflexivity].
    destruct (minethd_alloc_ctx w5) as [[c4|] w6]; [|reflexivity].
    cbv zeta. destruct (wrong_config _ _); reflexivity. }
  rewrite S. clear S. rewrite <- F1. unfold bind. cbv beta.
  rewrite alloc_many_fst.
  destruct (minethd_alloc_ctx w1) as [[c0|] w2] eqn:E0; cbv beta iota.
  2:{ cbn. rewrite app_nil_r. eapply minethd_alloc_ctx_freed_eq. exact E0. }
  rewrite <- (minethd_alloc_ctx_freed_eq _ _ _ E0).
  rewrite alloc_many_fst.
  destruct (minethd_alloc_ctx w2) as [[c1|] w3] eqn:E1; cbv beta iota;
    rewrite <- (minethd_alloc_ctx_freed_eq _ _ _ E1).
  2:{ settle_frees. reflexivity. }
  rewrite alloc_many_fst.
  destruct (minethd_alloc_ctx w3) as [[c2|] w4] eqn:E2; cbv beta iota;
    rewrite <- (minethd_alloc_ctx_freed_eq _ _ _ E2).
  2:{ settle_frees. reflexivity. }
  rewrite alloc_many_fst.
  destruct (minethd_alloc_ctx w4) as [[c3|] w5] eqn:E3; cbv beta iota;
    rewrite <- (minethd_alloc_ctx_freed_eq _ _ _ E3).
  2:{ settle_frees. reflexivity. }
  rewrite alloc_many_fst.
  destruct (minethd_alloc_ctx w5) as [[c4|] w6] eqn:E4; cbv beta iota;
    rewrite <- (minethd_alloc_ctx_freed_eq _ _ _ E4).
  2:{ settle_frees. reflexivity. }
  cbv zeta. cbn [alloc_many ret fst]. settle_frees; reflexivity.
Qed.

End Backend.

(** *** A concrete backend

    A machine on which fast memory cannot be mapped: requests with
    [use_fast_mem <> 0] fail with a message, ordinary memory is available. *)

Definition plain_ctx : cryptonight_ctx := {| ctx_info := [0; 0] |}.

Definition no_fast_alloc (use_fast_mem use_mlock : Z) (o : unit)
    : alloc_reply * unit :=
  if use_fast_mem =? 0
  then ({| reply_ctx := Some plain_ctx; reply_warning := None |}, o)
  else ({| reply_ctx := None; reply_warning := Some "mmap failed"%string |}, o).

Definition no_fast_init (use_fast_mem use_mlock : Z) (o : unit)
    : init_reply * unit :=
  ({| init_res := 1; init_warning := None |}, o).

Definition unit_free (c : cryptonight_ctx) (o : unit) : unit := o.

(** Stand-ins for the hash entry points, constant on every input. *)
Definition const_np (input : list Z) (len : Z) (c : cryptonight_ctx) : list Z :=
  replicate 32 7.
Definition const_soft (input : list Z) (len : Z) (c : cryptonight_ctx)
    : list Z := expected_digest.
Definition const_double (input : list Z) (len : Z) (c : list cryptonight_ctx)
    : list Z := replicate 64 7.

Definition conf_with (m : slow_mem_cfg) (aes : bool) : jconf :=
  {| GetSlowMemSetting := m; HaveHardwareAes := aes;
     thread_configs := [{| bDoubleMode := false; bNoPrefetch := false;
                           iCpuAff := -1 |}] |}.

Definition world0 : world unit := {| os := tt; trace := [] |}.

Lemma minethd_alloc_ctx_policy_witness :
  minethd_alloc_ctx unit no_fast_alloc (conf_with print_warning false) world0
  = (Some plain_ctx,
     {| os := tt;
        trace := [EvAllocCtx 1 1;
                  EvPrint "MEMORY ALLOC FAILED: %s" (Some "mmap failed"%string);
                  EvAllocCtx 0 0] |})
  /\
  minethd_alloc_ctx unit no_fast_alloc (conf_with never_use false) world0
  = (None,
     {| os := tt;
        trace := [EvAllocCtx 1 1;
                  EvPrint "MEMORY ALLOC FAILED: %s" (Some "mmap failed"%string)] |})
  /\
  minethd_alloc_ctx unit no_fast_alloc (conf_with no_mlck false) world0
  = (None,
     {| os := tt;
        trace := [EvAllocCtx 1 0;
                  EvPrint "MEMORY ALLOC FAILED: %s" (Some "mmap failed"%string)] |}).
Proof.
  split; [|split].
  - exact (proj1 (minethd_alloc_ctx_policy unit no_fast_alloc
                    (conf_with print_warning false) world0)
             eq_refl _ tt eq_refl eq_refl).
  - exact (proj1 (proj2 (minethd_alloc_ctx_policy unit no_fast_alloc
                           (conf_with never_use false) world0))
             eq_refl _ tt eq_refl eq_refl).
  - exact (proj2 (proj2 (minethd_alloc_ctx_policy unit no_fast_alloc
                           (conf_with no_mlck false) world0))
             eq_refl _ tt eq_refl eq_refl).
Defined.

(** An allocator that fails on fast memory without leaving a message. *)
Definition silent_alloc (use_fast_mem use_mlock : Z) (o : unit)
    : alloc_reply * unit :=
  if use_fast_mem =? 0
  then ({| reply_ctx := Some plain_ctx; reply_warning := None |}, o)
  else ({| reply_ctx := None; reply_warning := None |}, o).

(** C7, counterexample.  Under [print_warning] the locked allocation
    fails and leaves no message: the function falls back to the unlocked
    allocation and prints nothing. *)
Lemma failed_lock_without_message_prints_nothing :
  silent_alloc 1 1 tt = ({| reply_ctx := None; reply_warning := None |}, tt)
  /\
  minethd_alloc_ctx unit silent_alloc (conf_with print_warning false) world0
  = (Some plain_ctx,
     {| os := tt; trace := [EvAllocCtx 1 1; EvAllocCtx 0 0] |}).
Proof. vm_compute. split; reflexivity. Qed.

Definition stack_garbage : list Z := replicate 256 0xcc.

Lemma self_test_verdict_witness :
  fst (self_test unit no_fast_alloc no_fast_init unit_free const_np const_soft
         const_double (conf_with always_use false) stack_garbage stack_garbage
         world0) = true
  /\
  exists c w1,
    self_test_setup unit no_fast_alloc no_fast_init unit_free
      (conf_with always_use false) world0 = (Some c, w1) /\
    const_soft (bytes_of_string "This is a test") 14 (ctx0 c) = expected_digest.
Proof.
  split; [vm_compute; reflexivity|].
  apply (proj1 (self_test_verdict unit no_fast_alloc no_fast_init unit_free
                  const_np const_soft const_double (conf_with always_use false)
                  stack_garbage stack_garbage world0
                  (fun _ _ _ => eq_refl) (fun _ _ _ => eq_refl)
                  (fun _ _ _ => eq_refl) eq_refl)).
  vm_compute. reflexivity.
Defined.

(** *** A machine with large pages that cannot be locked

    Requests for fast memory succeed, on large pages; when locking is
    asked for, the allocator reports that it could not lock them. *)

Definition lp_ctx : cryptonight_ctx := {| ctx_info := [1; 0] |}.

Definition lp_alloc (use_fast_mem use_mlock : Z) (o : unit)
    : alloc_reply * unit :=
  if use_fast_mem =? 0
  then ({| reply_ctx := Some plain_ctx; reply_warning := None |}, o)
  else ({| reply_ctx := Some lp_ctx;
           reply_warning := if use_mlock =? 0 then None
                            else Some "mlock failed"%string |}, o).

Definition failing_init (use_fast_mem use_mlock : Z) (o : unit)
    : init_reply * unit :=
  ({| init_res := 0; init_warning := Some "mmap failed"%string |}, o).

(** One thread, with [no_prefetch]. *)
Definition conf_no_prefetch (m : slow_mem_cfg) : jconf :=
  {| GetSlowMemSetting := m; HaveHardwareAes := false;
     thread_configs := [{| bDoubleMode := false; bNoPrefetch := true;
                           iCpuAff := 0 |}] |}.

(** Under [print_warning] the context is returned and the warning is
    printed under the heading of a failed allocation. *)
Lemma minethd_alloc_ctx_success_witness :
  minethd_alloc_ctx unit lp_alloc (conf_with print_warning false) world0
  = (Some lp_ctx,
     {| os := tt;
        trace := [EvAllocCtx 1 1;
                  EvPrint "MEMORY ALLOC FAILED: %s" (Some "mlock failed"%string)] |})
  /\
  minethd_alloc_ctx unit lp_alloc (conf_with never_use false) world0
  = (Some lp_ctx, {| os := tt; trace := [EvAllocCtx 1 1] |}).
Proof.
  split.
  - exact (proj2 (proj2 (proj2
             (minethd_alloc_ctx_success unit lp_alloc
                (conf_with print_warning false) world0 lp_ctx
                (Some "mlock failed"%string) tt)))
             eq_refl eq_refl).
  - exact (proj1
             (minethd_alloc_ctx_success unit lp_alloc
                (conf_with never_use false) world0 lp_ctx
                (Some "mlock failed"%string) tt)
             eq_refl eq_refl).
Defined.

Lemma self_test_fails_before_allocating_witness :
  self_test unit lp_alloc failing_init unit_free const_np const_soft
    const_double (conf_with no_mlck false) stack_garbage stack_garbage world0
  = (false,
     {| os := tt;
        trace := [EvInit 1 0;
                  EvPrint "MEMORY INIT ERROR: %s" (Some "mmap failed"%string)] |})
  /\
  self_test unit lp_alloc failing_init unit_free const_np const_soft
    const_double (conf_with unknown_value false) stack_garbage stack_garbage
    world0
  = (false, world0).
Proof.
  split.
  - exact (proj2
             (self_test_fails_before_allocating unit lp_alloc failing_init
                unit_free const_np const_soft const_double
                (conf_with no_mlck false) stack_garbage stack_garbage world0)
             1 0 {| init_res := 0; init_warning := Some "mmap failed"%string |}
             tt eq_refl eq_refl eq_refl).
  - exact (proj1
             (self_test_fails_before_allocating unit lp_alloc failing_init
                unit_free const_np const_soft const_double
                (conf_with unknown_value false) stack_garbage stack_garbage
                world0)
             eq_refl).
Defined.

Lemma self_test_pass_needs_large_pages_witness :
  fst (self_test unit lp_alloc no_fast_init unit_free const_np const_soft
         const_double (conf_no_prefetch never_use) stack_garbage stack_garbage
         world0) = true
  /\
  exists c w1,
    self_test_setup unit lp_alloc no_fast_init unit_free
      (conf_no_prefetch never_use) world0 = (Some c, w1)
    /\ ctx_info (ctx0 c) !!! 0%nat = 1
    /\ ctx_info (ctx1 c) !!! 0%nat = 1.
Proof.
  assert (E : fst (self_test unit lp_alloc no_fast_init unit_free const_np
                     const_soft const_double (conf_no_prefetch never_use)
                     stack_garbage stack_garbage world0) = true)
    by (vm_compute; reflexivity).
  split; [exact E|].
  apply (self_test_pass_needs_large_pages unit lp_alloc no_fast_init unit_free
           const_np const_soft const_double (conf_no_prefetch never_use)
           stack_garbage stack_garbage world0 E).
  eexists. split; [left; reflexivity|reflexivity].
Defined.

End Provisioner.

(** ** Job broadcast and the worker threads *)

Module Mining.

(** [minethd::miner_work].  The struct is declared in [minethd.h]; the
    fields are the ones this file reads. *)
Record miner_work : Type := {
  sJobID : list Z;
  bWorkBlob : list Z;
  iWorkSize : Z;
  iResumeCnt : Z;
  iTarget : Z;
  bNiceHash : bool;
  bStall : bool;
  iPoolId : Z
}.

(** The static members of [minethd] (lines 158-161). *)
Record shared : Type := {
  oGlobalWork : miner_work;
  iGlobalJobNo : Z;
  iConsumeCnt : Z;
  iThreadCount : Z
}.

(** The data members of one [minethd] object. *)
Record minethd : Type := {
  oWork : miner_work;
  iJobNo : Z;
  iThreadNo : Z;
  iHashCount : Z;
  iTimestamp : Z;
  bNoPrefetch : bool
}.

(** [job_result]. *)
Record job_result : Type := {
  res_sJobID : list Z;
  res_iNonce : Z;
  res_bResult : list Z
}.

(** What a worker step does besides changing its own and the shared
    state. *)
Inductive effect : Type :=
  | FxStats (hash_count timestamp : Z)
      (* iHashCount.store(..); iTimestamp.store(..) *)
  | FxPush (result : job_result) (pool_id : Z)
      (* executor::inst()->push_event(ex_event(result, pool_id)) *)
  | FxSleep                        (* sleep_for(100 ms) *)
  | FxYield.                       (* std::this_thread::yield() *)

(** What a worker reads, in one step, from memory other threads write
    and from the clock: its own [bQuit] flag and the current time. *)
Record obs : Type := {
  o_bQuit : Z;
  o_now : Z
}.

(** Program points of a worker thread. *)
Inductive pc : Type :=
  | AtEntry      (* start of work_main / double_work_main *)
  | AtOuter      (* condition of the outer while *)
  | AtStall      (* condition of the stall loop *)
  | AtInner      (* condition of the hashing loop *)
  | AtExit       (* after the outer loop *)
  | Faulted.     (* a write through a null pointer *)

(** *** Little-endian words in byte buffers *)

Definition le_bytes (n : nat) (v : Z) : list Z :=
  map (fun k => (v / 2 ^ (8 * Z.of_nat k)) mod 256) (seq 0 n).

Fixpoint le_value (bs : list Z) : Z :=
  match bs with
  | [] => 0
  | b :: rest => b + 256 * le_value rest
  end.

(** [*(uint32_t* )(buf + off) = v] and its read. *)
Definition write32 (buf : list Z) (off : nat) (v : Z) : list Z :=
  store_bytes buf off (le_bytes 4 v).
Definition read32 (buf : list Z) (off : nat) : Z :=
  le_value (take 4 (drop off buf)).
(** [*(uint64_t* )(buf + off)]. *)
Definition read64 (buf : list Z) (off : nat) : Z :=
  le_value (take 8 (drop off buf)).

Lemma le_bytes_length n v : length (le_bytes n v) = n.
Proof. unfold le_bytes. rewrite length_map, length_seq. reflexivity. Qed.

Lemma le_value_le_bytes_4 v : le_value (le_bytes 4 v) = wrap32 v.
Proof.
  unfold le_bytes, wrap32. cbn [seq map le_value].
  change (2 ^ (8 * Z.of_nat 0)) with 1.
  change (2 ^ (8 * Z.of_nat 1)) with 256.
  change (2 ^ (8 * Z.of_nat 2)) with 65536.
  change (2 ^ (8 * Z.of_nat 3)) with 16777216.
  change (2 ^ 32) with 4294967296.
  Z.div_mod_to_equations. lia.
Qed.

Lemma read32_write32_same buf p v :
  (p + 4 <= length buf)%nat -> read32 (write32 buf p v) p = wrap32 v.
Proof.
  intros H. unfold read32, write32, store_bytes.
  rewrite drop_app_length' by (rewrite length_take; lia).
  rewrite take_app_length' by (rewrite le_bytes_length; reflexivity).
  apply le_value_le_bytes_4.
Qed.

Lemma read32_write32_below buf p q v :
  (p + 4 <= q)%nat -> (q <= length buf)%nat ->
  read32 (write32 buf q v) p = read32 buf p.
Proof.
  intros H1 H2. unfold read32, write32.
  rewrite !take_drop_commute.
  rewrite store_bytes_take_below by lia. reflexivity.
Qed.

Lemma write32_length buf p v :
  (p + 4 <= length buf)%nat -> length (write32 buf p v) = length buf.
Proof.
  intros H. unfold write32. apply store_bytes_length.
  rewrite le_bytes_length. exact H.
Qed.

(** *** Hand-off protocol *)

(** One evaluation of the loop condition of [switch_work] (line 370):
    [None] is one more turn of the loop ([sleep_for(100 ms)]), [Some g']
    is the state after lines 373-375. *)
Definition switch_work_poll (pWork : miner_work) (g : shared) : option shared :=
  if iConsumeCnt g <? iThreadCount g then None
  else Some {| oGlobalWork := pWork;
               iGlobalJobNo := wrap64 (iGlobalJobNo g + 1);
               iConsumeCnt := 0;
               iThreadCount := iThreadCount g |}.

(** [switch_work] while no other thread runs: [fuel] turns of the loop. *)
Fixpoint switch_work (fuel : nat) (pWork : miner_work) (g : shared)
    : option shared :=
  match fuel with
  | O => None
  | S fuel' =>
      match switch_work_poll pWork g with
      | Some g' => Some g'
      | None => switch_work fuel' pWork g
      end
  end.

Definition bump_consume (g : shared) : shared :=
  {| oGlobalWork := oGlobalWork g;
     iGlobalJobNo := iGlobalJobNo g;
     iConsumeCnt := wrap64 (iConsumeCnt g + 1);
     iThreadCount := iThreadCount g |}.

(** [minethd::consume_work]. *)
Definition consume_work (g : shared) (t : minethd) : shared * minethd :=
  (bump_consume g,
   {| oWork := oGlobalWork g;
      iJobNo := wrap64 (iJobNo t + 1);
      iThreadNo := iThreadNo t;
      iHashCount := iHashCount t;
      iTimestamp := iTimestamp t;
      bNoPrefetch := bNoPrefetch t |}).

(** The [minethd] constructor (lines 142-156), without the thread it
    starts. *)
Definition minethd_new (pWork : miner_work) (iNo : nat) (no_prefetch : bool)
    : minethd :=
  {| oWork := pWork;
     iJobNo := 0;
     iThreadNo := Z.of_nat iNo mod 256;
     iHashCount := 0;
     iTimestamp := 0;
     bNoPrefetch := no_prefetch |}.

Definition set_stats (t : minethd) (count stamp : Z) : minethd :=
  {| oWork := oWork t;
     iJobNo := iJobNo t;
     iThreadNo := iThreadNo t;
     iHashCount := count;
     iTimestamp := stamp;
     bNoPrefetch := bNoPrefetch t |}.

Definition set_blob (w : miner_work) (blob : list Z) : miner_work :=
  {| sJobID := sJobID w;
     bWorkBlob := blob;
     iWorkSize := iWorkSize w;
     iResumeCnt := iResumeCnt w;
     iTarget := iTarget w;
     bNiceHash := bNiceHash w;
     bStall := bStall w;
     iPoolId := iPoolId w |}.

Definition set_work (t : minethd) (w : miner_work) : minethd :=
  {| oWork := w;
     iJobNo := iJobNo t;
     iThreadNo := iThreadNo t;
     iHashCount := iHashCount t;
     iTimestamp := iTimestamp t;
     bNoPrefetch := bNoPrefetch t |}.

(** *** Worker threads *)

(** [static const int hashes = 2] of [double_work_main]. *)
Definition hashes : nat := 2.

(** Locals of [work_main] with the object it runs on. *)
Record single : Type := {
  s_thd : minethd;
  s_pc : pc;
  s_iCount : Z;
  s_result : job_result
}.

(** Locals of [double_work_main] with the object it runs on.  A nonce
    pointer is an offset into [bDoubleWorkBlob]; [None] is [nullptr]. *)
Record double : Type := {
  d_thd : minethd;
  d_pc : pc;
  d_iCount : Z;
  d_piNonce : list (option nat);
  d_bDoubleWorkBlob : list Z;
  d_bDoubleHashOut : list Z;
  d_iNonce : Z
}.

Section Workers.

(** [jconf::inst()->HaveHardwareAes()] and the hash entry points of
    [crypto/cryptonight.h]: input buffer and length to digest(s). *)
Variable bHaveAes : bool.
Variable cryptonight_hash_ctx : list Z -> Z -> list Z.
Variable cryptonight_hash_ctx_np : list Z -> Z -> list Z.
Variable cryptonight_hash_ctx_soft : list Z -> Z -> list Z.
Variable cryptonight_double_hash_ctx : list Z -> Z -> list Z.

(** The nonce-start helpers, member functions declared in [minethd.h]. *)
Variable calc_start_nonce : shared -> minethd -> Z -> Z.
Variable calc_nicehash_nonce : shared -> minethd -> Z -> Z -> Z.

(** Indeterminate initial contents of the workers' stack variables. *)
Variable stack_result : job_result.
Variable stack_blob : list Z.
Variable stack_out : list Z.
Variable stack_nonce : Z.

Definition single_at (s : single) (t : minethd) (p : pc) : single :=
  {| s_thd := t; s_pc := p; s_iCount := s_iCount s; s_result := s_result s |}.

(** The hash call of lines 436-444. *)
Definition single_hash (t : minethd) (blob : list Z) (size : Z) : list Z :=
  if bHaveAes then
    if bNoPrefetch t then cryptonight_hash_ctx_np blob size
    else cryptonight_hash_ctx blob size
  else cryptonight_hash_ctx_soft blob size.

(** One pass through the body of the hashing loop of [work_main]
    (lines 425-449). *)
Definition work_main_iteration (o : obs) (s : single) : single * list effect :=
  let t := s_thd s in
  let sample := Z.land (s_iCount s) 7 =? 0 in
  let t1 := if sample then set_stats t (s_iCount s) (o_now o) else t in
  let iCount := wrap64 (s_iCount s + 1) in
  let nonce := wrap32 (res_iNonce (s_result s) + 1) in
  let blob := write32 (bWorkBlob (oWork t)) 39 nonce in
  let digest := single_hash t blob (iWorkSize (oWork t)) in
  let result := {| res_sJobID := res_sJobID (s_result s);
                   res_iNonce := nonce;
                   res_bResult := digest |} in
  ({| s_thd := set_work t1 (set_blob (oWork t) blob);
      s_pc := AtInner;
      s_iCount := iCount;
      s_result := result |},
   (if sample then [FxStats (s_iCount s) (o_now o)] else [])
   ++ (if read64 digest 24 <? iTarget (oWork t)
       then [FxPush result (iPoolId (oWork t))] else [])
   ++ [FxYield]).

(** One step of the thread running [work_main]. *)
Definition work_main_step (o : obs) (g : shared) (s : single)
    : shared * single * list effect :=
  let t := s_thd s in
  match s_pc s with
  | AtEntry =>
      (* lines 393-399; iConsumeCnt++ *)
      (bump_consume g, single_at s t AtOuter, [])
  | AtOuter =>
      if negb (o_bQuit o =? 0) then (g, single_at s t AtExit, [])
      else if bStall (oWork t) then (g, single_at s t AtStall, [])
      else
        let start :=
          if bNiceHash (oWork t)
          then calc_nicehash_nonce g t (read32 (bWorkBlob (oWork t)) 39)
                 (iResumeCnt (oWork t))
          else calc_start_nonce g t (iResumeCnt (oWork t)) in
        (g,
         {| s_thd := t; s_pc := AtInner; s_iCount := s_iCount s;
            s_result := {| res_sJobID := sJobID (oWork t);
                           res_iNonce := start;
                           res_bResult := res_bResult (s_result s) |} |},
         [])
  | AtStall =>
      if iGlobalJobNo g =? iJobNo t then (g, s, [FxSleep])
      else
        let '(g', t') := consume_work g t in
        (g', single_at s t' AtOuter, [])
  | AtInner =>
      if iGlobalJobNo g =? iJobNo t then
        let '(s', fx) := work_main_iteration o s in (g, s', fx)
      else
        let '(g', t') := consume_work g t in
        (g', single_at s t' AtOuter, [])
  | AtExit => (g, s, [])
  | Faulted => (g, s, [])
  end.

(** The thread as the constructor starts it. *)
Definition work_main_start (t : minethd) : single :=
  {| s_thd := t; s_pc := AtEntry; s_iCount := 0; s_result := stack_result |}.

(** The loops that copy the job into the lanes: lines 492-495 set every
    lane's nonce pointer ([all_lanes = true]), lines 531-534 only those
    of lanes [i > 0]. *)
Fixpoint sync_lanes (all_lanes : bool) (w : miner_work) (lanes : list nat)
    (blob : list Z) (piNonce : list (option nat))
    : list Z * list (option nat) :=
  match lanes with
  | [] => (blob, piNonce)
  | i :: rest =>
      let size := Z.to_nat (iWorkSize w) in
      let blob' := store_bytes blob (i * size) (take size (bWorkBlob w)) in
      let piNonce' :=
        if all_lanes || (0 <? i)%nat
        then <[ i := Some (i * size + 39)%nat ]> piNonce
        else piNonce in
      sync_lanes all_lanes w rest blob' piNonce'
  end.

(** [for(i...) *piNonce[i] = ++iNonce] (lines 518-519); [None] when a
    pointer is null. *)
Fixpoint write_nonces (lanes : list nat) (piNonce : list (option nat))
    (iNonce : Z) (blob : list Z) : option (list Z * Z) :=
  match lanes with
  | [] => Some (blob, iNonce)
  | i :: rest =>
      match piNonce !!! i with
      | None => None
      | Some p =>
          let n := wrap32 (iNonce + 1) in
          write_nonces rest piNonce n (write32 blob p n)
      end
  end.

(** The nonce line 524 attributes to lane [i]. *)
Definition lane_nonce (iNonce : Z) (i : nat) : Z :=
  wrap32 (iNonce - (Z.of_nat hashes - Z.of_nat i - 1)).

Definition lane_digest (out : list Z) (i : nat) : list Z :=
  take 32 (drop (32 * i) out).

(** Lines 522-525. *)
Definition lane_results (w : miner_work) (iNonce : Z) (out : list Z)
    (lanes : list nat) : list effect :=
  flat_map
    (fun i =>
       if read64 out (32 * i + 24) <? iTarget w
       then [FxPush {| res_sJobID := sJobID w;
                       res_iNonce := lane_nonce iNonce i;
                       res_bResult := lane_digest out i |} (iPoolId w)]
       else [])
    lanes.

Definition double_at (d : double) (t : minethd) (p : pc) : double :=
  {| d_thd := t; d_pc := p; d_iCount := d_iCount d;
     d_piNonce := d_piNonce d; d_bDoubleWorkBlob := d_bDoubleWorkBlob d;
     d_bDoubleHashOut := d_bDoubleHashOut d; d_iNonce := d_iNonce d |}.

(** One pass through the body of the hashing loop of [double_work_main]
    (lines 508-527). *)
Definition double_work_iteration (o : obs) (d : double) : double * list effect :=
  let t := d_thd d in
  let sample := Z.land (d_iCount d) 7 =? 0 in
  let t1 := if sample then set_stats t (d_iCount d) (o_now o) else t in
  let iCount := wrap64 (d_iCount d + Z.of_nat hashes) in
  match write_nonces (seq 0 hashes) (d_piNonce d) (d_iNonce d)
          (d_bDoubleWorkBlob d) with
  | None =>
      ({| d_thd := t1; d_pc := Faulted; d_iCount := iCount;
          d_piNonce := d_piNonce d; d_bDoubleWorkBlob := d_bDoubleWorkBlob d;
          d_bDoubleHashOut := d_bDoubleHashOut d; d_iNonce := d_iNonce d |},
       if sample then [FxStats (d_iCount d) (o_now o)] else [])
  | Some (blob, iNonce) =>
      let out := cryptonight_double_hash_ctx blob (iWorkSize (oWork t)) in
      ({| d_thd := t1; d_pc := AtInner; d_iCount := iCount;
          d_piNonce := d_piNonce d; d_bDoubleWorkBlob := blob;
          d_bDoubleHashOut := out; d_iNonce := iNonce |},
       (if sample then [FxStats (d_iCount d) (o_now o)] else [])
       ++ lane_results (oWork t) iNonce out (seq 0 hashes)
       ++ [FxYield])
  end.

(** [consume_work] followed by one of the two lane-copy loops. *)
Definition double_consume (all_lanes : bool) (g : shared) (d : double)
    : shared * double :=
  let '(g', t') := consume_work g (d_thd d) in
  let '(blob, piNonce) :=
    sync_lanes all_lanes (oWork t') (seq 0 hashes)
      (d_bDoubleWorkBlob d) (d_piNonce d) in
  (g',
   {| d_thd := t'; d_pc := AtOuter; d_iCount := d_iCount d;
      d_piNonce := piNonce; d_bDoubleWorkBlob := blob;
      d_bDoubleHashOut := d_bDoubleHashOut d; d_iNonce := d_iNonce d |}).

(** One step of the thread running [double_work_main]. *)
Definition double_work_step (o : obs) (g : shared) (d : double)
    : shared * double * list effect :=
  let t := d_thd d in
  match d_pc d with
  | AtEntry =>
      (* lines 471-478: every piNonce[i] = nullptr, then piNonce[0];
         iConsumeCnt++ *)
      (bump_consume g,
       {| d_thd := t; d_pc := AtOuter; d_iCount := d_iCount d;
          d_piNonce := <[ 0%nat := Some 39%nat ]> (replicate hashes None);
          d_bDoubleWorkBlob := d_bDoubleWorkBlob d;
          d_bDoubleHashOut := d_bDoubleHashOut d; d_iNonce := d_iNonce d |},
       [])
  | AtOuter =>
      if negb (o_bQuit o =? 0) then (g, double_at d t AtExit, [])
      else if bStall (oWork t) then (g, double_at d t AtStall, [])
      else
        match d_piNonce d !!! 0%nat with
        | None =>
            if bNiceHash (oWork t) then (g, double_at d t Faulted, [])
            else
              (g,
               {| d_thd := t; d_pc := AtInner; d_iCount := d_iCount d;
                  d_piNonce := d_piNonce d;
                  d_bDoubleWorkBlob := d_bDoubleWorkBlob d;
                  d_bDoubleHashOut := d_bDoubleHashOut d;
                  d_iNonce := calc_start_nonce g t (iResumeCnt (oWork t)) |},
               [])
        | Some p0 =>
            let start :=
              if bNiceHash (oWork t)
              then calc_nicehash_nonce g t (read32 (d_bDoubleWorkBlob d) p0)
                     (iResumeCnt (oWork t))
              else calc_start_nonce g t (iResumeCnt (oWork t)) in
            (g,
             {| d_thd := t; d_pc := AtInner; d_iCount := d_iCount d;
                d_piNonce := d_piNonce d;
                d_bDoubleWorkBlob := d_bDoubleWorkBlob d;
                d_bDoubleHashOut := d_bDoubleHashOut d;
                d_iNonce := start |},
             [])
        end
  | AtStall =>
      if iGlobalJobNo g =? iJobNo t then (g, d, [FxSleep])
      else let '(g', d') := double_consume true g d in (g', d', [])
  | AtInner =>
      if iGlobalJobNo g =? iJobNo t then
        let '(d', fx) := double_work_iteration o d in (g, d', fx)
      else let '(g', d') := double_consume false g d in (g', d', [])
  | AtExit => (g, d, [])
  | Faulted => (g, d, [])
  end.

(** The thread as the constructor starts it. *)
Definition double_work_start (t : minethd) : double :=
  {| d_thd := t; d_pc := AtEntry; d_iCount := 0;
     d_piNonce := replicate hashes None;
     d_bDoubleWorkBlob := stack_blob;
     d_bDoubleHashOut := stack_out;
     d_iNonce := stack_nonce |}.

(** *** The pool: one producer and the worker threads *)

Inductive thread : Type :=
  | Single (s : single)
  | Double (d : double).

Definition thread_thd (th : thread) : minethd :=
  match th with Single s => s_thd s | Double d => d_thd d end.

Definition thread_pc (th : thread) : pc :=
  match th with Single s => s_pc s | Double d => d_pc d end.

Definition thread_step (o : obs) (g : shared) (th : thread)
    : shared * thread * list effect :=
  match th with
  | Single s =>
      let '(g', s', fx) := work_main_step o g s in (g', Single s', fx)
  | Double d =>
      let '(g', d', fx) := double_work_step o g d in (g', Double d', fx)
  end.

(** Where the producer, the thread that calls [thread_starter] and then
    [switch_work], stands: at the condition of the loop of lines 338-358
    with loop counter [i], or past the return of line 361. *)
Inductive producer_pc : Type :=
  | Launching (i : nat)
  | Started.

(** [threads] lists the [minethd] objects in the order of their creation.
    While the producer is in the loop of [thread_starter] only the entries
    below the loop counter exist and run; an entry at or above it is the
    object the iteration of that index constructs (line 342). *)
Record pool : Type := {
  statics : shared;
  threads : list thread;
  producer : producer_pc
}.

(** Worker [i] has been created: the constructor call of line 342 has
    started its thread (lines 152-155). *)
Definition launched (p : pool) (i : nat) : bool :=
  match producer p with
  | Launching k => (i <? k)%nat
  | Started => true
  end.

(** [minethd::thread_starter] (lines 326-362) at the head of its loop:
    lines 328-329 have zeroed the job number and the consumed count, no
    thread runs yet, and [iThreadCount] still has the value it had before
    the call (line 360 writes it after the loop).  Iteration [i] creates
    the thread of configuration entry [i], at the entry of its main
    function. *)
Definition thread_starter (pWork : miner_work)
    (cfgs : list Provisioner.thd_cfg) (g : shared) : pool :=
  {| statics :=
       {| oGlobalWork := oGlobalWork g;
          iGlobalJobNo := 0;
          iConsumeCnt := 0;
          iThreadCount := iThreadCount g |};
     threads :=
       imap (fun i cfg =>
               let t := minethd_new pWork i (Provisioner.bNoPrefetch cfg) in
               if Provisioner.bDoubleMode cfg
               then Double (double_work_start t)
               else Single (work_main_start t))
            cfgs;
     producer := Launching 0 |}.

(** Line 360: [iThreadCount = n]. *)
Definition set_thread_count (g : shared) (n : Z) : shared :=
  {| oGlobalWork := oGlobalWork g;
     iGlobalJobNo := iGlobalJobNo g;
     iConsumeCnt := iConsumeCnt g;
     iThreadCount := n |}.

(** One step of the producer inside [thread_starter]: an iteration of the
    loop, which starts the next worker, or, when the loop is over, the
    write of [iThreadCount] and the return. *)
Definition thread_starter_step (p : pool) : option pool :=
  match producer p with
  | Launching i =>
      if (i <? length (threads p))%nat
      then Some {| statics := statics p; threads := threads p;
                   producer := Launching (S i) |}
      else Some {| statics := set_thread_count (statics p)
                                (Z.of_nat (length (threads p)));
                   threads := threads p;
                   producer := Started |}
  | Started => None
  end.

(** Interleaving semantics: the producer takes a step of [thread_starter];
    a worker that has been created takes one step; or the producer, back
    from [thread_starter], evaluates the condition of [switch_work] and
    gets through.  The producer is one thread: it calls [switch_work]
    only after its call of [thread_starter] has returned.  Workers run
    from their creation on, so they interleave with the rest of the loop
    and with the write of [iThreadCount]. *)
Inductive pool_step : pool -> pool -> Prop :=
  | step_starter (p p' : pool) :
      thread_starter_step p = Some p' ->
      pool_step p p'
  | step_worker (p : pool) (i : nat) (th th' : thread) (o : obs)
      (g' : shared) (fx : list effect) :
      launched p i = true ->
      threads p !! i = Some th ->
      thread_step o (statics p) th = (g', th', fx) ->
      pool_step p {| statics := g'; threads := <[ i := th' ]> (threads p);
                     producer := producer p |}
  | step_publish (p : pool) (pWork : miner_work) (g' : shared) :
      producer p = Started ->
      switch_work_poll pWork (statics p) = Some g' ->
      pool_step p {| statics := g'; threads := threads p;
                     producer := Started |}.

Inductive reachable (p0 : pool) : pool -> Prop :=
  | reach_start : reachable p0 p0
  | reach_step (p p' : pool) :
      reachable p0 p -> pool_step p p' -> reachable p0 p'.

(** A worker has the current job: it is past its entry and its job
    number is the global one. *)
Definition has_job (g : shared) (th : thread) : bool :=
  match thread_pc th with
  | AtEntry => false
  | _ => iJobNo (thread_thd th) =? iGlobalJobNo g
  end.

Fixpoint count_has_job (g : shared) (ths : list thread) : Z :=
  match ths with
  | [] => 0
  | th :: rest => (if has_job g th then 1 else 0) + count_has_job g rest
  end.

(** A worker is at most one job behind, and only after its entry. *)
Definition in_step (g : shared) (th : thread) : Prop :=
  iJobNo (thread_thd th) = iGlobalJobNo g
  \/ (thread_pc th <> AtEntry
      /\ wrap64 (iJobNo (thread_thd th) + 1) = iGlobalJobNo g).

(** While the producer is in [thread_starter] no job has been published:
    every worker has the global job number, and the workers that are
    not created yet stand at their entry.  Once it has returned,
    [iThreadCount] is the number of workers. *)
Definition producer_inv (p : pool) : Prop :=
  match producer p with
  | Launching k =>
      Forall (fun th => iJobNo (thread_thd th) = iGlobalJobNo (statics p))
             (threads p)
      /\ (forall i th, threads p !! i = Some th -> (k <= i)%nat ->
            thread_pc th = AtEntry)
  | Started => iThreadCount (statics p) = Z.of_nat (length (threads p))
  end.

Definition handoff_inv (p : pool) : Prop :=
  is_u64 (iGlobalJobNo (statics p))
  /\ Z.of_nat (length (threads p)) < 2 ^ 64
  /\ iConsumeCnt (statics p) = count_has_job (statics p) (threads p)
  /\ Forall (in_step (statics p)) (threads p)
  /\ producer_inv p.

(** The step of a worker at which it calls [consume_work]. *)
Definition consumes (g : shared) (th : thread) : Prop :=
  (thread_pc th = AtStall \/ thread_pc th = AtInner)
  /\ iGlobalJobNo g <> iJobNo (thread_thd th).

(** *** Runs of one worker

    A schedule lists, for each step the worker takes, what it observes:
    its quit flag and the clock, and the shared state as the other
    threads have left it. *)

Definition view : Type := (obs * shared)%type.

(** The worker is about to run the body of its hashing loop. *)
Definition hashing (g : shared) (s : single) : bool :=
  match s_pc s with
  | AtInner => iGlobalJobNo g =? iJobNo (s_thd s)
  | _ => false
  end.

Definition work_main_next (v : view) (s : single) : single :=
  snd (fst (work_main_step (fst v) (snd v) s)).

Fixpoint work_main_run (sched : list view) (s : single) : single :=
  match sched with
  | [] => s
  | v :: rest => work_main_run rest (work_main_next v s)
  end.

(** Number of passes through the hashing loop's body during a run. *)
Fixpoint iterations (sched : list view) (s : single) : nat :=
  match sched with
  | [] => 0%nat
  | v :: rest =>
      ((if hashing (snd v) s then 1 else 0)
       + iterations rest (work_main_next v s))%nat
  end.

Definition stats_of (fx : list effect) : list (Z * Z) :=
  flat_map (fun e => match e with FxStats c t => [(c, t)] | _ => [] end) fx.

Definition double_hashing (g : shared) (d : double) : bool :=
  match d_pc d with
  | AtInner => iGlobalJobNo g =? iJobNo (d_thd d)
  | _ => false
  end.

Definition double_work_next (v : view) (d : double) : double :=
  snd (fst (double_work_step (fst v) (snd v) d)).

Fixpoint double_work_run (sched : list view) (d : double) : double :=
  match sched with
  | [] => d
  | v :: rest => double_work_run rest (double_work_next v d)
  end.

Fixpoint double_iterations (sched : list view) (d : double) : nat :=
  match sched with
  | [] => 0%nat
  | v :: rest =>
      ((if double_hashing (snd v) d then 1 else 0)
       + double_iterations rest (double_work_next v d))%nat
  end.

(** Every lane's nonce pointer is set. *)
Definition nonce_pointers_set (d : double) : Prop :=
  Forall (fun i => d_piNonce d !!! i <> None) (seq 0 hashes).

(** *** Lane buffers of the dual-hash worker *)

(** The lanes as a batch needs them: every nonce pointer points 39 bytes
    into its lane, and every lane holds the job blob outside its 4-byte
    nonce word. *)
Definition outside_nonce (lane : list Z) : list Z :=
  take 39 lane ++ drop 43 lane.

Definition lane_bytes (d : double) (i : nat) : list Z :=
  let size := Z.to_nat (iWorkSize (oWork (d_thd d))) in
  take size (drop (i * size) (d_bDoubleWorkBlob d)).

Definition lane_ok (d : double) (i : nat) : bool :=
  let size := Z.to_nat (iWorkSize (oWork (d_thd d))) in
  bool_decide (d_piNonce d !!! i = Some (i * size + 39)%nat)
  && bool_decide (outside_nonce (lane_bytes d i)
                  = outside_nonce (take size (bWorkBlob (oWork (d_thd d))))).

Definition lanes_ok (d : double) : bool :=
  forallb (lane_ok d) (seq 0 hashes).

(** *** Running the pool *)

(** One move of the pool: worker [i] takes a step observing [o], the
    producer evaluates the condition of [switch_work] once, or the
    producer takes a step of [thread_starter].  A move that is not
    possible leaves the pool as it is. *)
Inductive action : Type :=
  | Step (i : nat) (o : obs)
  | Publish (pWork : miner_work)
  | Start.

Definition perform (p : pool) (a : action) : pool :=
  match a with
  | Step i o =>
      match threads p !! i with
      | Some th =>
          if launched p i then
            let '(g', th', _) := thread_step o (statics p) th in
            {| statics := g'; threads := <[ i := th' ]> (threads p);
               producer := producer p |}
          else p
      | None => p
      end
  | Publish pWork =>
      match producer p with
      | Started =>
          match switch_work_poll pWork (statics p) with
          | Some g' => {| statics := g'; threads := threads p;
                          producer := Started |}
          | None => p
          end
      | Launching _ => p
      end
  | Start =>
      match thread_starter_step p with
      | Some p' => p'
      | None => p
      end
  end.

Definition perform_all (acts : list action) (p : pool) : pool :=
  fold_left perform acts p.

(** *** What one worker step does to the shared state *)

Lemma consume_work_spec (g : shared) (t : minethd) :
  consume_work g t
  = (bump_consume g,
     {| oWork := oGlobalWork g; iJobNo := wrap64 (iJobNo t + 1);
        iThreadNo := iThreadNo t; iHashCount := iHashCount t;
        iTimestamp := iTimestamp t; bNoPrefetch := bNoPrefetch t |}).
Proof. reflexivity. Qed.

Lemma work_main_iteration_thd o s :
  iJobNo (s_thd (fst (work_main_iteration o s))) = iJobNo (s_thd s)
  /\ s_pc (fst (work_main_iteration o s)) = AtInner.
Proof.
  unfold work_main_iteration. cbn.
  destruct (Z.land (s_iCount s) 7 =? 0); auto.
Qed.

Lemma double_work_iteration_thd o d :
  iJobNo (d_thd (fst (double_work_iteration o d))) = iJobNo (d_thd d)
  /\ d_pc (fst (double_work_iteration o d)) <> AtEntry.
Proof.
  unfold double_work_iteration.
  destruct (write_nonces _ _ _ _) as [[blob n]|]; cbn;
    destruct (Z.land (d_iCount d) 7 =? 0); split; cbn; congruence.
Qed.

Lemma double_consume_spec all_lanes g d :
  fst (double_consume all_lanes g d) = bump_consume g
  /\ iJobNo (d_thd (snd (double_consume all_lanes g d)))
     = wrap64 (iJobNo (d_thd d) + 1)
  /\ oWork (d_thd (snd (double_consume all_lanes g d))) = oGlobalWork g
  /\ d_pc (snd (double_consume all_lanes g d)) = AtOuter.
Proof.
  unfold double_consume, consume_work.
  match goal with
  | |- context [sync_lanes ?a ?b ?c ?d ?e] =>
      destruct (sync_lanes a b c d e) as [blob piNonce]
  end.
  cbn. auto.
Qed.

(** Every step of a worker is of one of three kinds: its entry
    ([iConsumeCnt++]), a call of [consume_work], or a step that leaves
    the shared state alone. *)
Ltac own_step Hpc :=
  right; right; unfold consumes; cbn; rewrite ?Hpc;
  repeat split; try congruence;
  try (intros [[?|?] ?]; congruence).

Lemma thread_step_kinds o g th g' th' fx :
  thread_step o g th = (g', th', fx) ->
  (thread_pc th = AtEntry /\ g' = bump_consume g
   /\ iJobNo (thread_thd th') = iJobNo (thread_thd th)
   /\ thread_pc th' = AtOuter)
  \/ (consumes g th /\ g' = bump_consume g
      /\ iJobNo (thread_thd th') = wrap64 (iJobNo (thread_thd th) + 1)
      /\ oWork (thread_thd th') = oGlobalWork g
      /\ thread_pc th' = AtOuter)
  \/ (thread_pc th <> AtEntry /\ g' = g
      /\ iJobNo (thread_thd th') = iJobNo (thread_thd th)
      /\ thread_pc th' <> AtEntry
      /\ ~ consumes g th).
Proof.
  intros E. destruct th as [s|d]; cbn in E.
  - unfold work_main_step in E.
    destruct (s_pc s) eqn:Hpc.
    + inversion E; subst. left. cbn. auto.
    + destruct (negb (o_bQuit o =? 0)); [|destruct (bStall (oWork (s_thd s)))];
        inversion E; subst; own_step Hpc.
    + destruct (iGlobalJobNo g =? iJobNo (s_thd s)) eqn:Hj.
      * apply Z.eqb_eq in Hj. inversion E; subst. own_step Hpc.
      * apply Z.eqb_neq in Hj. inversion E; subst. right. left.
        unfold consumes. cbn. rewrite Hpc. repeat split; auto.
    + destruct (iGlobalJobNo g =? iJobNo (s_thd s)) eqn:Hj.
      * apply Z.eqb_eq in Hj.
        pose proof (work_main_iteration_thd o s) as [H1 H2].
        destruct (work_main_iteration o s) as [s1 fx1]. cbn in H1, H2.
        inversion E; subst. own_step Hpc.
      * apply Z.eqb_neq in Hj. inversion E; subst. right. left.
        unfold consumes. cbn. rewrite Hpc. repeat split; auto.
    + inversion E; subst. own_step Hpc.
    + inversion E; subst. own_step Hpc.
  - unfold double_work_step in E.
    destruct (d_pc d) eqn:Hpc.
    + inversion E; subst. left. cbn. auto.
    + destruct (negb (o_bQuit o =? 0)); [|destruct (bStall (oWork (d_thd d)))];
        [| |destruct (d_piNonce d !!! 0%nat);
            [|destruct (bNiceHash (oWork (d_thd d)))]];
        inversion E; subst; own_step Hpc.
    + destruct (iGlobalJobNo g =? iJobNo (d_thd d)) eqn:Hj.
      * apply Z.eqb_eq in Hj. inversion E; subst. own_step Hpc.
      * apply Z.eqb_neq in Hj.
        pose proof (double_consume_spec true g d) as (H1 & H2 & H3 & H4).
        destruct (double_consume true g d) as [g1 d1]. cbn in H1, H2, H3, H4.
        inversion E; subst. right. left.
        unfold consumes. cbn. rewrite Hpc. repeat split; auto.
    + destruct (iGlobalJobNo g =? iJobNo (d_thd d)) eqn:Hj.
      * apply Z.eqb_eq in Hj.
        pose proof (double_work_iteration_thd o d) as [H1 H2].
        destruct (double_work_iteration o d) as [d1 fx1]. cbn in H1, H2.
        inversion E; subst. own_step Hpc.
      * apply Z.eqb_neq in Hj.
        pose proof (double_consume_spec false g d) as (H1 & H2 & H3 & H4).
        destruct (double_consume false g d) as [g1 d1]. cbn in H1, H2, H3, H4.
        inversion E; subst. right. left.
        unfold consumes. cbn. rewrite Hpc. repeat split; auto.
    + inversion E; subst. own_step Hpc.
    + inversion E; subst. own_step Hpc.
Qed.

(** *** Counting the workers that have the current job *)

Lemma has_job_true g th :
  has_job g th = true <->
  thread_pc th <> AtEntry /\ iJobNo (thread_thd th) = iGlobalJobNo g.
Proof.
  unfold has_job. destruct (thread_pc th); rewrite ?Z.eqb_eq;
    split; try intros [H1 H2]; try split; congruence.
Qed.

Lemma has_job_false g th :
  has_job g th = false <->
  thread_pc th = AtEntry \/ iJobNo (thread_thd th) <> iGlobalJobNo g.
Proof.
  unfold has_job. destruct (thread_pc th); rewrite ?Z.eqb_neq;
    split; try intros [H|H]; auto; congruence.
Qed.

Lemma count_has_job_bounds g ths :
  0 <= count_has_job g ths <= Z.of_nat (length ths).
Proof.
  induction ths as [|th ths IH]; cbn [count_has_job length]; [lia|].
  destruct (has_job g th); lia.
Qed.

Lemma count_has_job_ext g1 g2 ths :
  iGlobalJobNo g1 = iGlobalJobNo g2 ->
  count_has_job g1 ths = count_has_job g2 ths.
Proof.
  intros E. induction ths as [|th ths IH]; cbn [count_has_job]; [reflexivity|].
  rewrite IH. unfold has_job. rewrite E. reflexivity.
Qed.

Lemma count_has_job_insert g ths i th th' :
  ths !! i = Some th ->
  count_has_job g (<[ i := th' ]> ths)
  = count_has_job g ths - (if has_job g th then 1 else 0)
    + (if has_job g th' then 1 else 0).
Proof.
  revert i. induction ths as [|x ths IH]; intros i Hi; [discriminate|].
  destruct i as [|i].
  - change (<[ 0%nat := th' ]> (x :: ths)) with (th' :: ths).
    inversion Hi; subst. cbn [count_has_job]. lia.
  - change (<[ S i := th' ]> (x :: ths)) with (x :: <[ i := th' ]> ths).
    change ((x :: ths) !! S i) with (ths !! i) in Hi.
    cbn [count_has_job]. rewrite (IH i Hi). lia.
Qed.

Lemma count_has_job_full g ths :
  count_has_job g ths = Z.of_nat (length ths) ->
  Forall (fun th => has_job g th = true) ths.
Proof.
  induction ths as [|th ths IH]; cbn [count_has_job length]; intros H;
    constructor.
  - pose proof (count_has_job_bounds g ths).
    destruct (has_job g th); [reflexivity|lia].
  - apply IH. pose proof (count_has_job_bounds g ths).
    destruct (has_job g th); lia.
Qed.

Lemma count_has_job_none g ths :
  Forall (fun th => has_job g th = false) ths -> count_has_job g ths = 0.
Proof.
  induction 1 as [|th ths H _ IH]; cbn [count_has_job]; [reflexivity|].
  rewrite H, IH. reflexivity.
Qed.

Lemma in_step_ext g1 g2 th :
  iGlobalJobNo g1 = iGlobalJobNo g2 -> in_step g1 th -> in_step g2 th.
Proof. unfold in_step. intros <-. auto. Qed.

Lemma wrap64_succ_neq z : is_u64 z -> wrap64 (z + 1) <> z.
Proof.
  unfold is_u64, wrap64. intros H E.
  destruct (Z.eq_dec z (2 ^ 64 - 1)) as [->|Hne].
  - vm_compute in E. discriminate.
  - rewrite Z.mod_small in E by lia. lia.
Qed.

(** *** The invariant of the hand-off *)

Lemma thread_starter_threads pWork cfgs g i th :
  threads (thread_starter pWork cfgs g) !! i = Some th ->
  thread_pc th = AtEntry /\ iJobNo (thread_thd th) = 0.
Proof.
  unfold thread_starter. cbn [threads]. rewrite list_lookup_imap.
  destruct (cfgs !! i) as [cfg|]; [|discriminate].
  cbn. intros H. inversion H.
  destruct (Provisioner.bDoubleMode cfg); cbn; auto.
Qed.

Lemma handoff_inv_start pWork cfgs g :
  Z.of_nat (length cfgs) < 2 ^ 64 ->
  handoff_inv (thread_starter pWork cfgs g).
Proof.
  intros Hn.
  assert (A : Forall (fun th => thread_pc th = AtEntry
                               /\ iJobNo (thread_thd th) = 0)
                (threads (thread_starter pWork cfgs g))).
  { apply Forall_lookup_2. intros i th Hi.
    eapply thread_starter_threads. exact Hi. }
  unfold handoff_inv, producer_inv.
  change (producer (thread_starter pWork cfgs g)) with (Launching 0).
  change (iGlobalJobNo (statics (thread_starter pWork cfgs g))) with 0.
  change (iConsumeCnt (statics (thread_starter pWork cfgs g))) with 0.
  split; [unfold is_u64; lia|]. split.
  { unfold thread_starter. cbn [threads]. rewrite length_imap. exact Hn. }
  split.
  { symmetry. apply count_has_job_none.
    eapply Forall_impl; [exact A|]. intros th [H _].
    apply has_job_false. auto. }
  split.
  { eapply Forall_impl; [exact A|]. intros th [_ H]. left. exact H. }
  split.
  - eapply Forall_impl; [exact A|]. intros th [_ H]. exact H.
  - intros i th Hi _. eapply thread_starter_threads. exact Hi.
Qed.

Lemma thread_starter_step_inv p p' :
  thread_starter_step p = Some p' ->
  exists i, producer p = Launching i
    /\ threads p' = threads p
    /\ ((i < length (threads p))%nat
        /\ statics p' = statics p /\ producer p' = Launching (S i)
        \/ (length (threads p) <= i)%nat
           /\ statics p' = set_thread_count (statics p)
                             (Z.of_nat (length (threads p)))
           /\ producer p' = Started).
Proof.
  unfold thread_starter_step. destruct (producer p) as [i|]; [|discriminate].
  intros E0. exists i. split; [reflexivity|]. revert E0.
  destruct (i <? length (threads p))%nat eqn:E; intros [= <-];
    cbn [threads statics producer]; (split; [reflexivity|]).
  - left. apply Nat.ltb_lt in E. auto.
  - right. apply Nat.ltb_ge in E. auto.
Qed.

Lemma handoff_inv_step p p' :
  handoff_inv p -> pool_step p p' -> handoff_inv p'.
Proof.
  intros (Hg & Hn & Hcnt & Hall & Hprod) Hstep.
  destruct Hstep as [p p' E | p i th th' o g' fx Hl Hi E | p pWork g' Hp E].
  - (* a step of thread_starter *)
    destruct (thread_starter_step_inv _ _ E)
      as (i & Hi & Ht & [(Hlt & Hs & Hp') | (Hge & Hs & Hp')]);
      unfold handoff_inv, producer_inv in *; rewrite Ht, Hs, Hp';
      rewrite Hi in Hprod.
    + destruct Hprod as [Hj He].
      split; [assumption|]. split; [assumption|]. split; [assumption|].
      split; [assumption|]. split; [assumption|].
      intros j th Hj' Hle. apply (He j th Hj'). lia.
    + cbn [set_thread_count iGlobalJobNo iConsumeCnt iThreadCount].
      split; [assumption|]. split; [assumption|]. split.
      { rewrite Hcnt. apply count_has_job_ext. reflexivity. }
      split; [|reflexivity].
      eapply Forall_impl; [exact Hall|]. intros th. apply in_step_ext.
      reflexivity.
  - (* a worker step *)
    unfold handoff_inv. cbn [statics threads producer].
    pose proof (proj1 (Forall_lookup _ _) Hall i th Hi) as Hth.
    pose proof (count_has_job_insert (statics p) _ i th th' Hi) as Hc.
    pose proof (count_has_job_bounds (statics p) (<[ i := th' ]> (threads p)))
      as Hb.
    rewrite length_insert in Hb |- *.
    destruct (thread_step_kinds _ _ _ _ _ _ E)
      as [(Hpc & -> & Hj & Hpc') | [(Hco & -> & Hj & _ & Hpc') | (Hpc & -> & Hj & Hpc' & _)]].
    + (* entry *)
      assert (Hold : has_job (statics p) th = false).
      { apply has_job_false. auto. }
      assert (Hnew : has_job (statics p) th' = true).
      { apply has_job_true. split; [congruence|].
        rewrite Hj. destruct Hth as [H|[H _]]; [exact H|contradiction]. }
      rewrite Hold, Hnew in Hc.
      cbn [bump_consume iGlobalJobNo iThreadCount iConsumeCnt].
      split; [assumption|]. split; [assumption|]. split.
      { rewrite (count_has_job_ext _ (statics p)) by reflexivity.
        rewrite wrap64_small; [lia|]. unfold is_u64. lia. }
      split.
      { apply Forall_insert; [assumption|].
        left. apply has_job_true in Hnew. tauto. }
      unfold producer_inv in *. cbn [statics threads producer].
      unfold launched in Hl.
      destruct (producer p) as [k|].
      * destruct Hprod as [Hjs He]. apply Nat.ltb_lt in Hl. split.
        -- apply Forall_insert; [exact Hjs|].
           cbn [bump_consume iGlobalJobNo].
           apply has_job_true in Hnew. tauto.
        -- intros j thj Hj' Hle.
           rewrite list_lookup_insert_ne in Hj' by lia.
           exact (He j thj Hj' Hle).
      * cbn [bump_consume iThreadCount]. rewrite length_insert. exact Hprod.
    + (* consume_work *)
      destruct Hco as [Hpc Hne].
      assert (Hold : has_job (statics p) th = false).
      { apply has_job_false. right. congruence. }
      assert (Hpc0 : thread_pc th <> AtEntry).
      { destruct Hpc as [H|H]; rewrite H; discriminate. }
      assert (Hnew : has_job (statics p) th' = true).
      { apply has_job_true. split; [congruence|].
        rewrite Hj. destruct Hth as [H|[_ H]]; [congruence|exact H]. }
      rewrite Hold, Hnew in Hc.
      cbn [bump_consume iGlobalJobNo iThreadCount iConsumeCnt].
      split; [assumption|]. split; [assumption|]. split.
      { rewrite (count_has_job_ext _ (statics p)) by reflexivity.
        rewrite wrap64_small; [lia|]. unfold is_u64. lia. }
      split.
      { apply Forall_insert; [assumption|].
        left. apply has_job_true in Hnew. tauto. }
      unfold producer_inv in *. cbn [statics threads producer].
      destruct (producer p) as [k|].
      * exfalso. destruct Hprod as [Hjs _].
        pose proof (proj1 (Forall_lookup _ _) Hjs i th Hi) as Hsame.
        cbn beta in Hsame. congruence.
      * cbn [bump_consume iThreadCount]. rewrite length_insert. exact Hprod.
    + (* a step on the worker's own state *)
      assert (Hsame : has_job (statics p) th' = has_job (statics p) th).
      { unfold has_job. rewrite Hj.
        destruct (thread_pc th), (thread_pc th'); congruence. }
      rewrite Hsame in Hc.
      split; [assumption|]. split; [assumption|]. split; [lia|]. split.
      { apply Forall_insert; [assumption|].
        unfold in_step in *. rewrite Hj. tauto. }
      unfold producer_inv in *. cbn [statics threads producer].
      unfold launched in Hl.
      destruct (producer p) as [k|].
      * destruct Hprod as [Hjs He]. apply Nat.ltb_lt in Hl. split.
        -- apply Forall_insert; [exact Hjs|]. rewrite Hj.
           exact (proj1 (Forall_lookup _ _) Hjs i th Hi).
        -- intros j thj Hj' Hle.
           rewrite list_lookup_insert_ne in Hj' by lia.
           exact (He j thj Hj' Hle).
      * rewrite length_insert. exact Hprod.
  - (* a publication *)
    unfold handoff_inv, producer_inv in *. cbn [statics threads producer].
    rewrite Hp in Hprod.
    unfold switch_work_poll in E.
    destruct (iConsumeCnt (statics p) <? iThreadCount (statics p)) eqn:Hlt;
      [discriminate|].
    apply Z.ltb_ge in Hlt. inversion E; subst g'. clear E.
    cbn [iGlobalJobNo iThreadCount iConsumeCnt].
    pose proof (count_has_job_bounds (statics p) (threads p)) as Hb.
    assert (Hfull : Forall (fun th => has_job (statics p) th = true) (threads p)).
    { apply count_has_job_full. lia. }
    split; [apply wrap64_range|]. split; [assumption|].
    split.
    + symmetry. apply count_has_job_none.
      eapply Forall_impl; [exact Hfull|]. intros th H.
      apply has_job_true in H. apply has_job_false. right.
      cbn [iGlobalJobNo]. destruct H as [_ ->].
      intros C. symmetry in C. revert C. apply wrap64_succ_neq. assumption.
    + split; [|exact Hprod].
      eapply Forall_impl; [exact Hfull|]. intros th H.
      apply has_job_true in H. right. cbn [iGlobalJobNo].
      destruct H as [H1 ->]. auto.
Qed.

Lemma handoff_inv_reachable p0 p :
  handoff_inv p0 -> reachable p0 p -> handoff_inv p.
Proof.
  intros H0 R. induction R as [|p p' _ IH Hs]; [assumption|].
  eapply handoff_inv_step; eauto.
Qed.

(** [switch_work] does not get past its loop while the count is short. *)
Lemma switch_work_blocked fuel pWork g :
  iConsumeCnt g < iThreadCount g -> switch_work fuel pWork g = None.
Proof.
  intros H. induction fuel as [|fuel IH]; [reflexivity|].
  cbn [switch_work]. unfold switch_work_poll.
  apply Z.ltb_lt in H. rewrite H. exact IH.
Qed.

(** [switch_work] gets through at its first poll once the count has
    reached the worker count. *)
Lemma switch_work_through fuel pWork g :
  iThreadCount g <= iConsumeCnt g ->
  switch_work_poll pWork g
  = Some {| oGlobalWork := pWork;
            iGlobalJobNo := wrap64 (iGlobalJobNo g + 1);
            iConsumeCnt := 0;
            iThreadCount := iThreadCount g |}
  /\ switch_work (S fuel) pWork g
     = Some {| oGlobalWork := pWork;
               iGlobalJobNo := wrap64 (iGlobalJobNo g + 1);
               iConsumeCnt := 0;
               iThreadCount := iThreadCount g |}.
Proof.
  intros H. cbn [switch_work]. unfold switch_work_poll.
  apply Z.ltb_ge in H. rewrite H. auto.
Qed.

Lemma reachable_length p0 p :
  reachable p0 p -> length (threads p) = length (threads p0).
Proof.
  induction 1 as [|p p' _ IH Hs]; [reflexivity|].
  rewrite <- IH.
  destruct Hs as [p p' E | p i th th' o g' fx Hl Hi E | p pWork g' Hp E];
    cbn [threads].
  - destruct (thread_starter_step_inv _ _ E) as (_ & _ & Ht & _). rewrite Ht.
    reflexivity.
  - apply length_insert.
  - reflexivity.
Qed.

Lemma thread_starter_length pWork cfgs g :
  length (threads (thread_starter pWork cfgs g)) = length cfgs.
Proof. unfold thread_starter. cbn [threads]. apply length_imap. Qed.

(** C1 (as amended).  In every state the pool reaches from
    [thread_starter]:
    - [switch_work] stays in its polling loop while the consumed count is
      below the worker count; as soon as the count has reached the worker
      count its poll gets through, and it installs the new work, resets
      the count to zero and increments the global job number; once
      [thread_starter] has returned the count never exceeds the worker
      count, so when the poll gets through the two are equal;
    - [consume_work] copies the global work into the worker's [oWork],
      increments the worker's job number, which then equals the global
      one, and increments the consumed count;
    - besides these two, a worker step changes the shared state only at
      the entry of its main function, where it increments the consumed
      count once; every other worker step leaves the shared state as it
      is;
    - a step of the pool changes the shared state in one of these ways
      only, or is the write of the worker count at the end of
      [thread_starter]. *)
Theorem handoff_protocol (pWork0 : miner_work)
    (cfgs : list Provisioner.thd_cfg) (g0 : shared) (p : pool) :
  Z.of_nat (length cfgs) < 2 ^ 64 ->
  reachable (thread_starter pWork0 cfgs g0) p ->
  let g := statics p in
  (forall pWork,
     (iConsumeCnt g < iThreadCount g ->
      forall fuel, switch_work fuel pWork g = None)
     /\
     (iThreadCount g <= iConsumeCnt g ->
      (forall fuel,
         switch_work (S fuel) pWork g
         = Some {| oGlobalWork := pWork;
                   iGlobalJobNo := wrap64 (iGlobalJobNo g + 1);
                   iConsumeCnt := 0;
                   iThreadCount := iThreadCount g |})
      /\ (producer p = Started ->
          pool_step p
            {| statics := {| oGlobalWork := pWork;
                             iGlobalJobNo := wrap64 (iGlobalJobNo g + 1);
                             iConsumeCnt := 0;
                             iThreadCount := iThreadCount g |};
               threads := threads p;
               producer := Started |}))
     /\
     (forall g', switch_work_poll pWork g = Some g' ->
        (producer p = Started -> iConsumeCnt g = iThreadCount g)
        /\ g' = {| oGlobalWork := pWork;
                   iGlobalJobNo := wrap64 (iGlobalJobNo g + 1);
                   iConsumeCnt := 0;
                   iThreadCount := iThreadCount g |}))
  /\
  (forall i th o g' th' fx,
     threads p !! i = Some th ->
     thread_step o g th = (g', th', fx) ->
     (consumes g th ->
        oWork (thread_thd th') = oGlobalWork g
        /\ iJobNo (thread_thd th') = wrap64 (iJobNo (thread_thd th) + 1)
        /\ iJobNo (thread_thd th') = iGlobalJobNo g'
        /\ g' = {| oGlobalWork := oGlobalWork g;
                   iGlobalJobNo := iGlobalJobNo g;
                   iConsumeCnt := iConsumeCnt g + 1;
                   iThreadCount := iThreadCount g |})
     /\
     (g' = g
      \/ (consumes g th /\ g' = bump_consume g)
      \/ (thread_pc th = AtEntry /\ g' = bump_consume g)))
  /\
  (forall p', pool_step p p' ->
     statics p' = g
     \/ statics p' = bump_consume g
     \/ (producer p = Started
         /\ iConsumeCnt g = iThreadCount g
         /\ exists pWork,
              statics p' = {| oGlobalWork := pWork;
                              iGlobalJobNo := wrap64 (iGlobalJobNo g + 1);
                              iConsumeCnt := 0;
                              iThreadCount := iThreadCount g |})
     \/ (producer p <> Started
         /\ producer p' = Started
         /\ statics p' = set_thread_count g (Z.of_nat (length cfgs)))).
Proof.
  intros Hn R g.
  assert (I : handoff_inv p).
  { eapply handoff_inv_reachable; [|exact R].
    apply handoff_inv_start. exact Hn. }
  assert (Hfull : producer p = Started -> iConsumeCnt g <= iThreadCount g).
  { intros Hp. destruct I as (_ & _ & Hcnt & _ & Hprod).
    unfold producer_inv in Hprod. rewrite Hp in Hprod.
    pose proof (count_has_job_bounds g (threads p)).
    unfold g in *. lia. }
  split; [|split].
  - intros pWork. split; [|split].
    + intros H fuel. apply switch_work_blocked. exact H.
    + intros H. split.
      * intros fuel. apply switch_work_through. exact H.
      * intros Hp. apply (step_publish p pWork); [exact Hp|].
        apply (switch_work_through 0). exact H.
    + intros g' E. unfold switch_work_poll in E.
      destruct (iConsumeCnt g <? iThreadCount g) eqn:Hlt; [discriminate|].
      apply Z.ltb_ge in Hlt. inversion E. split; [|reflexivity].
      intros Hp. specialize (Hfull Hp). lia.
  - intros i th o g' th' fx Hi E.
    destruct I as (_ & HN & HC & Hall & _).
    pose proof (proj1 (Forall_lookup _ _) Hall i th Hi) as Hth.
    pose proof (thread_step_kinds _ _ _ _ _ _ E) as K.
    split.
    + intros Hco.
      destruct K as [(Hpc & _) | [(_ & -> & Hj & Hw & Hpc') | (_ & _ & _ & _ & Hno)]].
      * destruct Hco as [[H|H] _]; congruence.
      * destruct Hco as [_ Hne].
        assert (Hg : wrap64 (iJobNo (thread_thd th) + 1) = iGlobalJobNo g).
        { destruct Hth as [H|[_ H]]; [|exact H].
          exfalso. apply Hne. symmetry. exact H. }
        split; [exact Hw|]. split; [exact Hj|].
        split; [rewrite Hj; exact Hg|].
        unfold bump_consume. f_equal.
        pose proof (count_has_job_bounds g (<[ i := th' ]> (threads p))) as Hb.
        rewrite length_insert in Hb.
        rewrite (count_has_job_insert g _ i th th' Hi) in Hb.
        assert (Hold : has_job g th = false).
        { apply has_job_false. right. intros C. apply Hne. symmetry. exact C. }
        assert (Hnew : has_job g th' = true).
        { apply has_job_true. split; [congruence|]. rewrite Hj. exact Hg. }
        rewrite Hold, Hnew in Hb. fold g in HC. rewrite <- HC in Hb.
        apply wrap64_small. unfold is_u64. lia.
      * contradiction.
    + destruct K as [(Hpc & -> & _) | [(Hco & -> & _) | (_ & -> & _)]]; auto.
  - intros p' Hs.
    destruct Hs as [p p' E | p i th th' o g' fx Hl Hi E | p pWork g' Hp E];
      cbn [statics].
    + destruct (thread_starter_step_inv _ _ E)
        as (i & Hi & _ & [(_ & Hs & _) | (_ & Hs & Hp')]).
      * left. exact Hs.
      * right. right. right. split; [congruence|]. split; [exact Hp'|].
        rewrite Hs. f_equal. f_equal.
        rewrite (reachable_length _ _ R). apply thread_starter_length.
    + destruct (thread_step_kinds _ _ _ _ _ _ E)
        as [(_ & -> & _) | [(_ & -> & _) | (_ & -> & _)]]; auto.
    + right. right. left. split; [exact Hp|].
      unfold switch_work_poll in E.
      destruct (iConsumeCnt (statics p) <? iThreadCount (statics p)) eqn:Hlt;
        [discriminate|].
      apply Z.ltb_ge in Hlt. inversion E.
      split; [specialize (Hfull Hp); unfold g in *; lia|].
      exists pWork. reflexivity.
Qed.

(** *** Telemetry samples of the single-hash worker *)

Lemma land_7 x : Z.land x 7 = x mod 8.
Proof. change 7 with (Z.ones 3). rewrite Z.land_ones by lia. reflexivity. Qed.

Lemma wrap64_mod_8 k : wrap64 k mod 8 = k mod 8.
Proof.
  unfold wrap64. apply Z.mod_mod_divide.
  exists (2 ^ 61). reflexivity.
Qed.

Lemma work_main_next_iCount v s :
  s_iCount (work_main_next v s)
  = if hashing (snd v) s then wrap64 (s_iCount s + 1) else s_iCount s.
Proof.
  unfold work_main_next, work_main_step, hashing.
  destruct (s_pc s); cbn; try reflexivity.
  - destruct (negb (o_bQuit (fst v) =? 0)); [reflexivity|].
    destruct (bStall (oWork (s_thd s))); reflexivity.
  - destruct (iGlobalJobNo (snd v) =? iJobNo (s_thd s)); reflexivity.
  - destruct (iGlobalJobNo (snd v) =? iJobNo (s_thd s)); reflexivity.
Qed.

Lemma work_main_run_iCount sched s :
  is_u64 (s_iCount s) ->
  s_iCount (work_main_run sched s)
  = wrap64 (s_iCount s + Z.of_nat (iterations sched s)).
Proof.
  revert s. induction sched as [|v rest IH]; intros s Hs.
  - cbn. rewrite Z.add_0_r. symmetry. apply wrap64_small. exact Hs.
  - cbn [work_main_run iterations]. rewrite IH.
    + rewrite work_main_next_iCount.
      destruct (hashing (snd v) s).
      * unfold wrap64. rewrite Zplus_mod_idemp_l. f_equal. lia.
      * f_equal.
    + rewrite work_main_next_iCount.
      destruct (hashing (snd v) s); [apply wrap64_range|exact Hs].
Qed.

(** C9.  In the single-hash worker, the pass through the hashing loop
    that follows [k] earlier passes (counted from thread start) stores
    the hash counter and the time stamp exactly when [k] is a multiple of
    8; on every other pass the two atomics keep their values. *)
Theorem stats_every_eighth_iteration (t : minethd) (sched : list view)
    (o : obs) (g : shared) :
  let s0 := work_main_start t in
  let s := work_main_run sched s0 in
  let k := Z.of_nat (iterations sched s0) in
  hashing g s = true ->
  stats_of (snd (work_main_step o g s))
  = (if k mod 8 =? 0 then [(wrap64 k, o_now o)] else [])
  /\
  (let s' := snd (fst (work_main_step o g s)) in
   (iHashCount (s_thd s'), iTimestamp (s_thd s'))
   = if k mod 8 =? 0 then (wrap64 k, o_now o)
     else (iHashCount (s_thd s), iTimestamp (s_thd s))).
Proof.
  intros s0 s k H.
  assert (Hc : s_iCount s = wrap64 k).
  { unfold s, k. rewrite work_main_run_iCount.
    - reflexivity.
    - cbn. unfold is_u64. lia. }
  unfold hashing in H. unfold work_main_step.
  destruct (s_pc s); try discriminate. rewrite H.
  unfold work_main_iteration. cbn [fst snd].
  rewrite land_7, Hc, wrap64_mod_8.
  destruct (k mod 8 =? 0); cbn [s_thd set_work set_stats iHashCount iTimestamp].
  - split; [|reflexivity].
    destruct (read64 _ 24 <? _); reflexivity.
  - split; [|reflexivity].
    destruct (read64 _ 24 <? _); reflexivity.
Qed.

(** *** Cancellation *)

Lemma work_main_iteration_now o1 o2 s :
  o_now o1 = o_now o2 -> work_main_iteration o1 s = work_main_iteration o2 s.
Proof. intros H. unfold work_main_iteration. rewrite H. reflexivity. Qed.

Lemma double_work_iteration_now o1 o2 d :
  o_now o1 = o_now o2 ->
  double_work_iteration o1 d = double_work_iteration o2 d.
Proof. intros H. unfold double_work_iteration. rewrite H. reflexivity. Qed.

Lemma write_nonces_some lanes piNonce iNonce blob :
  Forall (fun i => piNonce !!! i <> None) lanes ->
  exists blob' iNonce',
    write_nonces lanes piNonce iNonce blob = Some (blob', iNonce').
Proof.
  intros H. revert iNonce blob.
  induction H as [|i lanes Hi _ IH]; intros iNonce blob; cbn [write_nonces].
  - eauto.
  - destruct (piNonce !!! i) as [q|]; [|contradiction]. apply IH.
Qed.

(** With the job unchanged, a step from the hashing loop's condition is a
    pass through its body and comes back to the condition. *)
Lemma work_main_next_unchanged_job v s :
  s_pc s = AtInner ->
  iGlobalJobNo (snd v) = iJobNo (s_thd s) ->
  hashing (snd v) s = true
  /\ s_pc (work_main_next v s) = AtInner
  /\ iJobNo (s_thd (work_main_next v s)) = iJobNo (s_thd s).
Proof.
  intros Hpc Hj. unfold hashing, work_main_next, work_main_step.
  rewrite Hpc. apply Z.eqb_eq in Hj. rewrite Hj.
  pose proof (work_main_iteration_thd (fst v) s) as [H1 H2].
  destruct (work_main_iteration (fst v) s) as [s1 fx]. cbn in *. auto.
Qed.

Lemma double_work_next_unchanged_job v d :
  d_pc d = AtInner ->
  nonce_pointers_set d ->
  iGlobalJobNo (snd v) = iJobNo (d_thd d) ->
  double_hashing (snd v) d = true
  /\ d_pc (double_work_next v d) = AtInner
  /\ iJobNo (d_thd (double_work_next v d)) = iJobNo (d_thd d)
  /\ nonce_pointers_set (double_work_next v d).
Proof.
  intros Hpc Hp Hj. unfold double_hashing, double_work_next, double_work_step.
  rewrite Hpc. apply Z.eqb_eq in Hj. rewrite Hj.
  unfold double_work_iteration.
  destruct (write_nonces_some (seq 0 hashes) (d_piNonce d) (d_iNonce d)
              (d_bDoubleWorkBlob d) Hp) as (blob & n & ->).
  cbn. repeat split; try reflexivity.
  - destruct (Z.land (d_iCount d) 7 =? 0); reflexivity.
  - exact Hp.
Qed.

(** C8.  The quit flag is read at the condition of the outer loop and
    nowhere else: away from that program point a step does not depend on
    it, at that point a raised flag ends the thread.  While the global job
    number stays equal to the worker's, every step from the hashing loop
    is one more pass through its body, whatever the quit flag reads: the
    loop does not end.  (For the dual-hash worker, with its nonce
    pointers set.) *)
Theorem quit_checked_only_at_outer_loop :
  (forall o1 o2 g s,
     o_now o1 = o_now o2 -> s_pc s <> AtOuter ->
     work_main_step o1 g s = work_main_step o2 g s)
  /\
  (forall o1 o2 g d,
     o_now o1 = o_now o2 -> d_pc d <> AtOuter ->
     double_work_step o1 g d = double_work_step o2 g d)
  /\
  (forall o g s,
     s_pc s = AtOuter -> o_bQuit o <> 0 ->
     s_pc (work_main_next (o, g) s) = AtExit)
  /\
  (forall o g d,
     d_pc d = AtOuter -> o_bQuit o <> 0 ->
     d_pc (double_work_next (o, g) d) = AtExit)
  /\
  (forall sched s,
     s_pc s = AtInner ->
     Forall (fun v : view => iGlobalJobNo (snd v) = iJobNo (s_thd s)) sched ->
     s_pc (work_main_run sched s) = AtInner
     /\ iterations sched s = length sched)
  /\
  (forall sched d,
     d_pc d = AtInner ->
     nonce_pointers_set d ->
     Forall (fun v : view => iGlobalJobNo (snd v) = iJobNo (d_thd d)) sched ->
     d_pc (double_work_run sched d) = AtInner
     /\ double_iterations sched d = length sched).
Proof.
  split; [|split; [|split; [|split; [|split]]]].
  - intros o1 o2 g s Hn Hpc. unfold work_main_step.
    destruct (s_pc s); try reflexivity; [contradiction|].
    rewrite (work_main_iteration_now o1 o2 s Hn). reflexivity.
  - intros o1 o2 g d Hn Hpc. unfold double_work_step.
    destruct (d_pc d); try reflexivity; [contradiction|].
    rewrite (double_work_iteration_now o1 o2 d Hn). reflexivity.
  - intros o g s Hpc Hq. unfold work_main_next, work_main_step. cbn [fst snd].
    rewrite Hpc. apply Z.eqb_neq in Hq. rewrite Hq. reflexivity.
  - intros o g d Hpc Hq. unfold double_work_next, double_work_step.
    cbn [fst snd]. rewrite Hpc. apply Z.eqb_neq in Hq. rewrite Hq. reflexivity.
  - intros sched. induction sched as [|v rest IH]; intros s Hpc Hall.
    + cbn. auto.
    + pose proof (Forall_inv Hall) as Hv. pose proof (Forall_inv_tail Hall) as Ht.
      destruct (work_main_next_unchanged_job v s Hpc Hv) as (Hh & Hpc' & Hj').
      cbn [work_main_run iterations length]. rewrite Hh.
      destruct (IH (work_main_next v s) Hpc') as [H1 H2].
      * rewrite Hj'. exact Ht.
      * rewrite H1, H2. auto.
  - intros sched. induction sched as [|v rest IH]; intros d Hpc Hp Hall.
    + cbn. auto.
    + pose proof (Forall_inv Hall) as Hv. pose proof (Forall_inv_tail Hall) as Ht.
      destruct (double_work_next_unchanged_job v d Hpc Hp Hv)
        as (Hh & Hpc' & Hj' & Hp').
      cbn [double_work_run double_iterations length]. rewrite Hh.
      destruct (IH (double_work_next v d) Hpc' Hp') as [H1 H2].
      * rewrite Hj'. exact Ht.
      * rewrite H1, H2. auto.
Qed.

(** *** Results of one batch *)

Lemma in_lane_results w iNonce out lanes r pool :
  In (FxPush r pool) (lane_results w iNonce out lanes) <->
  exists i, In i lanes
    /\ r = {| res_sJobID := sJobID w;
              res_iNonce := lane_nonce iNonce i;
              res_bResult := lane_digest out i |}
    /\ pool = iPoolId w
    /\ read64 out (32 * i + 24) < iTarget w.
Proof.
  unfold lane_results. rewrite in_flat_map. split.
  - intros (i & Hi & H).
    exists i. split; [exact Hi|].
    destruct (read64 out (32 * i + 24) <? iTarget w) eqn:Hlt; [|destruct H].
    apply Z.ltb_lt in Hlt. destruct H as [H|[]]. inversion H. auto.
  - intros (i & Hi & -> & -> & Hlt).
    exists i. split; [exact Hi|].
    apply Z.ltb_lt in Hlt. rewrite Hlt. left. reflexivity.
Qed.

(** C5.  One batch of the dual-hash worker, with the lanes laid out as
    the lane-copy loops leave them (lane [i] at offset [i * iWorkSize],
    its nonce 39 bytes in).  Let [v] be the cursor after the nonce writes
    and [L = hashes].  Lane [i] is attributed [v - (L - i - 1)] (on 32
    bits); this is the [i+1]-th nonce after the cursor's previous value,
    and it is the nonce word found in lane [i] of the buffer that was
    hashed.  The batch emits a result for lane [i] exactly when the last
    8 bytes of that lane's digest, read as a number, are below the
    target; the result carries the lane's attributed nonce, the lane's
    digest and the job's identifier, and the batch emits no other
    result. *)
Theorem dual_lane_attribution (o : obs) (d : double) :
  let size := Z.to_nat (iWorkSize (oWork (d_thd d))) in
  d_piNonce d = [Some 39%nat; Some (size + 39)%nat] ->
  (4 <= size)%nat ->
  (size + 43 <= length (d_bDoubleWorkBlob d))%nat ->
  let d' := fst (double_work_iteration o d) in
  let v := d_iNonce d' in
  let out := d_bDoubleHashOut d' in
  d_pc d' = AtInner
  /\ out = cryptonight_double_hash_ctx (d_bDoubleWorkBlob d')
             (iWorkSize (oWork (d_thd d)))
  /\ (forall i, (i < hashes)%nat ->
        wrap32 (v - (Z.of_nat hashes - Z.of_nat i - 1))
        = wrap32 (d_iNonce d + Z.of_nat i + 1)
        /\ read32 (d_bDoubleWorkBlob d') (i * size + 39)
           = wrap32 (v - (Z.of_nat hashes - Z.of_nat i - 1)))
  /\ (forall r pool,
        In (FxPush r pool) (snd (double_work_iteration o d)) <->
        exists i, (i < hashes)%nat
          /\ read64 out (32 * i + 24) < iTarget (oWork (d_thd d))
          /\ r = {| res_sJobID := sJobID (oWork (d_thd d));
                    res_iNonce :=
                      wrap32 (v - (Z.of_nat hashes - Z.of_nat i - 1));
                    res_bResult := lane_digest out i |}
          /\ pool = iPoolId (oWork (d_thd d))).
Proof.
  intros size Hp H4 Hlen. unfold double_work_iteration.
  rewrite Hp. cbn [hashes seq write_nonces].
  change ([Some 39%nat; Some (size + 39)%nat] !!! 0%nat) with (Some 39%nat).
  change ([Some 39%nat; Some (size + 39)%nat] !!! 1%nat)
    with (Some (size + 39)%nat).
  cbv iota beta. cbn [fst snd d_pc d_iNonce d_bDoubleHashOut d_bDoubleWorkBlob].
  set (n1 := wrap32 (d_iNonce d + 1)).
  set (n2 := wrap32 (n1 + 1)).
  set (b1 := write32 (d_bDoubleWorkBlob d) 39 n1).
  assert (L1 : length b1 = length (d_bDoubleWorkBlob d)).
  { unfold b1. apply write32_length. lia. }
  assert (A0 : wrap32 (n2 - (2 - 0 - 1)) = n1).
  { unfold n2, n1, wrap32.
    rewrite Zminus_mod_idemp_l.
    replace (((d_iNonce d + 1) mod 2 ^ 32) + 1 - (2 - 0 - 1))
      with ((d_iNonce d + 1) mod 2 ^ 32) by lia.
    apply Z.mod_mod. lia. }
  assert (A1 : wrap32 (n2 - (2 - 1 - 1)) = n2).
  { replace (n2 - (2 - 1 - 1)) with n2 by lia.
    unfold n2, wrap32. apply Z.mod_mod. lia. }
  split; [reflexivity|]. split; [reflexivity|]. split.
  - intros i Hi. destruct i as [|[|i]]; [| |unfold hashes in Hi; lia].
    + change (Z.of_nat hashes) with 2. change (Z.of_nat 0) with 0.
      rewrite A0. split.
      * unfold n1. f_equal; lia.
      * change (0 * size + 39)%nat with 39%nat.
        rewrite read32_write32_below by lia.
        unfold b1. rewrite read32_write32_same by lia.
        unfold n1, wrap32. apply Z.mod_mod. lia.
    + change (Z.of_nat hashes) with 2. change (Z.of_nat 1) with 1.
      rewrite A1. split.
      * unfold n2, n1, wrap32. rewrite Zplus_mod_idemp_l. f_equal; lia.
      * replace (1 * size + 39)%nat with (size + 39)%nat by lia.
        rewrite read32_write32_same by lia.
        unfold n2, wrap32. apply Z.mod_mod. lia.
  - intros r pool. split.
    + intros Hin.
      apply in_app_or in Hin. destruct Hin as [Hin|Hin].
      { destruct (Z.land (d_iCount d) 7 =? 0); [|destruct Hin].
        destruct Hin as [Hin|[]]. discriminate. }
      apply in_app_or in Hin. destruct Hin as [Hin|Hin].
      2:{ destruct Hin as [Hin|[]]. discriminate. }
      apply in_lane_results in Hin.
      destruct Hin as (i & Hi & -> & -> & Hlt).
      exists i. split; [cbn in Hi; unfold hashes; lia|].
      split; [exact Hlt|]. split; reflexivity.
    + intros (i & Hi & Hlt & -> & ->).
      apply in_or_app. right. apply in_or_app. left.
      apply in_lane_results. exists i.
      split; [|split; [reflexivity|split; [reflexivity|exact Hlt]]].
      unfold hashes in Hi. destruct i as [|[|i]]; cbn; auto. lia.
Qed.

(** *** Lane buffers after [consume_work] *)

(** Both paths that call [consume_work] leave the lanes in that state. *)
Lemma double_consume_syncs_lanes all_lanes g d q :
  let size := Z.to_nat (iWorkSize (oGlobalWork g)) in
  d_piNonce d = [Some 39%nat; q] ->
  (size <= length (bWorkBlob (oGlobalWork g)))%nat ->
  (2 * size <= length (d_bDoubleWorkBlob d))%nat ->
  let d' := snd (double_consume all_lanes g d) in
  d_piNonce d' = [Some 39%nat; Some (size + 39)%nat]
  /\ lane_bytes d' 0 = take size (bWorkBlob (oGlobalWork g))
  /\ lane_bytes d' 1 = take size (bWorkBlob (oGlobalWork g))
  /\ lanes_ok d' = true.
Proof.
  intros size Hp Hw Hb.
  unfold double_consume, consume_work.
  cbn [hashes seq sync_lanes oWork]. fold size. rewrite Hp.
  set (W := take size (bWorkBlob (oGlobalWork g))).
  assert (LW : length W = size) by (unfold W; rewrite length_take; lia).
  set (b0 := store_bytes (d_bDoubleWorkBlob d) (0 * size) W).
  assert (L0 : length b0 = length (d_bDoubleWorkBlob d)).
  { unfold b0. apply store_bytes_length. lia. }
  assert (P : (if all_lanes || (0 <? 1)%nat
               then <[ 1%nat := Some (1 * size + 39)%nat ]>
                      (if all_lanes || (0 <? 0)%nat
                       then <[ 0%nat := Some (0 * size + 39)%nat ]>
                              [Some 39%nat; q]
                       else [Some 39%nat; q])
               else (if all_lanes || (0 <? 0)%nat
                     then <[ 0%nat := Some (0 * size + 39)%nat ]>
                            [Some 39%nat; q]
                     else [Some 39%nat; q]))
              = [Some 39%nat; Some (size + 39)%nat]).
  { destruct all_lanes; cbn; repeat f_equal; lia. }
  rewrite P. cbn [snd d_piNonce].
  assert (B0 : take size (drop (0 * size) (store_bytes b0 (1 * size) W)) = W).
  { cbn [Nat.mul]. rewrite Nat.add_0_r, drop_0.
    rewrite store_bytes_take_below by lia.
    unfold b0. cbn [Nat.mul]. rewrite <- LW at 1.
    apply store_bytes_take_front. }
  assert (B1 : take size (drop (1 * size) (store_bytes b0 (1 * size) W)) = W).
  { cbn [Nat.mul]. rewrite Nat.add_0_r. unfold store_bytes.
    rewrite drop_app_length' by (rewrite length_take; lia).
    rewrite take_app_length' by lia. reflexivity. }
  unfold lanes_ok, lane_ok, lane_bytes.
  cbn [hashes seq forallb d_thd oWork d_piNonce d_bDoubleWorkBlob].
  fold size. fold W. rewrite B0, B1.
  repeat split.
  rewrite !andb_true_iff, !bool_decide_eq_true.
  repeat split; cbn; repeat f_equal; lia.
Qed.

(** *** Runs of the pool are reachable *)

Lemma perform_reachable p0 p a :
  reachable p0 p -> reachable p0 (perform p a).
Proof.
  intros R. destruct a as [i o|pWork|]; cbn [perform].
  - destruct (threads p !! i) as [th|] eqn:Hi; [|exact R].
    destruct (launched p i) eqn:Hl; [|exact R].
    destruct (thread_step o (statics p) th) as [[g' th'] fx] eqn:E.
    eapply reach_step; [exact R|]. eapply step_worker; eauto.
  - destruct (producer p) as [k|] eqn:Hp; [exact R|].
    destruct (switch_work_poll pWork (statics p)) as [g'|] eqn:E; [|exact R].
    eapply reach_step; [exact R|]. eapply step_publish; eauto.
  - destruct (thread_starter_step p) as [p'|] eqn:E; [|exact R].
    eapply reach_step; [exact R|]. apply step_starter. exact E.
Qed.

Lemma perform_all_reachable acts p0 p :
  reachable p0 p -> reachable p0 (perform_all acts p).
Proof.
  revert p. induction acts as [|a acts IH]; intros p R; [exact R|].
  cbn [perform_all fold_left]. apply IH. apply perform_reachable. exact R.
Qed.

(** *** Further properties of the hand-off *)

Lemma handoff_inv_from_start pWork0 cfgs g0 p :
  Z.of_nat (length cfgs) < 2 ^ 64 ->
  reachable (thread_starter pWork0 cfgs g0) p ->
  handoff_inv p.
Proof.
  intros Hn R. eapply handoff_inv_reachable; [|exact R].
  apply handoff_inv_start. exact Hn.
Qed.

Lemma poll_through_all_have_job p pWork g' :
  handoff_inv p ->
  producer p = Started ->
  switch_work_poll pWork (statics p) = Some g' ->
  Forall (fun th => has_job (statics p) th = true) (threads p).
Proof.
  intros (_ & _ & Hcnt & _ & Hprod) Hp E.
  unfold producer_inv in Hprod. rewrite Hp in Hprod.
  unfold switch_work_poll in E.
  destruct (iConsumeCnt (statics p) <? iThreadCount (statics p)) eqn:Hlt;
    [discriminate|].
  apply Z.ltb_ge in Hlt.
  pose proof (count_has_job_bounds (statics p) (threads p)).
  apply count_has_job_full. lia.
Qed.

(** X11.  In every state the pool reaches from [thread_starter], once
    [thread_starter] has returned: when [switch_work] gets past its loop
    every worker is past its entry and has the job number of the global
    job: the global work is never overwritten while a worker still has to
    copy it. *)
Theorem publish_only_after_all_consumed (pWork0 : miner_work)
    (cfgs : list Provisioner.thd_cfg) (g0 : shared) (p : pool)
    (pWork : miner_work) (g' : shared) :
  Z.of_nat (length cfgs) < 2 ^ 64 ->
  reachable (thread_starter pWork0 cfgs g0) p ->
  producer p = Started ->
  switch_work_poll pWork (statics p) = Some g' ->
  Forall (fun th => thread_pc th <> AtEntry
                    /\ iJobNo (thread_thd th) = iGlobalJobNo (statics p))
         (threads p).
Proof.
  intros Hn R Hp E.
  pose proof (handoff_inv_from_start _ _ _ _ Hn R) as I.
  eapply Forall_impl; [eapply poll_through_all_have_job; eauto|].
  intros th H. apply has_job_true. exact H.
Qed.




Lemma thread_step_stopped o g th :
  thread_pc th = AtExit \/ thread_pc th = Faulted ->
  thread_step o g th = (g, th, []).
Proof.
  intros H. destruct th as [s|d]; cbn in H |- *.
  - unfold work_main_step. destruct H as [-> | ->]; reflexivity.
  - unfold double_work_step. destruct H as [-> | ->]; reflexivity.
Qed.

Lemma thread_step_job_number o g th g' th' fx :
  thread_step o g th = (g', th', fx) -> iGlobalJobNo g' = iGlobalJobNo g.
Proof.
  intros E.
  destruct (thread_step_kinds _ _ _ _ _ _ E)
    as [(_ & -> & _) | [(_ & -> & _) | (_ & -> & _)]]; reflexivity.
Qed.

(** A worker that has stopped one job behind stays so, and keeps the
    producer in its loop. *)
Lemma stopped_behind_stable p p' i th :
  handoff_inv p ->
  threads p !! i = Some th ->
  thread_pc th = AtExit \/ thread_pc th = Faulted ->
  iJobNo (thread_thd th) <> iGlobalJobNo (statics p) ->
  reachable p p' ->
  handoff_inv p'
  /\ producer p' = Started
  /\ threads p' !! i = Some th
  /\ iGlobalJobNo (statics p') = iGlobalJobNo (statics p).
Proof.
  intros I Hi Hpc Hne R.
  assert (Hp0 : producer p = Started).
  { destruct I as (_ & _ & _ & _ & Hprod). unfold producer_inv in Hprod.
    destruct (producer p) as [k|]; [|reflexivity].
    exfalso. destruct Hprod as [Hjs _].
    exact (Hne (proj1 (Forall_lookup _ _) Hjs i th Hi)). }
  induction R as [|q q' _ IH Hs]; [auto|].
  destruct IH as (Iq & Hpq & Hiq & Hgq).
  split; [eapply handoff_inv_step; eauto|].
  destruct Hs as [q q' E | q j th1 th1' o g' fx Hl Hj E | q pWork g' Hp E];
    cbn [statics threads producer].
  - exfalso. destruct (thread_starter_step_inv _ _ E) as (k & Hk & _).
    congruence.
  - split; [exact Hpq|]. split.
    + destruct (Nat.eq_dec j i) as [->|Hji].
      * rewrite Hiq in Hj. inversion Hj; subst th1.
        rewrite (thread_step_stopped o (statics q) th Hpc) in E.
        inversion E; subst. apply list_lookup_insert_eq.
        apply lookup_lt_is_Some. eauto.
      * rewrite list_lookup_insert_ne by exact Hji. exact Hiq.
    + rewrite (thread_step_job_number _ _ _ _ _ _ E). exact Hgq.
  - exfalso.
    pose proof (poll_through_all_have_job _ _ _ Iq Hp E) as Hall.
    pose proof (proj1 (Forall_lookup _ _) Hall i th Hiq) as Hth.
    apply has_job_true in Hth. destruct Hth as [_ Hth].
    apply Hne. rewrite Hth. exact Hgq.
Qed.

(** X13.  Once a worker has left its outer loop (or has faulted) with a
    job number that is not the global one, the global job number never
    changes again and [switch_work] never gets past its loop: the
    consumed count stays below the worker count in every later state. *)
Theorem stopped_worker_blocks_publisher (pWork0 : miner_work)
    (cfgs : list Provisioner.thd_cfg) (g0 : shared) (p p' : pool)
    (i : nat) (th : thread) :
  Z.of_nat (length cfgs) < 2 ^ 64 ->
  reachable (thread_starter pWork0 cfgs g0) p ->
  threads p !! i = Some th ->
  thread_pc th = AtExit \/ thread_pc th = Faulted ->
  iJobNo (thread_thd th) <> iGlobalJobNo (statics p) ->
  reachable p p' ->
  iGlobalJobNo (statics p') = iGlobalJobNo (statics p)
  /\ iConsumeCnt (statics p') < iThreadCount (statics p')
  /\ forall pWork fuel, switch_work fuel pWork (statics p') = None.
Proof.
  intros Hn R Hi Hpc Hne R'.
  pose proof (handoff_inv_from_start _ _ _ _ Hn R) as I.
  destruct (stopped_behind_stable _ _ _ _ I Hi Hpc Hne R')
    as (I' & Hp' & Hi' & Hg').
  assert (Hlt : iConsumeCnt (statics p') < iThreadCount (statics p')).
  { destruct (Z.lt_ge_cases (iConsumeCnt (statics p'))
                (iThreadCount (statics p'))) as [H|H]; [exact H|].
    exfalso.
    assert (E : switch_work_poll pWork0 (statics p') <> None).
    { unfold switch_work_poll. apply Z.ltb_ge in H. rewrite H. discriminate. }
    destruct (switch_work_poll pWork0 (statics p')) as [g'|] eqn:Ep;
      [|contradiction].
    pose proof (poll_through_all_have_job _ _ _ I' Hp' Ep) as Hall.
    pose proof (proj1 (Forall_lookup _ _) Hall i th Hi') as Hth.
    apply has_job_true in Hth. destruct Hth as [_ Hth].
    apply Hne. rewrite Hth. exact Hg'. }
  split; [exact Hg'|]. split; [exact Hlt|].
  intros pWork fuel. apply switch_work_blocked. exact Hlt.
Qed.

(** *** Further properties of the worker loops *)

(** What a run emits, step after step. *)
Fixpoint work_main_effects (sched : list view) (s : single) : list effect :=
  match sched with
  | [] => []
  | v :: rest =>
      snd (work_main_step (fst v) (snd v) s)
      ++ work_main_effects rest (work_main_next v s)
  end.

Fixpoint double_work_effects (sched : list view) (d : double) : list effect :=
  match sched with
  | [] => []
  | v :: rest =>
      snd (double_work_step (fst v) (snd v) d)
      ++ double_work_effects rest (double_work_next v d)
  end.

Lemma store_bytes_drop_after buf off bs a :
  (off + length bs <= a)%nat -> (off <= length buf)%nat ->
  drop a (store_bytes buf off bs) = drop a buf.
Proof.
  intros Ha Ho. unfold store_bytes. rewrite app_assoc.
  rewrite drop_app_ge by (rewrite length_app, length_take; lia).
  rewrite length_app, length_take, drop_drop. f_equal. lia.
Qed.

Lemma store_bytes_slice_before buf off bs a n :
  (a + n <= off)%nat -> (off <= length buf)%nat ->
  take n (drop a (store_bytes buf off bs)) = take n (drop a buf).
Proof.
  intros Ha Ho. rewrite !take_drop_commute.
  rewrite store_bytes_take_below by lia. reflexivity.
Qed.

Lemma wrap32_idem z : wrap32 (wrap32 z) = wrap32 z.
Proof. unfold wrap32. apply Z.mod_mod. lia. Qed.

Lemma wrap32_add_neq a k : 0 < k < 2 ^ 32 -> wrap32 (a + k) <> wrap32 a.
Proof.
  unfold wrap32. intros Hk E.
  assert (D : (2 ^ 32 | k)).
  { apply Z.mod_divide; [lia|].
    replace k with (a + k - a) by lia.
    rewrite Zminus_mod, E, Z.sub_diag. reflexivity. }
  destruct D as [q Hq].
  assert (Hq1 : q <= 0 \/ 1 <= q) by lia.
  destruct Hq1; nia.
Qed.

(** X14.  One pass of the single-hash worker through its hashing loop,
    on a blob that holds the nonce field (43 bytes at least): the nonce
    is the previous one plus one on 32 bits; it is written at offset 39
    and the rest of the blob is left alone; the digest is that of the
    blob with the new nonce; and a result is emitted exactly when the
    digest's last 8 bytes, read as a number, are below the target, in
    which case it carries this nonce and this digest. *)
Theorem work_main_iteration_result (o : obs) (s : single) :
  (43 <= length (bWorkBlob (oWork (s_thd s))))%nat ->
  let s' := fst (work_main_iteration o s) in
  let fx := snd (work_main_iteration o s) in
  let blob := bWorkBlob (oWork (s_thd s)) in
  let blob' := bWorkBlob (oWork (s_thd s')) in
  res_iNonce (s_result s') = wrap32 (res_iNonce (s_result s) + 1)
  /\ read32 blob' 39 = res_iNonce (s_result s')
  /\ take 39 blob' = take 39 blob
  /\ drop 43 blob' = drop 43 blob
  /\ res_bResult (s_result s')
     = single_hash (s_thd s) blob' (iWorkSize (oWork (s_thd s)))
  /\ (forall r pool,
        In (FxPush r pool) fx <->
        r = s_result s'
        /\ pool = iPoolId (oWork (s_thd s))
        /\ read64 (res_bResult r) 24 < iTarget (oWork (s_thd s))).
Proof.
  intros Hlen. unfold work_main_iteration.
  cbn [fst snd s_thd s_result res_iNonce res_bResult set_work set_blob
       oWork bWorkBlob].
  split; [reflexivity|]. split.
  { rewrite read32_write32_same by lia. apply wrap32_idem. }
  split.
  { unfold write32. apply store_bytes_take_below; lia. }
  split.
  { unfold write32. apply store_bytes_drop_after.
    - rewrite le_bytes_length. lia.
    - lia. }
  split; [reflexivity|].
  intros r pool. rewrite !in_app_iff.
  set (digest := single_hash (s_thd s) _ _).
  set (res := {| res_sJobID := _; res_iNonce := _; res_bResult := digest |}).
  split.
  - intros [H|[H|H]].
    + destruct (Z.land (s_iCount s) 7 =? 0); [|destruct H].
      destruct H as [H|[]]. discriminate.
    + destruct (read64 digest 24 <? iTarget (oWork (s_thd s))) eqn:Hlt;
        [|destruct H].
      destruct H as [H|[]]. inversion H; subst.
      apply Z.ltb_lt in Hlt. auto.
    + destruct H as [H|[]]. discriminate.
  - intros (-> & -> & Hlt). right. left.
    cbn [res_bResult res] in Hlt. apply Z.ltb_lt in Hlt. rewrite Hlt.
    left. reflexivity.
Qed.

Lemma work_main_next_nonce v s :
  s_pc s = AtInner ->
  iGlobalJobNo (snd v) = iJobNo (s_thd s) ->
  res_iNonce (s_result (work_main_next v s))
  = wrap32 (res_iNonce (s_result s) + 1).
Proof.
  intros Hpc Hj. unfold work_main_next, work_main_step.
  rewrite Hpc. apply Z.eqb_eq in Hj. rewrite Hj. reflexivity.
Qed.

Lemma work_main_run_nonce sched s :
  s_pc s = AtInner ->
  is_u32 (res_iNonce (s_result s)) ->
  Forall (fun v : view => iGlobalJobNo (snd v) = iJobNo (s_thd s)) sched ->
  res_iNonce (s_result (work_main_run sched s))
  = wrap32 (res_iNonce (s_result s) + Z.of_nat (length sched)).
Proof.
  revert s. induction sched as [|v rest IH]; intros s Hpc Hu Hall.
  - cbn. rewrite Z.add_0_r. symmetry. apply wrap32_small. exact Hu.
  - pose proof (Forall_inv Hall) as Hv. pose proof (Forall_inv_tail Hall) as Ht.
    destruct (work_main_next_unchanged_job v s Hpc Hv) as (_ & Hpc' & Hj').
    cbn [work_main_run length]. rewrite IH.
    + rewrite work_main_next_nonce by assumption.
      unfold wrap32. rewrite Zplus_mod_idemp_l. f_equal. lia.
    + exact Hpc'.
    + rewrite work_main_next_nonce by assumption. apply wrap32_range.
    + rewrite Hj'. exact Ht.
Qed.

(** X15.  While the job does not change, the single-hash worker tries
    consecutive nonces: after [k] passes the nonce is the start value
    plus [k] on 32 bits, so no nonce comes back before 2^32 further
    passes. *)
Theorem work_main_nonces_consecutive (sched sched' : list view) (s : single) :
  s_pc s = AtInner ->
  is_u32 (res_iNonce (s_result s)) ->
  Forall (fun v : view => iGlobalJobNo (snd v) = iJobNo (s_thd s))
         (sched ++ sched') ->
  res_iNonce (s_result (work_main_run sched s))
  = wrap32 (res_iNonce (s_result s) + Z.of_nat (length sched))
  /\ (0 < Z.of_nat (length sched') < 2 ^ 32 ->
      res_iNonce (s_result (work_main_run (sched ++ sched') s))
      <> res_iNonce (s_result (work_main_run sched s))).
Proof.
  intros Hpc Hu Hall.
  pose proof (work_main_run_nonce (sched ++ sched') s Hpc Hu Hall) as H2.
  apply Forall_app in Hall. destruct Hall as [Hall1 _].
  pose proof (work_main_run_nonce sched s Hpc Hu Hall1) as H1.
  split; [exact H1|].
  intros Hk. rewrite H1, H2, length_app, Nat2Z.inj_add, Z.add_assoc.
  apply wrap32_add_neq. exact Hk.
Qed.

(** X16.  A worker parked on a stalled work does nothing but sleep while
    the global job number stays its own: its state does not change, it
    computes no hash and emits no result; and from the outer loop a
    stalled work leads to the parking loop, not to the hashing loop. *)
Theorem stalled_worker_only_sleeps :
  (forall sched s,
     s_pc s = AtStall ->
     Forall (fun v : view => iGlobalJobNo (snd v) = iJobNo (s_thd s)) sched ->
     work_main_run sched s = s
     /\ work_main_effects sched s = replicate (length sched) FxSleep
     /\ iterations sched s = 0%nat)
  /\
  (forall sched d,
     d_pc d = AtStall ->
     Forall (fun v : view => iGlobalJobNo (snd v) = iJobNo (d_thd d)) sched ->
     double_work_run sched d = d
     /\ double_work_effects sched d = replicate (length sched) FxSleep
     /\ double_iterations sched d = 0%nat)
  /\
  (forall o g s,
     s_pc s = AtOuter -> o_bQuit o = 0 -> bStall (oWork (s_thd s)) = true ->
     work_main_step o g s = (g, single_at s (s_thd s) AtStall, []))
  /\
  (forall o g d,
     d_pc d = AtOuter -> o_bQuit o = 0 -> bStall (oWork (d_thd d)) = true ->
     double_work_step o g d = (g, double_at d (d_thd d) AtStall, [])).
Proof.
  split; [|split; [|split]].
  - intros sched s Hpc Hall.
    induction Hall as [|v rest Hv _ IH]; [cbn; auto|].
    assert (E : work_main_step (fst v) (snd v) s = (snd v, s, [FxSleep])).
    { unfold work_main_step. rewrite Hpc.
      apply Z.eqb_eq in Hv. rewrite Hv. reflexivity. }
    cbn [work_main_run work_main_effects iterations length replicate].
    unfold work_main_next, hashing. rewrite E, Hpc. cbn [fst snd].
    destruct IH as (H1 & H2 & H3). rewrite H1, H2, H3. auto.
  - intros sched d Hpc Hall.
    induction Hall as [|v rest Hv _ IH]; [cbn; auto|].
    assert (E : double_work_step (fst v) (snd v) d = (snd v, d, [FxSleep])).
    { unfold double_work_step. rewrite Hpc.
      apply Z.eqb_eq in Hv. rewrite Hv. reflexivity. }
    cbn [double_work_run double_work_effects double_iterations length replicate].
    unfold double_work_next, double_hashing. rewrite E, Hpc. cbn [fst snd].
    destruct IH as (H1 & H2 & H3). rewrite H1, H2, H3. auto.
  - intros o g s Hpc Hq Hst. unfold work_main_step.
    rewrite Hpc, Hq, Hst. reflexivity.
  - intros o g d Hpc Hq Hst. unfold double_work_step.
    rewrite Hpc, Hq, Hst. reflexivity.
Qed.

Lemma double_work_next_iCount v d :
  d_iCount (double_work_next v d)
  = if double_hashing (snd v) d then wrap64 (d_iCount d + 2) else d_iCount d.
Proof.
  unfold double_work_next, double_work_step, double_hashing.
  destruct (d_pc d); cbn [fst snd d_iCount]; try reflexivity.
  - destruct (negb (o_bQuit (fst v) =? 0)); [reflexivity|].
    destruct (bStall (oWork (d_thd d))); [reflexivity|].
    destruct (d_piNonce d !!! 0%nat); [reflexivity|].
    destruct (bNiceHash (oWork (d_thd d))); reflexivity.
  - destruct (iGlobalJobNo (snd v) =? iJobNo (d_thd d)); [reflexivity|].
    unfold double_consume, consume_work.
    match goal with
    | |- context [sync_lanes ?a ?b ?c ?e ?f] =>
        destruct (sync_lanes a b c e f)
    end. reflexivity.
  - destruct (iGlobalJobNo (snd v) =? iJobNo (d_thd d)).
    + unfold double_work_iteration.
      destruct (write_nonces _ _ _ _) as [[blob n]|]; reflexivity.
    + unfold double_consume, consume_work.
      match goal with
      | |- context [sync_lanes ?a ?b ?c ?e ?f] =>
          destruct (sync_lanes a b c e f)
      end. reflexivity.
Qed.

Lemma double_work_run_iCount sched d :
  is_u64 (d_iCount d) ->
  d_iCount (double_work_run sched d)
  = wrap64 (d_iCount d + 2 * Z.of_nat (double_iterations sched d)).
Proof.
  revert d. induction sched as [|v rest IH]; intros d Hd.
  - cbn. rewrite Z.add_0_r. symmetry. apply wrap64_small. exact Hd.
  - cbn [double_work_run double_iterations]. rewrite IH.
    + rewrite double_work_next_iCount.
      destruct (double_hashing (snd v) d).
      * unfold wrap64. rewrite Zplus_mod_idemp_l. f_equal. lia.
      * f_equal.
    + rewrite double_work_next_iCount.
      destruct (double_hashing (snd v) d); [apply wrap64_range|exact Hd].
Qed.

Lemma stats_of_lane_results w iNonce out lanes :
  stats_of (lane_results w iNonce out lanes) = [].
Proof.
  unfold lane_results, stats_of.
  induction lanes as [|i lanes IH]; [reflexivity|].
  cbn [flat_map]. rewrite flat_map_app, IH.
  destruct (read64 out (32 * i + 24) <? iTarget w); reflexivity.
Qed.

(** X17.  In the dual-hash worker the counter grows by two per batch, so
    the batch that follows [k] earlier ones (counted from thread start)
    stores the hash counter and the time stamp exactly when [k] is a
    multiple of 4; the counter stored is [2 * k]. *)
Theorem dual_stats_every_fourth_batch (t : minethd) (sched : list view)
    (o : obs) (g : shared) :
  let d0 := double_work_start t in
  let d := double_work_run sched d0 in
  let k := Z.of_nat (double_iterations sched d0) in
  double_hashing g d = true ->
  stats_of (snd (double_work_step o g d))
  = if k mod 4 =? 0 then [(wrap64 (2 * k), o_now o)] else [].
Proof.
  intros d0 d k H.
  assert (Hc : d_iCount d = wrap64 (2 * k)).
  { unfold d, k. rewrite double_work_run_iCount.
    - reflexivity.
    - cbn. unfold is_u64. lia. }
  assert (Hm : (Z.land (d_iCount d) 7 =? 0) = (k mod 4 =? 0)).
  { rewrite land_7, Hc, wrap64_mod_8.
    apply eq_true_iff_eq. rewrite !Z.eqb_eq.
    split; intros E.
    - apply Z.mod_divide in E; [|lia]. destruct E as [q Hq].
      apply Z.mod_divide; [lia|]. exists q. lia.
    - apply Z.mod_divide in E; [|lia]. destruct E as [q Hq].
      apply Z.mod_divide; [lia|]. exists q. lia. }
  unfold double_hashing in H. unfold double_work_step.
  destruct (d_pc d); try discriminate. rewrite H.
  unfold double_work_iteration. rewrite Hm, Hc.
  destruct (write_nonces _ _ _ _) as [[blob n]|]; cbn [fst snd].
  - unfold stats_of at 1. rewrite !flat_map_app.
    fold (stats_of (lane_results (oWork (d_thd d)) n
            (cryptonight_double_hash_ctx blob (iWorkSize (oWork (d_thd d))))
            (seq 0 hashes))).
    rewrite stats_of_lane_results.
    destruct (k mod 4 =? 0); reflexivity.
  - destruct (k mod 4 =? 0); reflexivity.
Qed.

(** *** Lanes across batches *)

Lemma lanes_ok_spec (d : double) :
  let size := Z.to_nat (iWorkSize (oWork (d_thd d))) in
  let job := outside_nonce (take size (bWorkBlob (oWork (d_thd d)))) in
  lanes_ok d = true <->
  (d_piNonce d !!! 0%nat = Some 39%nat
   /\ outside_nonce (take size (d_bDoubleWorkBlob d)) = job)
  /\ (d_piNonce d !!! 1%nat = Some (size + 39)%nat
      /\ outside_nonce (take size (drop size (d_bDoubleWorkBlob d))) = job).
Proof.
  clear bHaveAes cryptonight_hash_ctx cryptonight_hash_ctx_np cryptonight_hash_ctx_soft cryptonight_double_hash_ctx calc_start_nonce calc_nicehash_nonce stack_result stack_blob stack_out stack_nonce.
  intros size job. unfold lanes_ok, lane_ok, lane_bytes.
  cbn [hashes seq forallb]. fold size. fold job.
  rewrite !andb_true_iff, !bool_decide_eq_true.
  change (0 * size)%nat with 0%nat. rewrite drop_0.
  replace (1 * size)%nat with size by lia.
  change (0 + 39)%nat with 39%nat. tauto.
Qed.

(** A nonce written into a lane changes nothing outside that lane's
    nonce word. *)
Lemma outside_nonce_write32 blob a size v :
  (43 <= size)%nat -> (a + size <= length blob)%nat ->
  outside_nonce (take size (drop a (write32 blob (a + 39) v)))
  = outside_nonce (take size (drop a blob)).
Proof.
  intros Hs Hl. unfold outside_nonce, write32.
  rewrite !take_take.
  replace (39 `min` size)%nat with 39%nat by lia.
  rewrite store_bytes_slice_before by lia.
  f_equal.
  rewrite !skipn_firstn_comm, !drop_drop.
  rewrite store_bytes_drop_after by (rewrite ?le_bytes_length; lia).
  reflexivity.
Qed.

Lemma lane_write32_later blob a size p v :
  (a + size <= p)%nat -> (p <= length blob)%nat ->
  take size (drop a (write32 blob p v)) = take size (drop a blob).
Proof. intros. unfold write32. apply store_bytes_slice_before; lia. Qed.

Lemma lane_write32_earlier blob a size p v :
  (p + 4 <= a)%nat -> (p <= length blob)%nat ->
  take size (drop a (write32 blob p v)) = take size (drop a blob).
Proof.
  intros. unfold write32. rewrite store_bytes_drop_after; [reflexivity| |lia].
  rewrite le_bytes_length. lia.
Qed.

Lemma double_work_iteration_keeps_lanes o d :
  let size := Z.to_nat (iWorkSize (oWork (d_thd d))) in
  lanes_ok d = true ->
  (43 <= size)%nat ->
  (2 * size <= length (d_bDoubleWorkBlob d))%nat ->
  let d' := fst (double_work_iteration o d) in
  d_pc d' = AtInner
  /\ lanes_ok d' = true
  /\ oWork (d_thd d') = oWork (d_thd d)
  /\ iJobNo (d_thd d') = iJobNo (d_thd d)
  /\ length (d_bDoubleWorkBlob d') = length (d_bDoubleWorkBlob d).
Proof.
  clear bHaveAes cryptonight_hash_ctx cryptonight_hash_ctx_np cryptonight_hash_ctx_soft calc_start_nonce calc_nicehash_nonce stack_result stack_blob stack_out stack_nonce.
  intros size Hok Hs Hl.
  pose proof (proj1 (lanes_ok_spec d) Hok) as [[P0 L0] [P1 L1]].
  fold size in P1, L0, L1.
  unfold double_work_iteration. cbn [hashes seq write_nonces].
  rewrite P0, P1. cbv iota beta.
  set (n1 := wrap32 (d_iNonce d + 1)).
  set (n2 := wrap32 (n1 + 1)).
  set (b1 := write32 (d_bDoubleWorkBlob d) 39 n1).
  assert (Lb1 : length b1 = length (d_bDoubleWorkBlob d)).
  { unfold b1. apply write32_length. lia. }
  assert (Lb2 : length (write32 b1 (size + 39) n2)
                = length (d_bDoubleWorkBlob d)).
  { rewrite write32_length by lia. exact Lb1. }
  assert (Hw : oWork (if Z.land (d_iCount d) 7 =? 0
                      then set_stats (d_thd d) (d_iCount d) (o_now o)
                      else d_thd d) = oWork (d_thd d)).
  { destruct (Z.land (d_iCount d) 7 =? 0); reflexivity. }
  assert (Hj : iJobNo (if Z.land (d_iCount d) 7 =? 0
                       then set_stats (d_thd d) (d_iCount d) (o_now o)
                       else d_thd d) = iJobNo (d_thd d)).
  { destruct (Z.land (d_iCount d) 7 =? 0); reflexivity. }
  cbn [fst d_pc d_thd d_bDoubleWorkBlob].
  split; [reflexivity|]. split; [|auto].
  apply (proj2 (lanes_ok_spec _)).
  cbn [d_thd d_piNonce d_bDoubleWorkBlob]. rewrite Hw. fold size.
  split; split; try assumption.
  - rewrite <- L0.
    rewrite <- (drop_0 (write32 b1 (size + 39) n2)).
    rewrite lane_write32_later by lia. rewrite drop_0.
    rewrite <- (drop_0 b1), <- (drop_0 (d_bDoubleWorkBlob d)).
    unfold b1. apply (outside_nonce_write32 _ 0); lia.
  - rewrite <- L1.
    rewrite (outside_nonce_write32 b1 size size n2) by lia.
    unfold b1. rewrite lane_write32_earlier by lia. reflexivity.
Qed.

(** X18.  Once the lanes are in order (both nonce pointers 39 bytes into
    their lane, both lanes equal to the job blob outside the nonce
    word), with a job of at least 43 bytes that fits twice into the
    buffer, they stay in order for every batch of that job: the batches
    only rewrite the two nonce words, and none of them faults. *)
Theorem dual_batches_keep_lanes (sched : list view) (d : double) :
  let size := Z.to_nat (iWorkSize (oWork (d_thd d))) in
  d_pc d = AtInner ->
  lanes_ok d = true ->
  (43 <= size)%nat ->
  (2 * size <= length (d_bDoubleWorkBlob d))%nat ->
  Forall (fun v : view => iGlobalJobNo (snd v) = iJobNo (d_thd d)) sched ->
  let d' := double_work_run sched d in
  d_pc d' = AtInner
  /\ lanes_ok d' = true
  /\ double_iterations sched d = length sched.
Proof.
  clear bHaveAes cryptonight_hash_ctx cryptonight_hash_ctx_np cryptonight_hash_ctx_soft stack_result stack_blob stack_out stack_nonce.
  cbv zeta. revert d. induction sched as [|v rest IH];
    intros d Hpc Hok Hs Hl Hall.
  - cbn. auto.
  - pose proof (Forall_inv Hall) as Hv. pose proof (Forall_inv_tail Hall) as Ht.
    destruct (double_work_iteration_keeps_lanes (fst v) d Hok Hs Hl)
      as (K1 & K2 & K3 & K4 & K5).
    assert (E : double_work_next v d = fst (double_work_iteration (fst v) d)).
    { unfold double_work_next, double_work_step. rewrite Hpc.
      apply Z.eqb_eq in Hv. rewrite Hv.
      destruct (double_work_iteration (fst v) d). reflexivity. }
    cbn [double_work_run double_iterations length].
    unfold double_hashing at 1. rewrite Hpc.
    apply Z.eqb_eq in Hv. rewrite Hv. rewrite E.
    destruct (IH (fst (double_work_iteration (fst v) d))) as (H1 & H2 & H3).
    + exact K1.
    + exact K2.
    + rewrite K3. exact Hs.
    + rewrite K3, K5. exact Hl.
    + rewrite K4. exact Ht.
    + rewrite H3. auto.
Qed.

(** *** The threads [thread_starter] creates *)

Lemma thread_starter_lookup pWork cfgs g0 i :
  threads (thread_starter pWork cfgs g0) !! i
  = (fun cfg =>
       let t := minethd_new pWork i (Provisioner.bNoPrefetch cfg) in
       if Provisioner.bDoubleMode cfg
       then Double (double_work_start t)
       else Single (work_main_start t)) <$> cfgs !! i.
Proof. unfold thread_starter. cbn [threads]. apply list_lookup_imap. Qed.

Lemma thread_starter_thread pWork cfgs g0 i th :
  threads (thread_starter pWork cfgs g0) !! i = Some th ->
  (i < length cfgs)%nat
  /\ thread_pc th = AtEntry
  /\ exists np, thread_thd th = minethd_new pWork i np.
Proof.
  rewrite thread_starter_lookup. intros H.
  destruct (cfgs !! i) as [cfg|] eqn:E; [|discriminate].
  split; [apply lookup_lt_is_Some; eauto|].
  cbn in H. inversion H.
  destruct (Provisioner.bDoubleMode cfg); cbn; eauto.
Qed.

(** X19.  The threads [thread_starter] creates stand at their entry with
    job number 0 and a copy of the work they were given.  The thread
    number is the position in the configuration cut to 8 bits: two
    threads have the same number exactly when their positions are equal
    modulo 256, so the numbers are distinct when at most 256 threads
    are configured. *)
Theorem thread_starter_thread_numbers (pWork : miner_work)
    (cfgs : list Provisioner.thd_cfg) (g0 : shared) (i j : nat)
    (th_i th_j : thread) :
  let p := thread_starter pWork cfgs g0 in
  threads p !! i = Some th_i ->
  threads p !! j = Some th_j ->
  thread_pc th_i = AtEntry
  /\ iJobNo (thread_thd th_i) = 0
  /\ oWork (thread_thd th_i) = pWork
  /\ iThreadNo (thread_thd th_i) = Z.of_nat i mod 256
  /\ (iThreadNo (thread_thd th_i) = iThreadNo (thread_thd th_j)
      <-> Z.of_nat i mod 256 = Z.of_nat j mod 256)
  /\ ((length cfgs <= 256)%nat ->
      iThreadNo (thread_thd th_i) = iThreadNo (thread_thd th_j) -> i = j).
Proof.
  intros p Hi Hj.
  destruct (thread_starter_thread _ _ _ _ _ Hi) as (Li & Pi & npi & Ti).
  destruct (thread_starter_thread _ _ _ _ _ Hj) as (Lj & _ & npj & Tj).
  rewrite Ti, Tj. cbn [minethd_new iJobNo oWork iThreadNo].
  split; [exact Pi|]. split; [reflexivity|]. split; [reflexivity|].
  split; [reflexivity|]. split; [reflexivity|].
  intros Hn E. rewrite !Z.mod_small in E by lia. lia.
Qed.

End Workers.

(** *** Concrete runs

    A two-lane pool on a machine without hardware AES.  The hash entry
    points are stand-ins that return zero digests, so every nonce
    qualifies against a positive target; the nonce-start helpers are
    stand-ins for those of [minethd.h]. *)

Definition zero_hash (input : list Z) (len : Z) : list Z := replicate 32 0.
Definition zero_double_hash (input : list Z) (len : Z) : list Z :=
  replicate 64 0.

Definition start_nonce (g : shared) (t : minethd) (resume : Z) : Z :=
  wrap32 (Z.shiftl (resume * iThreadCount g + iThreadNo t) 22).
Definition nicehash_nonce (g : shared) (t : minethd) (start resume : Z) : Z :=
  wrap32 (Z.lor start (Z.shiftl (resume * iThreadCount g + iThreadNo t) 18)).

Definition no_result : job_result :=
  {| res_sJobID := []; res_iNonce := 0xcccccccc; res_bResult := replicate 32 0xcc |}.
Definition stack_fill (n : nat) : list Z := replicate n 0xcc.

(** A 76-byte job, ready to be searched. *)
Definition job_a : miner_work :=
  {| sJobID := [0x61];
     bWorkBlob := map Z.of_nat (seq 0 112);
     iWorkSize := 76;
     iResumeCnt := 0;
     iTarget := 1;
     bNiceHash := false;
     bStall := false;
     iPoolId := 0 |}.

(** The "no job yet" work. *)
Definition job_none : miner_work :=
  {| sJobID := [];
     bWorkBlob := replicate 112 0;
     iWorkSize := 0;
     iResumeCnt := 0;
     iTarget := 0;
     bNiceHash := false;
     bStall := true;
     iPoolId := 0 |}.

Definition statics0 : shared :=
  {| oGlobalWork := job_none; iGlobalJobNo := 7; iConsumeCnt := 3;
     iThreadCount := 0 |}.

Definition cfg_single : Provisioner.thd_cfg :=
  {| Provisioner.bDoubleMode := false; Provisioner.bNoPrefetch := false;
     Provisioner.iCpuAff := -1 |}.
Definition cfg_double : Provisioner.thd_cfg :=
  {| Provisioner.bDoubleMode := true; Provisioner.bNoPrefetch := false;
     Provisioner.iCpuAff := -1 |}.

Definition run_pool (acts : list action) (p : pool) : pool :=
  perform_all false zero_hash zero_hash zero_hash zero_double_hash
    start_nonce nicehash_nonce acts p.

(** The pool at the head of the loop of [thread_starter]. *)
Definition launching_pool (pWork : miner_work)
    (cfgs : list Provisioner.thd_cfg) : pool :=
  thread_starter no_result (stack_fill 560) (stack_fill 64) 0xcccccccc
    pWork cfgs statics0.

(** The pool when [thread_starter] returns and no worker has been
    scheduled yet: one iteration per configuration entry, then the write
    of the worker count. *)
Definition start_pool (pWork : miner_work) (cfgs : list Provisioner.thd_cfg)
    : pool :=
  run_pool (replicate (S (length cfgs)) Start) (launching_pool pWork cfgs).

Lemma run_pool_reachable (acts : list action) (p0 p : pool) :
  reachable false zero_hash zero_hash zero_hash zero_double_hash
    start_nonce nicehash_nonce p0 p ->
  reachable false zero_hash zero_hash zero_hash zero_double_hash
    start_nonce nicehash_nonce p0 (run_pool acts p).
Proof. apply perform_all_reachable. Qed.

Lemma start_pool_reachable (pWork : miner_work)
    (cfgs : list Provisioner.thd_cfg) (acts : list action) :
  reachable false zero_hash zero_hash zero_hash zero_double_hash
    start_nonce nicehash_nonce
    (thread_starter no_result (stack_fill 560) (stack_fill 64) 0xcccccccc
       pWork cfgs statics0)
    (run_pool acts (start_pool pWork cfgs)).
Proof. apply run_pool_reachable. apply run_pool_reachable. apply reach_start. Qed.

Definition quiet : obs := {| o_bQuit := 0; o_now := 1000 |}.
Definition quitting : obs := {| o_bQuit := 1; o_now := 1000 |}.

(** C1, counterexample.  Right after [thread_starter] the first step of
    worker 0 (line 397 of [work_main]) raises the consumed count from 0
    to 1.  The worker is at its entry, not in [consume_work]: its job
    number and its work are what the constructor gave it. *)
Lemma worker_entry_changes_consumed_count :
  let p0 := start_pool job_none [cfg_single; cfg_double] in
  let p1 := run_pool [Step 0 quiet] p0 in
  iConsumeCnt (statics p0) = 0
  /\ iConsumeCnt (statics p1) = 1
  /\ (thread_pc <$> threads p0 !! 0%nat) = Some AtEntry
  /\ (thread_thd <$> threads p1 !! 0%nat)
     = (thread_thd <$> threads p0 !! 0%nat).
Proof. vm_compute. repeat split. Qed.

(** Both workers have entered; the producer publishes [job_a]. *)
Definition entered_pool : pool :=
  run_pool [Step 0 quiet; Step 1 quiet]
    (start_pool job_none [cfg_single; cfg_double]).

Lemma handoff_protocol_witness :
  producer entered_pool = Started
  /\ iConsumeCnt (statics entered_pool) = iThreadCount (statics entered_pool)
  /\ switch_work_poll job_a (statics entered_pool)
     = Some {| oGlobalWork := job_a; iGlobalJobNo := 1; iConsumeCnt := 0;
               iThreadCount := 2 |}
  /\ switch_work 1 job_a (statics entered_pool)
     = Some {| oGlobalWork := job_a; iGlobalJobNo := 1; iConsumeCnt := 0;
               iThreadCount := 2 |}
  /\ switch_work 10 job_a
       (statics (run_pool [Step 0 quiet]
                   (start_pool job_none [cfg_single; cfg_double]))) = None.
Proof.
  pose proof (handoff_protocol false zero_hash zero_hash zero_hash
                zero_double_hash start_nonce nicehash_nonce no_result
                (stack_fill 560) (stack_fill 64) 0xcccccccc job_none
                [cfg_single; cfg_double] statics0 entered_pool eq_refl
                (start_pool_reachable _ _ _)) as H.
  cbv zeta in H. destruct H as [H _].
  destruct (H job_a) as (_ & H2 & H3).
  destruct (H3 _ eq_refl) as [H4 _].
  assert (Hle : iThreadCount (statics entered_pool)
                <= iConsumeCnt (statics entered_pool))
    by (vm_compute; discriminate).
  split; [reflexivity|].
  split; [apply H4; reflexivity|].
  split; [vm_compute; reflexivity|].
  split; [rewrite (proj1 (H2 Hle) 0%nat); vm_compute; reflexivity|].
  pose proof (handoff_protocol false zero_hash zero_hash zero_hash
                zero_double_hash start_nonce nicehash_nonce no_result
                (stack_fill 560) (stack_fill 64) 0xcccccccc job_none
                [cfg_single; cfg_double] statics0
                (run_pool [Step 0 quiet]
                   (start_pool job_none [cfg_single; cfg_double]))
                eq_refl (start_pool_reachable _ _ _)) as H'.
  cbv zeta in H'. destruct H' as [H' _].
  destruct (H' job_a) as (H1 & _).
  apply H1. vm_compute. reflexivity.
Defined.

(** The dual-hash worker as [thread_starter] creates it when the first
    work it is given is a real job, after its entry and one turn of the
    outer loop: it stands at the condition of the hashing loop. *)
Definition first_job_pool : pool :=
  run_pool [Step 0 quiet; Step 0 quiet] (start_pool job_a [cfg_double]).

Definition the_double (p : pool) : double :=
  match threads p !! 0%nat with
  | Some (Double d) => d
  | _ => double_work_start [] [] 0 (minethd_new job_none 0 false)
  end.

(** C6, at the failing input: [thread_starter] is given a job that is not
    stalled and one dual-hash worker.  The worker reaches its first batch
    with the job number unchanged, the nonce pointer of lane 1 still null
    and [bDoubleWorkBlob] still holding whatever the stack held; the
    batch writes through the null pointer.  A worker that starts on a
    stalled work and takes its first job through the stall path has its
    lanes in order. *)
Theorem first_batch_lanes_not_synced :
  let d := the_double first_job_pool in
  d_pc d = AtInner
  /\ double_hashing (statics first_job_pool) d = true
  /\ d_piNonce d = [Some 39%nat; None]
  /\ d_bDoubleWorkBlob d = stack_fill 560
  /\ lanes_ok d = false
  /\ d_pc (the_double (run_pool [Step 0 quiet] first_job_pool)) = Faulted
  /\ lanes_ok
       (the_double
          (run_pool [Step 0 quiet; Publish job_a; Step 0 quiet; Step 0 quiet]
             (start_pool job_none [cfg_double]))) = true.
Proof. vm_compute. repeat split. Qed.

(** A dual-hash worker that took [job_a] at a job change, at the
    condition of its hashing loop. *)
Definition synced_double : double :=
  the_double
    (run_pool [Step 0 quiet; Publish job_a; Step 0 quiet; Step 0 quiet;
               Step 0 quiet]
       (start_pool job_none [cfg_double])).

Lemma dual_lane_attribution_witness :
  let d' := fst (double_work_iteration zero_double_hash quiet synced_double) in
  let fx := snd (double_work_iteration zero_double_hash quiet synced_double) in
  d_iNonce synced_double = 0
  /\ d_iNonce d' = 2
  /\ read32 (d_bDoubleWorkBlob d') 39 = 1
  /\ read32 (d_bDoubleWorkBlob d') (76 + 39) = 2
  /\ In (FxPush {| res_sJobID := [0x61]; res_iNonce := 1;
                   res_bResult := replicate 32 0 |} 0) fx
  /\ In (FxPush {| res_sJobID := [0x61]; res_iNonce := 2;
                   res_bResult := replicate 32 0 |} 0) fx
  /\ forall r pool,
       In (FxPush r pool) fx -> res_iNonce r = 1 \/ res_iNonce r = 2.
Proof.
  pose proof (dual_lane_attribution zero_double_hash quiet synced_double
                eq_refl) as H.
  cbv zeta in H.
  assert (H4 : (4 <= Z.to_nat (iWorkSize (oWork (d_thd synced_double))))%nat).
  { vm_compute. lia. }
  assert (HL : (Z.to_nat (iWorkSize (oWork (d_thd synced_double))) + 43
                <= length (d_bDoubleWorkBlob synced_double))%nat).
  { vm_compute. lia. }
  destruct (H H4 HL) as (_ & _ & Hl & Hr).
  cbv zeta.
  split; [vm_compute; reflexivity|].
  split; [vm_compute; reflexivity|].
  split; [vm_compute; reflexivity|].
  split; [vm_compute; reflexivity|].
  split.
  { apply (proj2 (Hr _ _)). exists 0%nat.
    split; [unfold hashes; lia|].
    split; [vm_compute; reflexivity|].
    split; vm_compute; reflexivity. }
  split.
  { apply (proj2 (Hr _ _)). exists 1%nat.
    split; [unfold hashes; lia|].
    split; [vm_compute; reflexivity|].
    split; vm_compute; reflexivity. }
  intros r pool Hin. destruct (proj1 (Hr r pool) Hin) as (i & Hi & _ & -> & _).
  cbn [res_iNonce]. unfold hashes in Hi.
  destruct i as [|[|i]]; [left|right|lia]; vm_compute; reflexivity.
Defined.

(** A single-hash worker in its hashing loop on [job_a]. *)
Definition searching_single : single :=
  work_main_run false zero_hash zero_hash zero_hash start_nonce nicehash_nonce
    [(quiet, statics0); (quiet, statics0)]
    (work_main_start no_result (minethd_new job_a 0 false)).

(** The job number stays at the worker's (0) while the quit flag is up. *)
Definition quit_raised : list view :=
  replicate 5 (quitting, {| oGlobalWork := job_a; iGlobalJobNo := 0;
                            iConsumeCnt := 1; iThreadCount := 1 |}).

Lemma quit_checked_only_at_outer_loop_witness :
  s_pc searching_single = AtInner
  /\ s_pc (work_main_run false zero_hash zero_hash zero_hash start_nonce
             nicehash_nonce quit_raised searching_single) = AtInner
  /\ iterations false zero_hash zero_hash zero_hash start_nonce
       nicehash_nonce quit_raised searching_single = 5%nat.
Proof.
  split; [reflexivity|].
  apply (proj1 (proj2 (proj2 (proj2 (proj2
           (quit_checked_only_at_outer_loop false zero_hash zero_hash zero_hash
              zero_double_hash start_nonce nicehash_nonce)))))
           quit_raised searching_single eq_refl).
  repeat constructor.
Defined.

(** Eight passes through the hashing loop after thread start. *)
Definition eight_passes : list view :=
  [(quiet, statics0); (quiet, statics0)]
  ++ replicate 8 (quiet, {| oGlobalWork := job_a; iGlobalJobNo := 0;
                            iConsumeCnt := 1; iThreadCount := 1 |}).

Lemma stats_every_eighth_iteration_witness :
  let t := minethd_new job_a 0 false in
  let g := {| oGlobalWork := job_a; iGlobalJobNo := 0;
              iConsumeCnt := 1; iThreadCount := 1 |} in
  let s := work_main_run false zero_hash zero_hash zero_hash start_nonce
             nicehash_nonce eight_passes (work_main_start no_result t) in
  hashing g s = true
  /\ stats_of (snd (work_main_step false zero_hash zero_hash zero_hash
                      start_nonce nicehash_nonce quiet g s))
     = [(8, 1000)].
Proof.
  split; [vm_compute; reflexivity|].
  pose proof (stats_every_eighth_iteration false zero_hash zero_hash zero_hash
                start_nonce nicehash_nonce no_result
                (minethd_new job_a 0 false) eight_passes quiet
                {| oGlobalWork := job_a; iGlobalJobNo := 0;
                   iConsumeCnt := 1; iThreadCount := 1 |}) as H.
  cbv zeta in H. destruct (H eq_refl) as [H1 _].
  rewrite H1. vm_compute. reflexivity.
Defined.

(** *** Further concrete runs *)

Lemma publish_only_after_all_consumed_witness :
  producer entered_pool = Started
  /\ switch_work_poll job_a (statics entered_pool)
     = Some {| oGlobalWork := job_a; iGlobalJobNo := 1; iConsumeCnt := 0;
               iThreadCount := 2 |}
  /\ Forall (fun th => thread_pc th <> AtEntry
                       /\ iJobNo (thread_thd th)
                          = iGlobalJobNo (statics entered_pool))
            (threads entered_pool).
Proof.
  assert (E : switch_work_poll job_a (statics entered_pool)
              = Some {| oGlobalWork := job_a; iGlobalJobNo := 1;
                        iConsumeCnt := 0; iThreadCount := 2 |})
    by (vm_compute; reflexivity).
  split; [reflexivity|]. split; [exact E|].
  exact (publish_only_after_all_consumed false zero_hash zero_hash zero_hash
           zero_double_hash start_nonce nicehash_nonce no_result
           (stack_fill 560) (stack_fill 64) 0xcccccccc job_none
           [cfg_single; cfg_double] statics0 entered_pool job_a _ eq_refl
           (start_pool_reachable _ _ _) eq_refl E).
Defined.


(** The only worker is told to quit right after a job was published: it
    leaves with the job number it had. *)
Definition left_behind_pool : pool :=
  run_pool [Step 0 quiet; Publish job_a; Step 0 quitting]
    (start_pool job_none [cfg_single]).

Lemma stopped_worker_blocks_publisher_witness :
  let p' := run_pool [Step 0 quiet; Publish job_a; Step 0 quiet]
              left_behind_pool in
  (thread_pc <$> threads left_behind_pool !! 0%nat) = Some AtExit
  /\ iGlobalJobNo (statics p') = 1
  /\ iConsumeCnt (statics p') < iThreadCount (statics p')
  /\ switch_work 10 job_a (statics p') = None.
Proof.
  intros p'.
  split; [vm_compute; reflexivity|].
  edestruct (stopped_worker_blocks_publisher false zero_hash zero_hash
               zero_hash zero_double_hash start_nonce nicehash_nonce no_result
               (stack_fill 560) (stack_fill 64) 0xcccccccc job_none
               [cfg_single] statics0 left_behind_pool p' 0)
    as (H1 & H2 & H3).
  - reflexivity.
  - apply start_pool_reachable.
  - vm_compute. reflexivity.
  - left. reflexivity.
  - vm_compute. discriminate.
  - apply run_pool_reachable. apply reach_start.
  - split; [rewrite H1; vm_compute; reflexivity|].
    split; [exact H2|]. apply H3.
Defined.

Lemma work_main_iteration_result_witness :
  let s' := fst (work_main_iteration false zero_hash zero_hash zero_hash
                   quiet searching_single) in
  (43 <= length (bWorkBlob (oWork (s_thd searching_single))))%nat
  /\ res_iNonce (s_result searching_single) = 0
  /\ res_iNonce (s_result s') = 1
  /\ read32 (bWorkBlob (oWork (s_thd s'))) 39 = 1
  /\ drop 43 (bWorkBlob (oWork (s_thd s'))) = drop 43 (bWorkBlob job_a).
Proof.
  cbv zeta.
  assert (L : (43 <= length (bWorkBlob (oWork (s_thd searching_single))))%nat)
    by (vm_compute; lia).
  pose proof (work_main_iteration_result false zero_hash zero_hash zero_hash
                quiet searching_single L) as H.
  cbv zeta in H. destruct H as (H1 & H2 & _ & H4 & _).
  split; [exact L|].
  split; [vm_compute; reflexivity|].
  split; [rewrite H1; vm_compute; reflexivity|].
  split; [rewrite H2, H1; vm_compute; reflexivity|].
  rewrite H4. vm_compute. reflexivity.
Defined.

(** The job number stays at the worker's (0). *)
Definition same_job : view :=
  (quiet, {| oGlobalWork := job_a; iGlobalJobNo := 0;
             iConsumeCnt := 1; iThreadCount := 1 |}).

Lemma work_main_nonces_consecutive_witness :
  s_pc searching_single = AtInner
  /\ is_u32 (res_iNonce (s_result searching_single))
  /\ res_iNonce
       (s_result
          (work_main_run false zero_hash zero_hash zero_hash start_nonce
             nicehash_nonce (replicate 3 same_job) searching_single)) = 3.
Proof.
  assert (U : is_u32 (res_iNonce (s_result searching_single)))
    by (vm_compute; split; congruence).
  split; [reflexivity|]. split; [exact U|].
  destruct (work_main_nonces_consecutive false zero_hash zero_hash zero_hash
              start_nonce nicehash_nonce (replicate 3 same_job)
              (replicate 2 same_job) searching_single eq_refl U) as [H _].
  - repeat constructor.
  - rewrite H. vm_compute. reflexivity.
Defined.

(** A single-hash worker parked on the "no job yet" work. *)
Definition parked_single : single :=
  work_main_run false zero_hash zero_hash zero_hash start_nonce nicehash_nonce
    [(quiet, statics0); (quiet, statics0)]
    (work_main_start no_result (minethd_new job_none 0 false)).

Lemma stalled_worker_only_sleeps_witness :
  s_pc parked_single = AtStall
  /\ work_main_run false zero_hash zero_hash zero_hash start_nonce
       nicehash_nonce (replicate 3 same_job) parked_single = parked_single
  /\ work_main_effects false zero_hash zero_hash zero_hash start_nonce
       nicehash_nonce (replicate 3 same_job) parked_single
     = [FxSleep; FxSleep; FxSleep].
Proof.
  split; [reflexivity|].
  destruct (proj1 (stalled_worker_only_sleeps false zero_hash zero_hash
                     zero_hash zero_double_hash start_nonce nicehash_nonce)
              (replicate 3 same_job) parked_single eq_refl)
    as (H1 & H2 & _).
  - repeat constructor.
  - split; [exact H1|exact H2].
Defined.

(** The first job reaches a dual-hash worker that started on the "no job
    yet" work; four batches follow. *)
Definition first_job : shared :=
  {| oGlobalWork := job_a; iGlobalJobNo := 1; iConsumeCnt := 0;
     iThreadCount := 1 |}.

Definition four_batches : list view := replicate 8 (quiet, first_job).

Lemma dual_stats_every_fourth_batch_witness :
  let d := double_work_run zero_double_hash start_nonce nicehash_nonce
             four_batches
             (double_work_start (stack_fill 560) (stack_fill 64) 0xcccccccc
                (minethd_new job_none 0 false)) in
  double_hashing first_job d = true
  /\ double_iterations zero_double_hash start_nonce nicehash_nonce
       four_batches
       (double_work_start (stack_fill 560) (stack_fill 64) 0xcccccccc
          (minethd_new job_none 0 false)) = 4%nat
  /\ stats_of (snd (double_work_step zero_double_hash start_nonce
                      nicehash_nonce quiet first_job d))
     = [(8, 1000)].
Proof.
  intros d.
  assert (E : double_hashing first_job d = true) by (vm_compute; reflexivity).
  split; [exact E|]. split; [vm_compute; reflexivity|].
  pose proof (dual_stats_every_fourth_batch zero_double_hash start_nonce
                nicehash_nonce (stack_fill 560) (stack_fill 64) 0xcccccccc
                (minethd_new job_none 0 false) four_batches quiet first_job)
    as H.
  cbv zeta in H. specialize (H E). unfold d. rewrite H.
  vm_compute. reflexivity.
Defined.

Lemma dual_batches_keep_lanes_witness :
  let sched := replicate 3 (quiet, first_job) in
  d_pc synced_double = AtInner
  /\ lanes_ok synced_double = true
  /\ lanes_ok (double_work_run zero_double_hash start_nonce nicehash_nonce
                 sched synced_double) = true
  /\ double_iterations zero_double_hash start_nonce nicehash_nonce
       sched synced_double = 3%nat.
Proof.
  intros sched.
  assert (P : d_pc synced_double = AtInner) by (vm_compute; reflexivity).
  assert (L : lanes_ok synced_double = true) by (vm_compute; reflexivity).
  split; [exact P|]. split; [exact L|].
  pose proof (dual_batches_keep_lanes zero_double_hash start_nonce
                nicehash_nonce sched synced_double P L) as H.
  cbv zeta in H.
  destruct H as (_ & H2 & H3).
  - vm_compute. lia.
  - vm_compute. lia.
  - repeat constructor.
  - split; [exact H2|exact H3].
Defined.

(** With 257 single-hash threads the last one has the number of the
    first. *)
Lemma thread_starter_thread_numbers_witness :
  let p := launching_pool job_none (replicate 257 cfg_single) in
  exists th0 th256,
    threads p !! 0%nat = Some th0
    /\ threads p !! 256%nat = Some th256
    /\ iThreadNo (thread_thd th0) = 0
    /\ iThreadNo (thread_thd th256) = 0.
Proof.
  intros p.
  assert (H0 : threads p !! 0%nat
               = Some (Single (work_main_start no_result
                                 (minethd_new job_none 0 false))))
    by (vm_compute; reflexivity).
  assert (H256 : threads p !! 256%nat
                 = Some (Single (work_main_start no_result
                                   (minethd_new job_none 256 false))))
    by (vm_compute; reflexivity).
  eexists _, _. split; [exact H0|]. split; [exact H256|].
  pose proof (thread_starter_thread_numbers no_result (stack_fill 560)
                (stack_fill 64) 0xcccccccc job_none (replicate 257 cfg_single)
                statics0 0 256 _ _ H0 H256) as H.
  cbv zeta in H. destruct H as (_ & _ & _ & H4 & H5 & _).
  split; [rewrite H4; reflexivity|].
  rewrite <- (proj2 H5 eq_refl). rewrite H4. reflexivity.
Defined.

End Mining.
